(** * Partial effects of a fitted generalized additive model

    A shallow embedding of
    [src/generalized_additive_models/inspection/partial_effect.py]:
    [generate_X_grid], [partial_effect] and
    [PartialEffectDisplay.from_estimator]; the module [Drawing] has
    [PartialEffectDisplay.__init__] and [PartialEffectDisplay.plot].

    Conventions of the embedding.
    - Finite array entries are exact rationals ([Q]): rounding is not
      modelled.  Values that may be infinite or not-a-number (the scalar
      [standard_deviations], the link domain, everything downstream of
      [np.sqrt] and of the link functions) live in [npfloat].
    - Exceptions are values of [exn]; a computation that may raise returns a
      [result].
    - Term objects live in a heap; the caller passes references.
    - Methods of classes defined outside this module ([Term.transform],
      [Term._get_column], [Term.__eq__], [GAM.predict], the link) and
      [np.sqrt] are parameters of the development.
    - An axes object of matplotlib is the record of the calls made on it;
      whether matplotlib accepts a call, and what it returns, are
      parameters as well. *)

From Stdlib Require Import QArith Qabs Qminmax ZArith List Lia Lqa Bool String.
From stdpp Require Import base gmap list.
Import ListNotations.

Local Open Scope nat_scope.

(** ** Exceptions and the error monad *)

Inductive exn : Type :=
| TypeError (msg : string)
| ValueError (msg : string)
| NotFittedError
| IndexError
| AttributeError
| AssertionError.

Inductive result (A : Type) : Type :=
| Ok (a : A)
| Raise (e : exn).
Arguments Ok {A} a.
Arguments Raise {A} e.

Definition rbind {A B} (r : result A) (k : A -> result B) : result B :=
  match r with
  | Ok a => k a
  | Raise e => Raise e
  end.

Declare Scope py_scope.
Delimit Scope py_scope with py.
Notation "'let?' x ':=' e 'in' k" := (rbind e (fun x => k))
  (at level 10, x pattern, e at level 100, k at level 200) : py_scope.
Local Open Scope py_scope.

(** [[f(a) for a in l]]: the first exception wins. *)
Fixpoint sequence {A} (l : list (result A)) : result (list A) :=
  match l with
  | [] => Ok []
  | r :: rest =>
      let? a := r in
      let? others := sequence rest in
      Ok (a :: others)
  end.

(** ** Floating-point values with their special members *)

Inductive npfloat : Type :=
| Fin (q : Q)
| PosInf
| NegInf
| NaN.

Definition Qsgn (q : Q) : Z := Z.sgn (Qnum q).

Definition fneg (a : npfloat) : npfloat :=
  match a with
  | Fin q => Fin (- q)
  | PosInf => NegInf
  | NegInf => PosInf
  | NaN => NaN
  end.

Definition fadd (a b : npfloat) : npfloat :=
  match a, b with
  | NaN, _ | _, NaN => NaN
  | Fin x, Fin y => Fin (x + y)
  | PosInf, NegInf | NegInf, PosInf => NaN
  | PosInf, _ | _, PosInf => PosInf
  | NegInf, _ | _, NegInf => NegInf
  end.

Definition fsub (a b : npfloat) : npfloat := fadd a (fneg b).

(** An infinity of the sign of [z]; [0 * inf] is not a number. *)
Definition inf_of_sign (z : Z) : npfloat :=
  match z with
  | Z0 => NaN
  | Zpos _ => PosInf
  | Zneg _ => NegInf
  end.

Definition fsign (a : npfloat) : Z :=
  match a with
  | Fin q => Qsgn q
  | PosInf => 1%Z
  | NegInf => (-1)%Z
  | NaN => 0%Z
  end.

Definition fmul (a b : npfloat) : npfloat :=
  match a, b with
  | NaN, _ | _, NaN => NaN
  | Fin x, Fin y => Fin (x * y)
  | _, _ => inf_of_sign (fsign a * fsign b)
  end.

(** Comparisons; every comparison with [NaN] is false. *)
Definition fle (a b : npfloat) : bool :=
  match a, b with
  | NaN, _ | _, NaN => false
  | NegInf, _ | _, PosInf => true
  | Fin x, Fin y => Qle_bool x y
  | _, _ => false
  end.

Definition flt (a b : npfloat) : bool :=
  match a, b with
  | NaN, _ | _, NaN => false
  | Fin x, Fin y => negb (Qle_bool y x)
  | PosInf, _ | _, NegInf => false
  | _, _ => true
  end.

(** [np.maximum] and [np.minimum] propagate [NaN]. *)
Definition fmaximum (a b : npfloat) : npfloat :=
  match a, b with
  | NaN, _ | _, NaN => NaN
  | _, _ => if fle a b then b else a
  end.

Definition fminimum (a b : npfloat) : npfloat :=
  match a, b with
  | NaN, _ | _, NaN => NaN
  | _, _ => if fle a b then a else b
  end.

(** The same value with its fraction in lowest terms. *)
Definition fnorm (a : npfloat) : npfloat :=
  match a with
  | Fin q => Fin (Qred q)
  | _ => a
  end.

(** ** Arrays *)

(** One-dimensional arrays are lists.  A two-dimensional array carries its
    number of columns, so that arrays without rows or without columns keep
    their shape. *)
Record matrix : Type := mkMatrix {
  ncols : nat;
  rows : list (list Q)
}.

Definition nrows (M : matrix) : nat := length (rows M).

Definition wf_matrix (M : matrix) : Prop :=
  Forall (fun r => length r = ncols M) (rows M).

(** [M[i, j]] *)
Definition entry (M : matrix) (i j : nat) : Q := nth j (nth i (rows M) []) 0%Q.

(** [M[:, j]] *)
Definition column (M : matrix) (j : nat) : list Q :=
  map (fun r => nth j r 0%Q) (rows M).

(** [a.reshape(-1, 1)] of a one-dimensional array *)
Definition reshape_column (a : list Q) : matrix :=
  mkMatrix 1 (map (fun x => [x]) a).

(** [M.ravel()] *)
Definition ravel (M : matrix) : list Q := concat (rows M).

(** [M.T] *)
Definition transpose (M : matrix) : matrix :=
  mkMatrix (nrows M) (map (column M) (seq 0 (ncols M))).

Definition Qsum (l : list Q) : Q := fold_left Qplus l 0%Q.

Definition dot (u v : list Q) : Q := Qsum (map (fun p => (fst p * snd p)%Q) (combine u v)).

(** [A @ B] for two-dimensional arrays *)
Definition matmul (A B : matrix) : result matrix :=
  if ncols A =? nrows B then
    Ok (mkMatrix (ncols B)
          (map (fun r => map (fun j => dot r (column B j)) (seq 0 (ncols B))) (rows A)))
  else Raise (ValueError "matmul: mismatch in core dimension").

(** [A @ v] for a two-dimensional [A] and a one-dimensional [v] *)
Definition matvec (A : matrix) (v : list Q) : result (list Q) :=
  if ncols A =? length v then Ok (map (fun r => dot r v) (rows A))
  else Raise (ValueError "matmul: mismatch in core dimension").

(** [A * B], elementwise, for arrays of one shape *)
Definition hadamard (A B : matrix) : matrix :=
  mkMatrix (ncols A)
    (map (fun p => map (fun q => (fst q * snd q)%Q) (combine (fst p) (snd p)))
         (combine (rows A) (rows B))).

(** [np.sum(M, axis=1)] *)
Definition sum_axis1 (M : matrix) : list Q := map Qsum (rows M).

(** [np.diag(M)] of a two-dimensional array *)
Definition diag (M : matrix) : list Q :=
  map (fun i => entry M i i) (seq 0 (Nat.min (nrows M) (ncols M))).

(** [M[np.ix_(idx, idx)]] *)
Definition ix_submatrix (M : matrix) (idx : list nat) : result matrix :=
  if forallb (fun i => (i <? nrows M) && (i <? ncols M)) idx then
    Ok (mkMatrix (length idx) (map (fun i => map (fun j => entry M i j) idx) idx))
  else Raise IndexError.

(** The fast variance of line 154, before the square root, and the explicit
    one of line 156. *)
Definition fast_variance (X V : matrix) : result (list Q) :=
  let? XV := matmul X V in
  Ok (sum_axis1 (hadamard XV X)).

Definition explicit_variance (X V : matrix) : result (list Q) :=
  let? XV := matmul X V in
  let? XVXt := matmul XV (transpose X) in
  Ok (diag XVXt).

(** ** numpy reductions and [np.linspace] *)

Definition np_min (a : list Q) : result Q :=
  match a with
  | [] => Raise (ValueError "zero-size array to reduction operation minimum which has no identity")
  | v :: rest => Ok (fold_left Qmin rest v)
  end.

Definition np_max (a : list Q) : result Q :=
  match a with
  | [] => Raise (ValueError "zero-size array to reduction operation maximum which has no identity")
  | v :: rest => Ok (fold_left Qmax rest v)
  end.

(** A value is the minimum (maximum) of an array when it occurs in it and
    bounds every entry. *)
Definition is_min (m : Q) (a : list Q) : Prop :=
  In m a /\ Forall (fun u => (m <= u)%Q) a.

Definition is_max (m : Q) (a : list Q) : Prop :=
  In m a /\ Forall (fun u => (u <= m)%Q) a.

(** [np.arange(0, num)] *)
Definition arange (num : nat) : list Q :=
  map (fun i => inject_Z (Z.of_nat i)) (seq 0 num).

(** [y[-1] = v] *)
Definition set_last (y : list Q) (v : Q) : list Q :=
  match y with
  | [] => []
  | _ :: _ => removelast y ++ [v]
  end.

(** [np.linspace(start, stop, num=num)], with [endpoint=True]. *)
Definition linspace (start stop : Q) (num : Z) : result (list Q) :=
  if (num <? 0)%Z then Raise (ValueError "Number of samples must be non-negative")
  else
    let div := (num - 1)%Z in
    let delta := (stop - start)%Q in
    let y := arange (Z.to_nat num) in
    let y :=
      if (0 <? div)%Z then
        let step := (delta / inject_Z div)%Q in
        if Qeq_bool step 0
        then map (fun v => (v / inject_Z div * delta)%Q) y
        else map (fun v => (v * step)%Q) y
      else map (fun v => (v * delta)%Q) y in
    let y := map (fun v => (v + start)%Q) y in
    Ok (if (1 <? num)%Z then set_last y stop else y).

(** ** Arrays of any dimension, cartesian products and meshgrids *)

(** Row-major data under a shape. *)
Record ndarray : Type := mkNdarray {
  shape : list nat;
  data : list Q
}.

(** All multi-indices of a shape, in row-major order. *)
Fixpoint indices (shp : list nat) : list (list nat) :=
  match shp with
  | [] => [[]]
  | n :: rest => flat_map (fun i => map (cons i) (indices rest)) (seq 0 n)
  end.

(** The number of entries of an array of a given shape. *)
Definition size_of (shp : list nat) : nat := fold_right Nat.mul 1 shp.

(** The position of a multi-index in the row-major order of a shape. *)
Fixpoint ravel_index (shp idx : list nat) : nat :=
  match shp, idx with
  | _ :: rest, i :: idx' => i * size_of rest + ravel_index rest idx'
  | _, _ => 0
  end.

(** The row that takes entry [i_j] of axis [j]. *)
Fixpoint pick (axes : list (list Q)) (idx : list nat) : list Q :=
  match axes, idx with
  | a :: axes', i :: idx' => nth i a 0%Q :: pick axes' idx'
  | _, _ => []
  end.

(** Modelled from the spec: [generalized_additive_models.utils.cartesian],
    whose source is not part of this module.  The full cartesian product of
    the axes, one row per combination, in lexicographic order over the axes
    with the last axis varying fastest. *)
Fixpoint cartesian_rows (axes : list (list Q)) : list (list Q) :=
  match axes with
  | [] => [[]]
  | a :: rest => flat_map (fun v => map (cons v) (cartesian_rows rest)) a
  end.

Definition cartesian (axes : list (list Q)) : matrix :=
  mkMatrix (length axes) (cartesian_rows axes).

(** [np.meshgrid] of the axes with [indexing="ij"]: one array per axis, all of shape
    [(len(axes[0]), ..., len(axes[k-1]))]; array [j] holds [axes[j][i_j]] at
    the multi-index [(i_0, ..., i_{k-1})]. *)
Definition meshgrid_ij (axes : list (list Q)) : list ndarray :=
  let shp := map (@length Q) axes in
  map (fun j =>
         mkNdarray shp
           (map (fun idx => nth (nth j idx 0) (nth j axes []) 0%Q) (indices shp)))
      (seq 0 (length axes)).

(** [np.squeeze(M)]: the axes of length one are dropped. *)
Definition squeeze (M : matrix) : ndarray :=
  mkNdarray (filter (fun n => negb (n =? 1)) [nrows M; ncols M]) (ravel M).

(** ** Terms, models and Python values *)

(** The classes of [generalized_additive_models.terms]; [OtherTerm] stands
    for any further subclass of [Term]. *)
Inductive term_kind : Type :=
| Intercept | Linear | Spline | Categorical | Tensor | OtherTerm.

(** The state of a term object.  [feature] is the parameter changed by
    [set_params(feature=...)], [feature_] the bookkeeping that
    [transform] updates, [fitted] whether the fitted attributes exist, and
    [splines] the sub-terms a [Tensor] iterates over. *)
#[warnings="-register-all"] Inductive Term : Type := mkTerm {
  kind : term_kind;
  feature : nat;
  feature_ : option nat;
  fitted : bool;
  coef_ : list Q;
  coef_idx_ : list nat;
  categories_ : list Q;
  splines : list Term
}.

(** Locations of heap objects. *)
Abbreviation loc := nat.

(** [gam._link] *)
Record Link : Type := mkLink {
  link : npfloat -> npfloat;
  inverse_link : npfloat -> npfloat;
  domain : npfloat * npfloat
}.

(** A [GAM] object: its terms are references to term objects. *)
Record GAM : Type := mkGAM {
  gam_terms : list loc;
  gam_fitted : bool;
  gam_X_ : matrix;
  gam_y_ : list Q;
  gam_coef_ : list Q;
  gam_model_matrix_ : matrix;
  gam_covariance : matrix;
  gam_link : Link;
  gam_predict : matrix -> result (list npfloat)
}.

Inductive pyobj : Type :=
| PyNone
| PyBool (b : bool)
| PyInt (z : Z)
| PyFloat (v : npfloat)
| PyStr (s : string)
| PyTermRef (l : loc)
| PyGAM (g : GAM).

(** The heap of term objects. *)
Abbreviation heap := (gmap nat Term).

(** What [generate_X_grid] returns: an array, the pair of a cartesian grid
    and a meshgrid, or [None] when no branch returns. *)
Inductive grid_value : Type :=
| GridArray (X_smooth : matrix)
| GridTensor (grid : matrix) (mesh : list ndarray)
| GridNone.

(** [g.ravel()]: only arrays have the method. *)
Definition grid_ravel (g : grid_value) : result (list Q) :=
  match g with
  | GridArray M => Ok (ravel M)
  | GridTensor _ _ | GridNone => Raise AttributeError
  end.

(** The methods and functions this module calls but does not define. *)
Class Collaborators : Type := {
  (** [np.sqrt] *)
  np_sqrt : Q -> npfloat;
  (** [term.transform(X)] on whatever [generate_X_grid] returned or on a
      data matrix: the design matrix or an exception, and the state of the
      term after the call *)
  transform : Term -> grid_value -> result matrix * Term;
  (** [term._get_column(X, selector="feature")] *)
  _get_column : Term -> matrix -> result (list Q);
  (** [Term.__eq__] *)
  term_eq : Term -> Term -> bool
}.

(** ** Validation helpers *)

Definition isinstance_GAM (gam : pyobj) : result GAM :=
  match gam with
  | PyGAM g => Ok g
  | _ => Raise (TypeError "Parameter `gam` must be instance of GAM")
  end.

(** [check_is_fitted(gam, attributes=["coef_"])] *)
Definition check_is_fitted_gam (g : GAM) : result unit :=
  if gam_fitted g then Ok tt else Raise NotFittedError.

(** [check_is_fitted(term)] *)
Definition check_is_fitted (t : Term) : result unit :=
  if fitted t then Ok tt else Raise NotFittedError.

(** [isinstance(x, Real)]: floats, integers and booleans, with their value. *)
Definition is_real (o : pyobj) : option npfloat :=
  match o with
  | PyFloat v => Some v
  | PyInt z => Some (Fin (inject_Z z))
  | PyBool b => Some (Fin (if b then 1 else 0))
  | _ => None
  end.

(** [check_scalar(x, name, target_type=Real, min_val=min_val,
    include_boundaries="neither")]: a type check, then [x <= min_val] is
    refused.  There is no upper bound and no test of finiteness. *)
Definition check_scalar (x : pyobj) (min_val : Q) : result npfloat :=
  match is_real x with
  | None => Raise (TypeError "standard_deviations must be an instance of float")
  | Some v =>
      if fle v (Fin min_val)
      then Raise (ValueError "standard_deviations must be > 0")
      else Ok v
  end.

(** ** Grid generation *)

Section Model.
Context {collaborators : Collaborators}.

(** [generate_X_grid(gam, term, X, extrapolation=..., num=...)] on a term
    object (lines 26 to 52).  The test of line 29 is passed by every term
    object; [generate_X_grid_call] decides it for arbitrary arguments. *)
Fixpoint generate_X_grid (gam : pyobj) (term : Term) (X : matrix)
    (extrapolation : Q) (num : Z) {struct term} : result grid_value :=
  let? g := isinstance_GAM gam in
  let? _ := check_is_fitted_gam g in
  let? _ := check_is_fitted term in
  match kind term with
  | Intercept => Ok (GridArray (mkMatrix 1 [[1%Q]]))
  | Linear | Spline =>
      let? X_data := _get_column term X in
      let? min_ := np_min X_data in
      let? max_ := np_max X_data in
      let offset := ((max_ - min_) * extrapolation)%Q in
      let? grid := linspace (min_ - offset) (max_ + offset) num in
      Ok (GridArray (reshape_column grid))
  | Categorical => Ok (GridArray (reshape_column (categories_ term)))
  | Tensor =>
      let? linspaces :=
        sequence
          (map (fun spline =>
                  let? grid := generate_X_grid gam spline X extrapolation num in
                  grid_ravel grid)
               (splines term)) in
      Ok (GridTensor (cartesian linspaces) (meshgrid_ij linspaces))
  | OtherTerm => Ok GridNone
  end.

(** [isinstance(term, Term)] for an argument of any type *)
Definition isinstance_Term (h : heap) (term : pyobj) : result (loc * Term) :=
  match term with
  | PyTermRef l =>
      match h !! l with
      | Some t => Ok (l, t)
      | None => Raise (TypeError "Parameter `term` must be instance of Term")
      end
  | _ => Raise (TypeError "Parameter `term` must be instance of Term")
  end.

Definition generate_X_grid_call (h : heap) (gam term : pyobj) (X : matrix)
    (extrapolation : Q) (num : Z) : result grid_value :=
  let? _ := isinstance_GAM gam in
  let? lt := isinstance_Term h term in
  generate_X_grid gam (snd lt) X extrapolation num.

End Model.

(** ** Method calls on heap objects *)

(** A computation reads and writes the heap and returns or raises; an
    exception keeps the writes made before it. *)
Definition M (A : Type) : Type := heap -> result A * heap.

Definition ret {A} (a : A) : M A := fun h => (Ok a, h).

Definition lift {A} (r : result A) : M A := fun h => (r, h).

Definition read {A} (f : heap -> result A) : M A := fun h => (f h, h).

Definition bind {A B} (m : M A) (k : A -> M B) : M B :=
  fun h =>
    match m h with
    | (Ok a, h') => k a h'
    | (Raise e, h') => (Raise e, h')
    end.

Notation "'let!' x ':=' e 'in' k" := (bind e (fun x => k))
  (at level 10, x pattern, e at level 100, k at level 200) : py_scope.

Definition not_a_term : exn := TypeError "Parameter `term` must be instance of Term".

Definition deref (l : loc) : M Term :=
  fun h =>
    match h !! l with
    | Some t => (Ok t, h)
    | None => (Raise not_a_term, h)
    end.

(** [copy.deepcopy(term)]: a new object with the state of the old one,
    sub-terms included. *)
Definition deepcopy (l : loc) : M loc :=
  fun h =>
    match h !! l with
    | Some t => let l' := fresh (dom h) in (Ok l', <[l' := t]> h)
    | None => (Raise not_a_term, h)
    end.

Definition set_feature (t : Term) (v : nat) : Term :=
  mkTerm (kind t) v (feature_ t) (fitted t) (coef_ t) (coef_idx_ t)
         (categories_ t) (splines t).

(** [for i, spline in enumerate(term): spline.set_params(feature=i)] *)
Definition relabel_splines (t : Term) : Term :=
  mkTerm (kind t) (feature t) (feature_ t) (fitted t) (coef_ t) (coef_idx_ t)
         (categories_ t)
         (map (fun p => set_feature (snd p) (fst p))
              (combine (seq 0 (length (splines t))) (splines t))).

(** [term.set_params(feature=v)] *)
Definition set_params_feature (l : loc) (v : nat) : M unit :=
  fun h =>
    match h !! l with
    | Some t => (Ok tt, <[l := set_feature t v]> h)
    | None => (Raise not_a_term, h)
    end.

Definition set_params_splines (l : loc) : M unit :=
  fun h =>
    match h !! l with
    | Some t => (Ok tt, <[l := relabel_splines t]> h)
    | None => (Raise not_a_term, h)
    end.

(** ** Elementwise operations with broadcasting, [np.allclose] *)

(** [f(a, b)] for one-dimensional arrays of equal length, or one of them of
    length one. *)
Definition broadcast2 (f : npfloat -> npfloat -> npfloat) (a b : list npfloat)
  : result (list npfloat) :=
  if length a =? length b then Ok (map (fun p => f (fst p) (snd p)) (combine a b))
  else if length a =? 1 then Ok (map (f (hd NaN a)) b)
  else if length b =? 1 then Ok (map (fun v => f v (hd NaN b)) a)
  else Raise (ValueError "operands could not be broadcast together").

Definition rtol : Q := 1 # 100000.
Definition atol : Q := 1 # 100000000.

(** [np.isclose(a, b)] with the default tolerances *)
Definition isclose (a b : npfloat) : bool :=
  match a, b with
  | Fin u, Fin v => Qle_bool (Qabs (u - v)) (atol + rtol * Qabs v)
  | PosInf, PosInf | NegInf, NegInf => true
  | _, _ => false
  end.

Definition allclose (a b : list npfloat) : bool :=
  forallb (fun p => isclose (fst p) (snd p)) (combine a b).

(** [np.finfo(float).eps] *)
Definition machine_eps : Q := 1 # (2 ^ 52).

(** ** The result bundle of [partial_effect] *)

(** The partial residuals are an array, or (line 179) a tuple of one array. *)
Inductive residuals_value : Type :=
| ResidualArray (a : list npfloat)
| ResidualTuple (a : list npfloat).

Module Bunch.
Record t : Type := mk {
  x : grid_value;
  y : list npfloat;
  y_low : list npfloat;
  y_high : list npfloat;
  x_obs : list Q;
  y_partial_residuals : residuals_value;
  meshgrid : option (list ndarray)
}.
End Bunch.

Section PartialEffect.
Context {collaborators : Collaborators}.

(** [term.transform(X)] on the object at [l] *)
Definition call_transform (l : loc) (X : grid_value) : M matrix :=
  fun h =>
    match h !! l with
    | Some t => let (r, t') := transform t X in (r, <[l := t']> h)
    | None => (Raise not_a_term, h)
    end.

(** [isinstance(term, (Spline, Linear))] *)
Definition isinstance_Spline_or_Linear (h : heap) (term : pyobj)
  : result (loc * Term) :=
  let e := TypeError "Parameter `term` must be instance of Spline or Linear" in
  match term with
  | PyTermRef l =>
      match h !! l with
      | Some t =>
          match kind t with
          | Spline | Linear => Ok (l, t)
          | _ => Raise e
          end
      | None => Raise e
      end
  | _ => Raise e
  end.

(** [term in gam.terms]: some member is the object itself or equal to it. *)
Definition term_in_terms (h : heap) (l : loc) (t : Term) (ls : list loc) : bool :=
  existsb (fun l' => (l' =? l)
                     || match h !! l' with
                        | Some t' => term_eq t' t
                        | None => false
                        end) ls.

Definition check_membership (h : heap) (l : loc) (t : Term) (g : GAM) : result unit :=
  if term_in_terms h l t (gam_terms g) then Ok tt
  else Raise (ValueError "Term not found in model").

(** [X_smooth, meshgrid = generate_X_grid(...)] *)
Definition unpack_pair (g : grid_value) : result (grid_value * option (list ndarray)) :=
  match g with
  | GridTensor grid mesh => Ok (GridArray grid, Some mesh)
  | GridArray _ => Raise (ValueError "too many values to unpack")
  | GridNone => Raise (TypeError "cannot unpack non-iterable NoneType object")
  end.

(** Lines 131 to 138 and 291 to 298: the grid of the copied term, and the
    relabelling of its active feature. *)
Definition smooth_grid (gam : pyobj) (g : GAM) (term : loc) (num : Z)
  : M (grid_value * option (list ndarray)) :=
  let! t := deref term in
  match kind t with
  | Tensor =>
      let! p := lift (let? gv := generate_X_grid gam t (gam_X_ g) (1 # 100) num in
                      unpack_pair gv) in
      let! _ := set_params_splines term in
      ret p
  | _ =>
      let! X_smooth := lift (generate_X_grid gam t (gam_X_ g) (1 # 100) num) in
      let! _ := set_params_feature term 0 in
      ret (X_smooth, None)
  end.

(** Lines 154 to 156 and 314 to 316: the standard errors and the two
    assertions. *)
Definition standard_errors (X V : matrix) : result (list npfloat) :=
  let? variance := fast_variance X V in
  let stdev_array := map np_sqrt variance in
  if negb (forallb (fun s => flt (Fin 0) s) stdev_array) then Raise AssertionError
  else
    let? explicit := explicit_variance X V in
    if negb (allclose (map (fun s => fmul s s) stdev_array) (map Fin explicit))
    then Raise AssertionError
    else Ok stdev_array.

(** Lines 103 to 121. *)
Definition partial_effect_validation (h : heap) (gam term standard_deviations : pyobj)
  : result (GAM * loc * npfloat) :=
  let? g := isinstance_GAM gam in
  let? lt := isinstance_Spline_or_Linear h term in
  let? _ := check_is_fitted_gam g in
  let? _ := check_is_fitted (snd lt) in
  let? _ := check_membership h (fst lt) (snd lt) g in
  let? sd := check_scalar standard_deviations 0 in
  Ok (g, fst lt, sd).

(** Lines 126 to 181. *)
Definition partial_effect_logic (gam : pyobj) (g : GAM) (caller_term : loc)
    (standard_deviations : npfloat) (linear_scale : bool) : M Bunch.t :=
  let! term := deepcopy caller_term in
  let! t := deref term in
  let! data := lift (_get_column t (gam_X_ g)) in
  let! X_original_transformed := call_transform term (GridArray (gam_X_ g)) in
  let! grid := smooth_grid gam g term 100 in
  let X_smooth := fst grid in
  let meshgrid := snd grid in
  let! X := call_transform term X_smooth in
  let! t := deref term in
  let! linear_predictions := lift (matvec X (coef_ t)) in
  let predictions := map Fin linear_predictions in
  let! V := lift (ix_submatrix (gam_covariance g) (coef_idx_ t)) in
  let! stdev_array := lift (standard_errors X V) in
  let inv := map (inverse_link (gam_link g)) in
  let! eta := lift (matvec (gam_model_matrix_ g) (gam_coef_ g)) in
  let! residuals := lift (broadcast2 fsub (map Fin (gam_y_ g)) (inv (map Fin eta))) in
  let half_width := map (fmul standard_deviations) stdev_array in
  let! y_low := lift (broadcast2 fsub predictions half_width) in
  let! y_high := lift (broadcast2 fadd predictions half_width) in
  let! own := lift (matvec X_original_transformed (coef_ t)) in
  let! y_partial_residuals := lift (broadcast2 fadd (map Fin own) residuals) in
  if negb linear_scale then
    let model_predictions := inv (map Fin own) in
    let! shifted := lift (broadcast2 fadd model_predictions residuals) in
    ret (Bunch.mk X_smooth (inv predictions) (inv y_low) (inv y_high) data
                  (ResidualTuple shifted) meshgrid)
  else
    ret (Bunch.mk X_smooth predictions y_low y_high data
                  (ResidualArray y_partial_residuals) meshgrid).

(** [partial_effect(gam, term, standard_deviations, edges, linear_scale)] *)
Definition partial_effect (gam term standard_deviations edges : pyobj)
    (linear_scale : bool) : M Bunch.t :=
  let! v := read (fun h => partial_effect_validation h gam term standard_deviations) in
  let '(g, caller_term, sd) := v in
  partial_effect_logic gam g caller_term sd linear_scale.

End PartialEffect.

(** ** [PartialEffectDisplay] *)

(** The [transformation] argument of [from_estimator]: [True], [None] or
    [False], or a function of the caller. *)
Inductive transformation_arg : Type :=
| TransformationTrue
| TransformationNoneOrFalse
| TransformationCallable (f : list npfloat -> list npfloat).

Module PartialEffectDisplay.

(** The attributes set by [__init__]; [x] is [None] when [np.squeeze] was
    given [None]. *)
Record t : Type := mk {
  x : option ndarray;
  y : list npfloat;
  y_low : list npfloat;
  y_high : list npfloat;
  x_obs : list Q;
  y_partial_residuals : option (list npfloat)
}.

Section FromEstimator.
Context {collaborators : Collaborators}.

(** Lines 263 to 281. *)
Definition from_estimator_validation (h : heap) (gam term standard_deviations : pyobj)
  : result (GAM * loc * npfloat) :=
  let? g := isinstance_GAM gam in
  let? lt := isinstance_Term h term in
  let? _ := check_is_fitted_gam g in
  let? _ := check_is_fitted (snd lt) in
  let? _ := check_membership h (fst lt) (snd lt) g in
  let? sd := check_scalar standard_deviations 0 in
  Ok (g, fst lt, sd).

(** Lines 320 to 325. *)
Definition select_transformation (g : GAM) (transformation : transformation_arg)
  : list npfloat -> list npfloat :=
  match transformation with
  | TransformationTrue => map (inverse_link (gam_link g))
  | TransformationNoneOrFalse => fun v => v
  | TransformationCallable f => f
  end.

(** Line 333: [np.minimum(np.maximum(y, low + epsilon), high - epsilon)] *)
Definition clamp_to_domain (g : GAM) (y : list Q) : list npfloat :=
  let epsilon := np_sqrt machine_eps in
  let low := fst (domain (gam_link g)) in
  let high := snd (domain (gam_link g)) in
  map (fun v => fminimum (fmaximum (Fin v) (fadd low epsilon)) (fsub high epsilon)) y.

Definition squeeze_grid (X_smooth : grid_value) : option ndarray :=
  match X_smooth with
  | GridArray M => Some (squeeze M)
  | GridTensor M _ => Some (squeeze M)
  | GridNone => None
  end.

(** Lines 286 to 347.  The display returned by [viz.plot] is [viz] itself;
    drawing is not modelled, so [rug], [ax] and [line_kwargs] do not
    appear. *)
Definition from_estimator_logic (gam : pyobj) (g : GAM) (caller_term : loc)
    (X : matrix) (y : list Q) (standard_deviations : npfloat)
    (transformation : transformation_arg) (residuals : bool) : M t :=
  let! term := deepcopy caller_term in
  let! X_transformed := call_transform term (GridArray X) in
  let! t := deref term in
  let! x_obs := lift (_get_column t X) in
  let! grid := smooth_grid gam g term (2 ^ 8) in
  let X_smooth := fst grid in
  let! X_smooth_transformed := call_transform term X_smooth in
  let! X_smooth_transformed := call_transform term X_smooth in
  let! t := deref term in
  let! linear_predictions := lift (matvec X_smooth_transformed (coef_ t)) in
  let predictions := map Fin linear_predictions in
  let! V := lift (ix_submatrix (gam_covariance g) (coef_idx_ t)) in
  let! stdev_array := lift (standard_errors X_smooth_transformed V) in
  let transformation := select_transformation g transformation in
  let y_noboundary := clamp_to_domain g y in
  let! predicted := lift (gam_predict g X) in
  let! res := lift (broadcast2 fsub (map (link (gam_link g)) y_noboundary)
                                     (map (link (gam_link g)) predicted)) in
  let! own := lift (matvec X_transformed (coef_ t)) in
  let! on_link_scale := lift (broadcast2 fadd (map Fin own) res) in
  let y_partial_residuals := transformation on_link_scale in
  let half_width := map (fmul standard_deviations) stdev_array in
  let! low := lift (broadcast2 fsub predictions half_width) in
  let! high := lift (broadcast2 fadd predictions half_width) in
  ret (mk (squeeze_grid X_smooth)
          (transformation predictions)
          (transformation low)
          (transformation high)
          x_obs
          (if residuals then Some y_partial_residuals else None)).

(** [PartialEffectDisplay.from_estimator(gam, term, X, y,
    standard_deviations=..., edges=..., transformation=...,
    residuals=...)] *)
Definition from_estimator (gam term : pyobj) (X : matrix) (y : list Q)
    (standard_deviations edges : pyobj) (transformation : transformation_arg)
    (residuals : bool) : M t :=
  let! v := read (fun h => from_estimator_validation h gam term standard_deviations) in
  let '(g, caller_term, sd) := v in
  from_estimator_logic gam g caller_term X y sd transformation residuals.

End FromEstimator.
End PartialEffectDisplay.

(** ** A concrete set of collaborators and a fitted model, for the examples *)

(** A rational approximation of the square root, exact on the squares of
    dyadic numbers; [nan] below zero. *)
Definition sqrt_approx (q : Q) : npfloat :=
  if Qle_bool 0 q
  then Fin (Z.sqrt (Qnum q * Zpos (Qden q) * 4 ^ 26) # (Qden q * 2 ^ 26))
  else NaN.

Definition note_feature (t : Term) : Term :=
  mkTerm (kind t) (feature t) (Some (feature t)) (fitted t) (coef_ t)
         (coef_idx_ t) (categories_ t) (splines t).

(** An intercept is a column of ones, a linear term its feature column, a
    spline the basis [v, v * v] of its feature, a categorical term the
    indicators of its levels; other terms and other arguments are refused. *)
Definition example_transform (t : Term) (X : grid_value) : result matrix * Term :=
  match X with
  | GridArray M =>
      if feature t <? ncols M then
        let col := column M (feature t) in
        match kind t with
        | Intercept => (Ok (mkMatrix 1 (map (fun _ => [1%Q]) col)), note_feature t)
        | Linear => (Ok (reshape_column col), note_feature t)
        | Spline => (Ok (mkMatrix 2 (map (fun v => [v; (v * v)%Q]) col)), note_feature t)
        | Categorical =>
            (Ok (mkMatrix (length (categories_ t))
                   (map (fun v => map (fun c => if Qeq_bool v c then 1%Q else 0%Q)
                                      (categories_ t)) col)),
             note_feature t)
        | _ => (Raise (TypeError "unsupported term"), t)
        end
      else (Raise IndexError, t)
  | _ => (Raise (TypeError "expected an array"), t)
  end.

Definition example_get_column (t : Term) (X : matrix) : result (list Q) :=
  if feature t <? ncols X then Ok (column X (feature t)) else Raise IndexError.

Definition kind_code (k : term_kind) : nat :=
  match k with
  | Intercept => 0 | Linear => 1 | Spline => 2
  | Categorical => 3 | Tensor => 4 | OtherTerm => 5
  end.

Definition example_term_eq (a b : Term) : bool :=
  (kind_code (kind a) =? kind_code (kind b)) && (feature a =? feature b).

#[local] Instance example_collaborators : Collaborators := {
  np_sqrt := sqrt_approx;
  transform := example_transform;
  _get_column := example_get_column;
  term_eq := example_term_eq
}.

Definition identity_link : Link := mkLink (fun v => v) (fun v => v) (NegInf, PosInf).

Definition example_term (k : term_kind) : Term :=
  mkTerm k 0 None true [2%Q] [0] [1%Q; 2%Q; 3%Q] [].

Definition example_X : matrix := mkMatrix 1 [[1%Q]; [2%Q]; [3%Q]].

Definition example_gam_with (lk : Link) : GAM :=
  mkGAM [0] true example_X [2%Q; 4%Q; 7%Q] [2%Q] example_X
        (mkMatrix 1 [[1 # 4]]) lk
        (fun M => let? eta := matvec M [2%Q] in Ok (map (inverse_link lk) (map Fin eta))).

Definition example_gam : GAM := example_gam_with identity_link.

(** The caller's term is the object at location [0]. *)
Definition example_heap (k : term_kind) : heap := {[ 0 := example_term k ]}.

Definition example_spline (j : nat) : Term :=
  mkTerm Spline j None true [1%Q; 1%Q] [0; 1] [] [].

(** A tensor of the splines of features [0] and [1]. *)
Definition example_tensor : Term :=
  mkTerm Tensor 0 None true [1%Q] [0] [] [example_spline 0; example_spline 1].

Definition example_X2 : matrix :=
  mkMatrix 2 [[1%Q; 10%Q]; [2%Q; 20%Q]; [3%Q; 40%Q]].

(** The link [mu -> 1 / mu] on the domain [(0, inf)]. *)
Definition frecip (v : npfloat) : npfloat :=
  match v with
  | Fin q => if Qeq_bool q 0 then PosInf else Fin (/ q)
  | PosInf | NegInf => Fin 0
  | NaN => NaN
  end.

Definition reciprocal_link : Link := mkLink frecip frecip (Fin 0, PosInf).

(** A model of an intercept and a linear term: the linear predictor is
    [1 + 2 * v], the response its reciprocal. *)
Definition example_linear2 : Term := mkTerm Linear 0 None true [2%Q] [1] [] [].

Definition example_intercept : Term := mkTerm Intercept 0 None true [1%Q] [0] [] [].

Definition example_heap2 : heap := {[ 0 := example_linear2; 1 := example_intercept ]}.

Definition example_gam2 : GAM :=
  mkGAM [1; 0] true example_X [1 # 2; 1 # 4; 1 # 8] [1%Q; 2%Q]
        (mkMatrix 2 [[1%Q; 1%Q]; [1%Q; 2%Q]; [1%Q; 3%Q]])
        (mkMatrix 2 [[1 # 4; 0%Q]; [0%Q; 1 # 4]]) reciprocal_link
        (fun M => let? own := matvec M [2%Q] in
                  Ok (map (fun v => frecip (Fin (1 + v))) own)).

(** ** Predicates of the statements *)

(** The invalid-argument conditions. *)
Definition invalid_argument (e : exn) : Prop :=
  match e with
  | TypeError _ | ValueError _ | NotFittedError => True
  | _ => False
  end.

(** A strictly positive finite real. *)
Definition strictly_positive_finite (o : pyobj) : Prop :=
  exists q, is_real o = Some (Fin q) /\ (0 < q)%Q.

(** A strictly positive real, [inf] included. *)
Definition strictly_positive (o : pyobj) : Prop :=
  exists v, is_real o = Some v /\ flt (Fin 0) v = true.

(** What [check_scalar] refuses: no real number, or a real [<= 0]. *)
Definition refused_scalar (o : pyobj) : Prop :=
  is_real o = None \/ exists v, is_real o = Some v /\ fle v (Fin 0) = true.

Definition monotone (f : npfloat -> npfloat) : Prop :=
  forall a b, fle a b = true -> fle (f a) (f b) = true.

(** [low <= mid <= high], row by row. *)
Definition ordered_bounds (low mid high : list npfloat) : Prop :=
  Forall2 (fun a b => fle a b = true) low mid /\
  Forall2 (fun a b => fle a b = true) mid high.

(** The results of [partial_effect] are on a scale that keeps the order:
    the linear scale, or the response scale of a non-decreasing inverse
    link. *)
Definition order_preserving_scale (gam : pyobj) (linear_scale : bool) : Prop :=
  linear_scale = true \/
  forall g, gam = PyGAM g -> monotone (inverse_link (gam_link g)).

(** The transformation of [from_estimator] keeps the order: the identity,
    a non-decreasing inverse link, or a non-decreasing function of the
    caller applied entry by entry. *)
Definition order_preserving_transformation (gam : pyobj)
    (transformation : transformation_arg) : Prop :=
  match transformation with
  | TransformationTrue =>
      forall g, gam = PyGAM g -> monotone (inverse_link (gam_link g))
  | TransformationNoneOrFalse => True
  | TransformationCallable f => exists f0, monotone f0 /\ forall v, f v = map f0 v
  end.

(** Every term of the model is an object of the heap. *)
Definition terms_allocated (h : heap) (gam : pyobj) : Prop :=
  forall g, gam = PyGAM g -> Forall (fun l => is_Some (h !! l)) (gam_terms g).

(** A computation on the object at [l] that reads and writes nothing else:
    its result and the final state of the object depend on the state of the
    object only, and the rest of the heap is kept. *)
Definition local {A} (m : loc -> M A) : Prop :=
  forall (l1 l2 : loc) (h1 h2 : heap),
    h1 !! l1 = h2 !! l2 ->
    fst (m l1 h1) = fst (m l2 h2) /\
    snd (m l1 h1) !! l1 = snd (m l2 h2) !! l2 /\
    (forall k, k <> l1 -> snd (m l1 h1) !! k = h1 !! k).

(** ** Further examples *)

(** A tensor of a categorical term on feature [0] and a spline on feature
    [1]. *)
Definition example_mixed_tensor : Term :=
  mkTerm Tensor 0 None true [1%Q] [0] []
         [mkTerm Categorical 0 None true [1%Q; 1%Q; 1%Q] [0; 1; 2]
                 [1%Q; 2%Q; 3%Q] [];
          example_spline 1].

(** A tensor that holds a tensor. *)
Definition example_nested_tensor : Term :=
  mkTerm Tensor 0 None true [1%Q] [0] [] [example_spline 0; example_tensor].

(** ** Predicates of the further properties *)


Definition finite (v : npfloat) : Prop := exists q, v = Fin q.

(** Two runs end in the same heap, and both return, with results related by
    [P], or both raise the same exception. *)
Definition outcomes_agree {A} (P : A -> A -> Prop) (r1 r2 : result A * heap) : Prop :=
  snd r1 = snd r2 /\
  match fst r1, fst r2 with
  | Ok a1, Ok a2 => P a1 a2
  | Raise e1, Raise e2 => e1 = e2
  | _, _ => False
  end.

(** Two bundles that differ in [y_low] and [y_high] at most. *)
Definition same_but_interval (b1 b2 : Bunch.t) : Prop :=
  Bunch.x b1 = Bunch.x b2 /\ Bunch.y b1 = Bunch.y b2 /\
  Bunch.x_obs b1 = Bunch.x_obs b2 /\
  Bunch.y_partial_residuals b1 = Bunch.y_partial_residuals b2 /\
  Bunch.meshgrid b1 = Bunch.meshgrid b2.

(** Two displays that differ in [y_low] and [y_high] at most. *)
Definition same_display_but_interval (d1 d2 : PartialEffectDisplay.t) : Prop :=
  PartialEffectDisplay.x d1 = PartialEffectDisplay.x d2 /\
  PartialEffectDisplay.y d1 = PartialEffectDisplay.y d2 /\
  PartialEffectDisplay.x_obs d1 = PartialEffectDisplay.x_obs d2 /\
  PartialEffectDisplay.y_partial_residuals d1
  = PartialEffectDisplay.y_partial_residuals d2.

(** Two displays that differ in [y_partial_residuals] at most. *)
Definition same_display_but_residuals (d1 d2 : PartialEffectDisplay.t) : Prop :=
  PartialEffectDisplay.x d1 = PartialEffectDisplay.x d2 /\
  PartialEffectDisplay.y d1 = PartialEffectDisplay.y d2 /\
  PartialEffectDisplay.y_low d1 = PartialEffectDisplay.y_low d2 /\
  PartialEffectDisplay.y_high d1 = PartialEffectDisplay.y_high d2 /\
  PartialEffectDisplay.x_obs d1 = PartialEffectDisplay.x_obs d2.

(** [transform] keeps the class of the term it is called on. *)
Definition kind_preserving `{Collaborators} : Prop :=
  forall t X, kind (snd (transform t X)) = kind t.



(** The square root of a number that is not positive is not positive: it is
    zero at zero and not a number below. *)
Definition sqrt_not_positive `{Collaborators} : Prop :=
  forall q, (q <= 0)%Q -> flt (Fin 0) (np_sqrt q) = false.

(** No term of the model is the object at [l] or equal to its state [t]. *)
Definition not_in_model `{Collaborators} (h : heap) (l : loc) (t : Term) (g : GAM)
  : Prop :=
  Forall (fun l' => l' <> l /\ forall t', h !! l' = Some t' -> term_eq t' t = false)
         (gam_terms g).

(** The term of the example model at [0] and a spline outside the model
    at [1]. *)
Definition example_heap_outsider : heap :=
  {[ 0 := example_term Linear; 1 := example_term Spline ]}.

(** ** Drawing: [PartialEffectDisplay.__init__] and [PartialEffectDisplay.plot]

    The drawing step that [PartialEffectDisplay.from_estimator_logic] leaves
    out.  An axes object of matplotlib is the record of the calls made on
    it; whether matplotlib accepts a call, how many lines [ax.plot] returns
    and the limits of the axes are parameters of the development. *)

Module Drawing.

(** Values of keyword arguments. *)
Inductive kwval : Type :=
| KwStr (s : string)
| KwFloat (q : Q)
| KwInt (z : Z).

(** A [dict] with string keys, in insertion order. *)
Definition kwargs : Type := list (string * kwval).

Definition dict_get (d : kwargs) (k : string) : option kwval :=
  match List.find (fun p => String.eqb (fst p) k) d with
  | Some p => Some (snd p)
  | None => None
  end.

Definition dict_has (d : kwargs) (k : string) : bool :=
  existsb (fun p => String.eqb (fst p) k) d.

(** [d[k] = v]: the value of a present key is replaced in place, a new key
    is added at the end. *)
Definition dict_set (d : kwargs) (k : string) (v : kwval) : kwargs :=
  if dict_has d k
  then map (fun p => if String.eqb (fst p) k then (k, v) else p) d
  else d ++ [(k, v)].

(** [{**a, **b}] *)
Definition dict_merge (a b : kwargs) : kwargs :=
  fold_left (fun d p => dict_set d (fst p) (snd p)) b a.

(** [f(..., k1=v1, ..., **star)]: a key of [star] that is also given
    explicitly is a [TypeError], raised before [f] is entered. *)
Definition call_kwargs (explicit star : kwargs) : result kwargs :=
  if existsb (fun p => dict_has star (fst p)) explicit
  then Raise (TypeError "got multiple values for keyword argument")
  else Ok (explicit ++ star).

(** The second argument of a [scatter]: an array, or a number when
    [np.ones_like] was given [None]. *)
Inductive heights : Type :=
| Heights (a : list npfloat)
| Height (v : npfloat).

(** The calls made on an axes object. *)
Inductive call : Type :=
| CallPlot (x : option ndarray) (y : list npfloat) (kw : kwargs)
| CallFillBetween (x : option ndarray) (y1 y2 : list npfloat) (kw : kwargs)
| CallScatter (x : option (list Q)) (y : heights) (kw : kwargs).

Record axes : Type := mkAxes {
  ax_id : nat;
  figure : nat;
  calls : list call
}.

(** The artist made by call number [made_by] on the axes [on_axes]. *)
Record artist : Type := mkArtist {
  on_axes : nat;
  made_by : nat
}.

Class Matplotlib := {
  (** the axes of [plt.subplots()] *)
  plt_subplots : axes;
  (** the exception matplotlib raises on a call, if any *)
  refuses : axes -> call -> option exn;
  (** the number of lines [ax.plot] returns *)
  lines_returned : axes -> call -> nat;
  (** [ax.get_ylim()] *)
  get_ylim : axes -> npfloat * npfloat
}.

(** The attributes of a display: those of [__init__], and those that [plot]
    sets, [None] while they are not set. *)
Record display : Type := mkDisplay {
  x : option ndarray;
  y : list npfloat;
  y_low : option (list npfloat);
  y_high : option (list npfloat);
  x_obs : option (list Q);
  y_partial_residuals : option (list npfloat);
  line_ : option artist;
  fill_between_ : option artist;
  scatter_ : option artist;
  y_partial_residuals_ : option artist;
  ax_ : option nat;
  figure_ : option nat
}.

(** [PartialEffectDisplay(x=..., y=..., y_low=..., y_high=..., x_obs=...,
    y_partial_residuals=...)] (lines 197 to 203) *)
Definition __init__ (x : option ndarray) (y : list npfloat)
    (y_low y_high : option (list npfloat)) (x_obs : option (list Q))
    (y_partial_residuals : option (list npfloat)) : display :=
  mkDisplay x y y_low y_high x_obs y_partial_residuals None None None None None None.

(** The call [cls(...)] of lines 338 to 345, on the attributes computed by
    [PartialEffectDisplay.from_estimator_logic]. *)
Definition of_estimator (d : PartialEffectDisplay.t) : display :=
  __init__ (PartialEffectDisplay.x d) (PartialEffectDisplay.y d)
           (Some (PartialEffectDisplay.y_low d)) (Some (PartialEffectDisplay.y_high d))
           (Some (PartialEffectDisplay.x_obs d))
           (PartialEffectDisplay.y_partial_residuals d).

Definition set_line_ (self : display) (a : artist) : display :=
  mkDisplay (x self) (y self) (y_low self) (y_high self) (x_obs self)
            (y_partial_residuals self) (Some a) (fill_between_ self)
            (scatter_ self) (y_partial_residuals_ self) (ax_ self) (figure_ self).

Definition set_fill_between_ (self : display) (a : artist) : display :=
  mkDisplay (x self) (y self) (y_low self) (y_high self) (x_obs self)
            (y_partial_residuals self) (line_ self) (Some a)
            (scatter_ self) (y_partial_residuals_ self) (ax_ self) (figure_ self).

Definition set_scatter_ (self : display) (a : artist) : display :=
  mkDisplay (x self) (y self) (y_low self) (y_high self) (x_obs self)
            (y_partial_residuals self) (line_ self) (fill_between_ self)
            (Some a) (y_partial_residuals_ self) (ax_ self) (figure_ self).

Definition set_y_partial_residuals_ (self : display) (a : artist) : display :=
  mkDisplay (x self) (y self) (y_low self) (y_high self) (x_obs self)
            (y_partial_residuals self) (line_ self) (fill_between_ self)
            (scatter_ self) (Some a) (ax_ self) (figure_ self).

Definition set_axes_ (self : display) (ax : axes) : display :=
  mkDisplay (x self) (y self) (y_low self) (y_high self) (x_obs self)
            (y_partial_residuals self) (line_ self) (fill_between_ self)
            (scatter_ self) (y_partial_residuals_ self)
            (Some (ax_id ax)) (Some (figure ax)).

(** [np.ones_like(x_obs) * min_y] *)
Definition ones_like_times (x_obs : option (list Q)) (min_y : npfloat) : heights :=
  match x_obs with
  | Some a => Heights (map (fun _ => fmul (Fin 1) min_y) a)
  | None => Height (fmul (Fin 1) min_y)
  end.

Definition default_line_kwargs : kwargs :=
  [("color", KwStr "black"); ("alpha", KwFloat (7 # 10)); ("linestyle", KwStr "-")]%string.

Definition fill_between_kwargs : kwargs :=
  [("alpha", KwFloat (1 # 2)); ("zorder", KwInt 15)]%string.

Definition rug_kwargs : kwargs :=
  [("marker", KwStr "|"); ("color", KwStr "black"); ("alpha", KwFloat (7 # 10))]%string.

Definition residuals_kwargs : kwargs :=
  [("zorder", KwInt 5); ("s", KwInt 5)]%string.

Section Plot.
Context {matplotlib : Matplotlib}.

(** A computation on the display and on the axes it draws on. *)
Definition Draw (A : Type) : Type := display * axes -> result A * (display * axes).

Definition dret {A} (a : A) : Draw A := fun s => (Ok a, s).

Definition dbind {A B} (m : Draw A) (k : A -> Draw B) : Draw B :=
  fun s =>
    match m s with
    | (Ok a, s') => k a s'
    | (Raise e, s') => (Raise e, s')
    end.

Definition dlift {A} (r : result A) : Draw A := fun s => (r, s).

(** A method of the axes that draws: the call is recorded unless matplotlib
    raises. *)
Definition ax_call (c : call) : Draw artist :=
  fun s =>
    let ax := snd s in
    match refuses ax c with
    | Some e => (Raise e, s)
    | None =>
        (Ok (mkArtist (ax_id ax) (length (calls ax))),
         (fst s, mkAxes (ax_id ax) (figure ax) (calls ax ++ [c])))
    end.

(** [ax.plot(...)[0]] *)
Definition ax_plot_first (c : call) : Draw artist :=
  dbind (fun s => let n := lines_returned (snd s) c in
                  match ax_call c s with
                  | (Ok a, s') => (Ok (a, n), s')
                  | (Raise e, s') => (Raise e, s')
                  end)
        (fun an => match snd an with
                   | O => dlift (Raise IndexError)
                   | S _ => dret (fst an)
                   end).

Definition update (f : display -> display) : Draw unit :=
  fun s => (Ok tt, (f (fst s), snd s)).

Definition when (b : bool) (m : Draw unit) : Draw unit :=
  if b then m else dret tt.

(** [self.plot(ax=ax, line_kwargs=line_kwargs, rug=rug)] on the axes [ax],
    which is [plt_subplots] when the caller gave none (lines 205 to 244).
    The result is the final state of [self] and of the axes, with the
    exception raised if there is one. *)
Definition plot_on (line_kwargs : option kwargs) (rug : bool) : Draw unit :=
  let line_kwargs := match line_kwargs with Some d => d | None => [] end in
  let line_kwargs := dict_merge default_line_kwargs line_kwargs in
  dbind (dlift (call_kwargs [("zorder", KwInt 10)]%string line_kwargs)) (fun kw =>
  dbind (fun s => ax_plot_first (CallPlot (x (fst s)) (y (fst s)) kw) s) (fun line =>
  dbind (update (fun self => set_line_ self line)) (fun _ =>
  dbind (fun s =>
           match y_low (fst s), y_high (fst s) with
           | Some low, Some high =>
               dbind (ax_call (CallFillBetween (x (fst s)) low high fill_between_kwargs))
                     (fun a => update (fun self => set_fill_between_ self a)) s
           | _, _ => dret tt s
           end) (fun _ =>
  dbind (when rug
           (fun s =>
              let min_y := fst (get_ylim (snd s)) in
              dbind (ax_call (CallScatter (x_obs (fst s))
                                          (ones_like_times (x_obs (fst s)) min_y)
                                          rug_kwargs))
                    (fun a => update (fun self => set_scatter_ self a)) s)) (fun _ =>
  dbind (fun s =>
           match y_partial_residuals (fst s) with
           | Some r =>
               dbind (ax_call (CallScatter (x_obs (fst s)) (Heights r) residuals_kwargs))
                     (fun a => update (fun self => set_y_partial_residuals_ self a)) s
           | None => dret tt s
           end) (fun _ =>
  fun s => update (fun self => set_axes_ self (snd s)) s)))))).

Definition plot (self : display) (ax : option axes) (line_kwargs : option kwargs)
    (rug : bool) : result unit * (display * axes) :=
  let ax := match ax with Some a => a | None => plt_subplots end in
  plot_on line_kwargs rug (self, ax).

(** [PartialEffectDisplay.from_estimator] with its last line,
    [return viz.plot(ax=ax, line_kwargs=line_kwargs, rug=rug)]: the display
    returned, the heap, and the axes drawn on, if the call came that far. *)
Definition from_estimator_and_plot `{Collaborators} (gam term : pyobj) (X : matrix)
    (y : list Q) (standard_deviations edges : pyobj)
    (transformation : transformation_arg) (rug residuals : bool)
    (ax : option axes) (line_kwargs : option kwargs) (h : heap)
  : result display * heap * option axes :=
  match PartialEffectDisplay.from_estimator gam term X y standard_deviations edges
          transformation residuals h with
  | (Raise e, h') => (Raise e, h', ax)
  | (Ok d, h') =>
      match plot (of_estimator d) ax line_kwargs rug with
      | (Ok _, (viz, ax')) => (Ok viz, h', Some ax')
      | (Raise e, (_, ax')) => (Raise e, h', Some ax')
      end
  end.

End Plot.

(** The attributes given to [__init__] agree. *)
Definition same_data (a b : display) : Prop :=
  x a = x b /\ y a = y b /\ y_low a = y_low b /\ y_high a = y_high b /\
  x_obs a = x_obs b /\ y_partial_residuals a = y_partial_residuals b.

(** The axes a call of [plot] draws on. *)
Definition axes_used `{Matplotlib} (ax : option axes) : axes :=
  match ax with Some a => a | None => plt_subplots end.

(** What a successful call of [plot] draws after the line. *)
Definition band_of (self : display) : list call :=
  match y_low self, y_high self with
  | Some low, Some high => [CallFillBetween (x self) low high fill_between_kwargs]
  | _, _ => []
  end.

Definition rug_of (self : display) (rug : bool) (min_y : npfloat) : list call :=
  if rug
  then [CallScatter (x_obs self) (ones_like_times (x_obs self) min_y) rug_kwargs]
  else [].

Definition points_of (self : display) : list call :=
  match y_partial_residuals self with
  | Some r => [CallScatter (x_obs self) (Heights r) residuals_kwargs]
  | None => []
  end.

(** The attribute that holds the artist of [drawn], a list of at most one
    call made after the calls [before]: the attribute keeps its value [old]
    when nothing is drawn. *)
Definition artist_of (ax : axes) (before drawn : list call) (old : option artist)
  : option artist :=
  match drawn with
  | [] => old
  | _ :: _ => Some (mkArtist (ax_id ax) (length before))
  end.

End Drawing.

(** Matplotlib as a recorder that accepts every call, with one line for each
    call of [ax.plot] and fixed limits. *)
#[local] Instance example_matplotlib : Drawing.Matplotlib := {
  Drawing.plt_subplots := Drawing.mkAxes 0 0 [];
  Drawing.refuses := fun _ _ => None;
  Drawing.lines_returned := fun _ _ => 1;
  Drawing.get_ylim := fun _ => (Fin 0, Fin 1)
}.

(** A display of two points with bounds and observations, without partial
    residuals. *)
Definition example_display : Drawing.display :=
  Drawing.__init__ (Some (mkNdarray [2] [1%Q; 2%Q])) [Fin 1; Fin 2]
    (Some [Fin 0; Fin 1]) (Some [Fin 2; Fin 3]) (Some [1%Q; 2%Q]) None.

(** The bundle [b2] is the bundle [b1] with the inverse link applied to [y],
    [y_low] and [y_high]; the partial residuals are left aside. *)
Definition on_response_scale (lk : Link) (b1 b2 : Bunch.t) : Prop :=
  Bunch.x b2 = Bunch.x b1 /\ Bunch.x_obs b2 = Bunch.x_obs b1 /\
  Bunch.meshgrid b2 = Bunch.meshgrid b1 /\
  Bunch.y b2 = map (inverse_link lk) (Bunch.y b1) /\
  Bunch.y_low b2 = map (inverse_link lk) (Bunch.y_low b1) /\
  Bunch.y_high b2 = map (inverse_link lk) (Bunch.y_high b1).

(** * Theorems *)

(** ** The variance identity *)

Lemma map_nth_seq {A B} (g : A -> B) (d : A) (l : list A) :
  map g l = map (fun i => g (nth i l d)) (seq 0 (length l)).
Proof.
  induction l as [|a l IH]; simpl; [reflexivity|].
  f_equal. rewrite IH at 1. rewrite <- seq_shift, map_map. reflexivity.
Qed.

Lemma column_transpose (X : matrix) (i : nat) :
  wf_matrix X -> i < nrows X ->
  column (transpose X) i = nth i (rows X) [].
Proof.
  intros Hwf Hi. unfold column at 1, transpose; simpl.
  rewrite map_map.
  assert (Hlen : length (nth i (rows X) []) = ncols X).
  { unfold wf_matrix in Hwf. rewrite List.Forall_forall in Hwf.
    apply Hwf, nth_In. exact Hi. }
  transitivity (map (fun x : Q => x) (nth i (rows X) [])); [|apply map_id].
  rewrite (map_nth_seq (fun x => x) 0%Q (nth i (rows X) [])).
  rewrite Hlen. apply map_ext_in. intros j _.
  unfold nrows in Hi. unfold column.
  rewrite (nth_indep _ 0%Q (nth j [] 0%Q)) by (rewrite length_map; exact Hi).
  rewrite (map_nth (fun r => nth j r 0%Q)). reflexivity.
Qed.

Lemma fast_variance_rows (f : list Q -> list Q) (k : nat) (X : matrix) :
  sum_axis1 (hadamard (mkMatrix k (map f (rows X))) X)
  = map (fun r => dot (f r) r) (rows X).
Proof.
  unfold sum_axis1, hadamard; simpl. rewrite map_map.
  induction (rows X) as [|r l IH]; simpl; [reflexivity|].
  f_equal. exact IH.
Qed.

Lemma fast_variance_square (X V : matrix) :
  wf_matrix X -> ncols V = nrows V ->
  fast_variance X V = explicit_variance X V.
Proof.
  intros Hwf Hsq. unfold fast_variance, explicit_variance, matmul.
  destruct (ncols X =? nrows V) eqn:Hshape; simpl; [|reflexivity].
  apply Nat.eqb_eq in Hshape.
  replace (ncols V =? nrows (transpose X)) with true
    by (symmetry; apply Nat.eqb_eq; unfold transpose, nrows; simpl;
        rewrite length_map, length_seq; unfold nrows in *; congruence).
  simpl. f_equal. rewrite fast_variance_rows.
  unfold diag, nrows; simpl. rewrite !length_map, Nat.min_id.
  rewrite (map_nth_seq _ []). apply map_ext_in.
  intros i Hi. apply in_seq in Hi. unfold entry; simpl.
  set (g := fun r : list Q => map (fun j => dot r (column V j)) (seq 0 (ncols V))).
  set (h := fun r : list Q => map (fun j => dot r (column (transpose X) j)) (seq 0 (length (rows X)))).
  rewrite (nth_indep (map h (map g (rows X))) [] (h (g [])))
    by (rewrite !length_map; lia).
  rewrite (map_nth h), (map_nth g). unfold h.
  rewrite (nth_indep _ 0%Q ((fun j => dot (g (nth i (rows X) [])) (column (transpose X) j)) 0))
    by (rewrite length_map, length_seq; lia).
  rewrite (map_nth (fun j => dot (g (nth i (rows X) [])) (column (transpose X) j))).
  rewrite seq_nth by lia. simpl.
  rewrite column_transpose by (auto; unfold nrows; lia).
  reflexivity.
Qed.

Lemma ix_submatrix_square (M : matrix) (idx : list nat) (V : matrix) :
  ix_submatrix M idx = Ok V -> ncols V = nrows V.
Proof.
  unfold ix_submatrix. destruct (forallb _ idx); [|discriminate].
  intros [= <-]. unfold nrows; simpl. rewrite length_map. reflexivity.
Qed.

(** C1.  For a design matrix [X] (a rectangular array) and the principal
    sub-matrix [V = covariance[np.ix_(coef_idx_, coef_idx_)]], the row-wise
    sum of [(X @ V) * X] is the diagonal of [X @ V @ X.T]: the two
    computations return the same array, entry by entry and exactly (or raise
    the same exception when the shapes of [X] and [V] do not fit), hence
    within the relative tolerance [1e-8] in every row. *)
Theorem fast_variance_is_diag (X covariance : matrix) (coef_idx_ : list nat)
    (V : matrix) :
  wf_matrix X -> ix_submatrix covariance coef_idx_ = Ok V ->
  fast_variance X V = explicit_variance X V /\
  forall fast explicit,
    fast_variance X V = Ok fast -> explicit_variance X V = Ok explicit ->
    Forall2 (fun a b => (Qabs (a - b) <= (1 # 100000000) * Qabs b)%Q) fast explicit.
Proof.
  intros Hwf HV.
  assert (Heq : fast_variance X V = explicit_variance X V)
    by (apply fast_variance_square; [exact Hwf|eapply ix_submatrix_square; exact HV]).
  split; [exact Heq|].
  intros fast explicit Hfast Hexplicit.
  rewrite Heq, Hexplicit in Hfast. injection Hfast as <-.
  clear. induction explicit as [|a l IH]; constructor; [|exact IH].
  assert (E : (a - a == 0)%Q) by ring. rewrite E.
  apply Qmult_le_0_compat; [discriminate|apply Qabs_nonneg].
Qed.

Lemma fast_variance_is_diag_witness :
  ix_submatrix (mkMatrix 3 [[2; 5; 0]; [7; 9; 7]; [0; 5; 1]]%Q) [0; 2]
  = Ok (mkMatrix 2 [[2; 0]; [0; 1]]%Q) /\
  fast_variance (mkMatrix 2 [[1; 2]; [3; 4]]%Q) (mkMatrix 2 [[2; 0]; [0; 1]]%Q)
  = explicit_variance (mkMatrix 2 [[1; 2]; [3; 4]]%Q) (mkMatrix 2 [[2; 0]; [0; 1]]%Q)
  /\ fast_variance (mkMatrix 2 [[1; 2]; [3; 4]]%Q) (mkMatrix 2 [[2; 0]; [0; 1]]%Q)
     = Ok [6; 34]%Q.
Proof.
  split; [reflexivity|]. split; [|reflexivity].
  refine (proj1 (fast_variance_is_diag (mkMatrix 2 [[1; 2]; [3; 4]]%Q)
                   (mkMatrix 3 [[2; 5; 0]; [7; 9; 7]; [0; 5; 1]]%Q) [0; 2]
                   (mkMatrix 2 [[2; 0]; [0; 1]]%Q) _ _)).
  - repeat constructor.
  - reflexivity.
Defined.

(** ** Grids of linear and spline terms *)

Lemma nth_map_lt {A B} (f : A -> B) (l : list A) (i : nat) (d : B) (d' : A) :
  i < length l -> nth i (map f l) d = f (nth i l d').
Proof.
  intros Hi. rewrite (nth_indep (map f l) d (f d')) by (rewrite length_map; exact Hi).
  apply map_nth.
Qed.

Lemma arange_length n : length (arange n) = n.
Proof. unfold arange. rewrite length_map, length_seq. reflexivity. Qed.

Lemma arange_nth n i : i < n -> nth i (arange n) 0%Q = inject_Z (Z.of_nat i).
Proof.
  intros Hi. unfold arange.
  rewrite (nth_map_lt _ _ _ _ 0) by (rewrite length_seq; exact Hi).
  rewrite seq_nth by exact Hi. reflexivity.
Qed.

Lemma removelast_length {A} (l : list A) : length (removelast l) = length l - 1.
Proof.
  induction l as [|a [|b l] IH]; try reflexivity.
  change (S (length (removelast (b :: l))) = length (a :: b :: l) - 1).
  rewrite IH. simpl. lia.
Qed.

Lemma Qmin_cases (u v : Q) : Qmin u v = u \/ Qmin u v = v.
Proof. unfold Qmin, GenericMinMax.gmin. destruct (u ?= v)%Q; auto. Qed.

Lemma Qmax_cases (u v : Q) : Qmax u v = u \/ Qmax u v = v.
Proof. unfold Qmax, GenericMinMax.gmax. destruct (u ?= v)%Q; auto. Qed.

Lemma set_last_length y v : length (set_last y v) = length y.
Proof.
  destruct y as [|a y]; [reflexivity|]. unfold set_last.
  rewrite length_app, removelast_length. simpl. lia.
Qed.

Lemma set_last_nth y v i :
  i < length y ->
  nth i (set_last y v) 0%Q = if S i =? length y then v else nth i y 0%Q.
Proof.
  intros Hi. destruct y as [|a y]; [simpl in Hi; lia|].
  unfold set_last. remember (a :: y) as l eqn:Hl.
  assert (Hne : l <> []) by (subst; discriminate).
  destruct (S i =? length l) eqn:E.
  - apply Nat.eqb_eq in E.
    rewrite app_nth2 by (rewrite removelast_length; lia).
    rewrite removelast_length.
    replace (i - (length l - 1)) with 0 by lia. reflexivity.
  - apply Nat.eqb_neq in E.
    rewrite app_nth1 by (rewrite removelast_length; lia).
    rewrite (app_removelast_last 0%Q Hne) at 2.
    rewrite app_nth1 by (rewrite removelast_length; lia). reflexivity.
Qed.

(** The values of [np.linspace]: [num] of them, the one at position [i] being
    [start + i * (stop - start) / (num - 1)]. *)
Lemma linspace_spec (start stop : Q) (num : Z) :
  (0 <= num)%Z ->
  exists grid,
    linspace start stop num = Ok grid /\
    length grid = Z.to_nat num /\
    forall i, i < Z.to_nat num ->
      nth i grid 0%Q ==
      start + inject_Z (Z.of_nat i) * ((stop - start) / inject_Z (num - 1)).
Proof.
  intros Hnum. unfold linspace.
  destruct (num <? 0)%Z eqn:Hneg; [apply Z.ltb_lt in Hneg; lia|].
  eexists. split; [reflexivity|].
  set (n := Z.to_nat num).
  set (f := fun v : Q =>
              if (0 <? num - 1)%Z
              then if Qeq_bool ((stop - start) / inject_Z (num - 1)) 0
                   then (v / inject_Z (num - 1) * (stop - start))%Q
                   else (v * ((stop - start) / inject_Z (num - 1)))%Q
              else (v * (stop - start))%Q).
  assert (Hy : (if (0 <? num - 1)%Z
                then if Qeq_bool ((stop - start) / inject_Z (num - 1)) 0
                     then map (fun v => (v / inject_Z (num - 1) * (stop - start))%Q) (arange n)
                     else map (fun v => (v * ((stop - start) / inject_Z (num - 1)))%Q) (arange n)
                else map (fun v => (v * (stop - start))%Q) (arange n))
               = map f (arange n)).
  { unfold f. destruct (0 <? num - 1)%Z; [|reflexivity].
    destruct (Qeq_bool _ 0); reflexivity. }
  rewrite Hy. clear Hy.
  set (y := map (fun v => (v + start)%Q) (map f (arange n))).
  assert (Hlen : length y = n)
    by (unfold y; rewrite !length_map; apply arange_length).
  assert (Hnth : forall i, i < n ->
            nth i y 0%Q = (f (inject_Z (Z.of_nat i)) + start)%Q).
  { intros i Hi. unfold y. rewrite map_map.
    rewrite (nth_map_lt _ _ _ _ 0%Q) by (rewrite arange_length; exact Hi).
    rewrite arange_nth by exact Hi. reflexivity. }
  split.
  - destruct (1 <? num)%Z; [rewrite set_last_length|]; exact Hlen.
  - intros i Hi.
    assert (Hbody : f (inject_Z (Z.of_nat i)) + start ==
              start + inject_Z (Z.of_nat i) * ((stop - start) / inject_Z (num - 1))).
    { unfold f. destruct (0 <? num - 1)%Z eqn:Hdiv.
      - apply Z.ltb_lt in Hdiv.
        assert (Hnz : ~ inject_Z (num - 1) == 0).
        { intros E. unfold Qeq, inject_Z in E. simpl in E. lia. }
        destruct (Qeq_bool _ 0); field; exact Hnz.
      - apply Z.ltb_ge in Hdiv.
        assert (Hi0 : i = 0) by (unfold n in Hi; lia). subst i.
        simpl. ring. }
    destruct (1 <? num)%Z eqn:Hone.
    + apply Z.ltb_lt in Hone.
      rewrite set_last_nth by (rewrite Hlen; exact Hi).
      rewrite Hlen. destruct (S i =? n) eqn:Hlast.
      * apply Nat.eqb_eq in Hlast.
        assert (Hi' : inject_Z (Z.of_nat i) == inject_Z (num - 1)).
        { replace (Z.of_nat i) with (num - 1)%Z by (unfold n in Hlast; lia).
          reflexivity. }
        rewrite Hi'. field.
        intros E. unfold Qeq, inject_Z in E. simpl in E. lia.
      * rewrite Hnth by exact Hi. exact Hbody.
    + rewrite Hnth by exact Hi. exact Hbody.
Qed.

Lemma fold_left_Qmin_spec (l : list Q) (v : Q) :
  In (fold_left Qmin l v) (v :: l) /\
  Forall (fun u => (fold_left Qmin l v <= u)%Q) (v :: l).
Proof.
  revert v. induction l as [|a l IH]; intros v; simpl.
  - split; [left; reflexivity|]. constructor; [apply Qle_refl|constructor].
  - destruct (IH (Qmin v a)) as [Hin Hall]. split.
    + destruct Hin as [Hin|Hin]; [|right; right; exact Hin].
      rewrite <- Hin. destruct (Qmin_cases v a) as [E|E]; rewrite E; auto.
    + inversion Hall as [|? ? Hhd Htl]; subst.
      constructor; [|constructor]; try exact Htl.
      * eapply Qle_trans; [exact Hhd|apply Q.le_min_l].
      * eapply Qle_trans; [exact Hhd|apply Q.le_min_r].
Qed.

Lemma fold_left_Qmax_spec (l : list Q) (v : Q) :
  In (fold_left Qmax l v) (v :: l) /\
  Forall (fun u => (u <= fold_left Qmax l v)%Q) (v :: l).
Proof.
  revert v. induction l as [|a l IH]; intros v; simpl.
  - split; [left; reflexivity|]. constructor; [apply Qle_refl|constructor].
  - destruct (IH (Qmax v a)) as [Hin Hall]. split.
    + destruct Hin as [Hin|Hin]; [|right; right; exact Hin].
      rewrite <- Hin. destruct (Qmax_cases v a) as [E|E]; rewrite E; auto.
    + inversion Hall as [|? ? Hhd Htl]; subst.
      constructor; [|constructor]; try exact Htl.
      * eapply Qle_trans; [apply Q.le_max_l|exact Hhd].
      * eapply Qle_trans; [apply Q.le_max_r|exact Hhd].
Qed.


Lemma np_min_spec (a : list Q) :
  a <> [] -> exists m, np_min a = Ok m /\ is_min m a.
Proof.
  destruct a as [|v l]; [congruence|]. intros _.
  eexists. split; [reflexivity|]. apply fold_left_Qmin_spec.
Qed.

Lemma np_max_spec (a : list Q) :
  a <> [] -> exists m, np_max a = Ok m /\ is_max m a.
Proof.
  destruct a as [|v l]; [congruence|]. intros _.
  eexists. split; [reflexivity|]. apply fold_left_Qmax_spec.
Qed.

Lemma generate_X_grid_unfold `{Collaborators} (gam : pyobj) (term : Term)
    (X : matrix) (extrapolation : Q) (num : Z) :
  generate_X_grid gam term X extrapolation num =
  (let? g := isinstance_GAM gam in
   let? _ := check_is_fitted_gam g in
   let? _ := check_is_fitted term in
   match kind term with
   | Intercept => Ok (GridArray (mkMatrix 1 [[1%Q]]))
   | Linear | Spline =>
       let? X_data := _get_column term X in
       let? min_ := np_min X_data in
       let? max_ := np_max X_data in
       let offset := ((max_ - min_) * extrapolation)%Q in
       let? grid := linspace (min_ - offset) (max_ + offset) num in
       Ok (GridArray (reshape_column grid))
   | Categorical => Ok (GridArray (reshape_column (categories_ term)))
   | Tensor =>
       let? linspaces :=
         sequence
           (map (fun spline =>
                   let? grid := generate_X_grid gam spline X extrapolation num in
                   grid_ravel grid)
                (splines term)) in
       Ok (GridTensor (cartesian linspaces) (meshgrid_ij linspaces))
   | OtherTerm => Ok GridNone
   end).
Proof. destruct term; reflexivity. Qed.

Lemma linear_spline_grid `{Collaborators} (g : GAM) (term : Term)
    (X : matrix) (col : list Q) (extrapolation : Q) (num : Z) :
  gam_fitted g = true -> fitted term = true ->
  kind term = Linear \/ kind term = Spline ->
  _get_column term X = Ok col -> col <> [] -> (0 <= num)%Z ->
  exists min_ max_ grid,
    is_min min_ col /\ is_max max_ col /\
    generate_X_grid (PyGAM g) term X extrapolation num
      = Ok (GridArray (reshape_column grid)) /\
    length grid = Z.to_nat num /\
    forall i, i < Z.to_nat num ->
      let offset := ((max_ - min_) * extrapolation)%Q in
      (nth i grid 0 ==
       (min_ - offset) + inject_Z (Z.of_nat i)
                         * (((max_ + offset) - (min_ - offset)) / inject_Z (num - 1)))%Q.
Proof.
  intros Hgam Hfit Hkind Hcol Hne Hnum.
  destruct (np_min_spec col Hne) as (mn & Emin & Hmin).
  destruct (np_max_spec col Hne) as (mx & Emax & Hmax).
  destruct (linspace_spec (mn - (mx - mn) * extrapolation)
              (mx + (mx - mn) * extrapolation) num) as (grid & Egrid & Hlen & Hnth);
    [lia|].
  exists mn, mx, grid.
  split; [exact Hmin|]. split; [exact Hmax|].
  split; [|split; [exact Hlen|exact Hnth]].
  rewrite generate_X_grid_unfold. unfold check_is_fitted_gam, check_is_fitted.
  simpl. rewrite Hgam, Hfit. simpl.
  destruct Hkind as [-> | ->]; rewrite Hcol; simpl; rewrite Emin; simpl;
    rewrite Emax; simpl; rewrite Egrid; reflexivity.
Qed.

(** C3.  For a fitted [Linear] or [Spline] term of a fitted model whose
    extracted feature column is [col], not empty, with minimum [min_] and
    maximum [max_], and for [extrapolation >= 0] and [num >= 1], grid
    generation returns [num] one-element rows; with
    [offset = (max_ - min_) * extrapolation], row [i] holds
    [(min_ - offset) + i * ((max_ + offset) - (min_ - offset)) / (num - 1)]:
    the values are evenly spaced, from [min_ - offset] to [max_ + offset]. *)
Theorem generate_X_grid_linear_spline `{Collaborators} (g : GAM) (term : Term)
    (X : matrix) (col : list Q) (extrapolation : Q) (num : Z) :
  gam_fitted g = true -> fitted term = true ->
  kind term = Linear \/ kind term = Spline ->
  _get_column term X = Ok col -> col <> [] ->
  (0 <= extrapolation)%Q -> (1 <= num)%Z ->
  exists min_ max_ grid,
    is_min min_ col /\ is_max max_ col /\
    generate_X_grid (PyGAM g) term X extrapolation num
      = Ok (GridArray (mkMatrix 1 (map (fun v => [v]) grid))) /\
    length grid = Z.to_nat num /\
    forall i, i < Z.to_nat num ->
      let offset := ((max_ - min_) * extrapolation)%Q in
      (nth i grid 0 ==
       (min_ - offset) + inject_Z (Z.of_nat i)
                         * (((max_ + offset) - (min_ - offset)) / inject_Z (num - 1)))%Q.
Proof.
  intros Hgam Hfit Hkind Hcol Hne _ Hnum.
  apply linear_spline_grid; try assumption. lia.
Qed.

Lemma generate_X_grid_linear_spline_witness :
  (exists min_ max_ grid,
     is_min min_ [0%Q; 10%Q] /\ is_max max_ [0%Q; 10%Q] /\
     generate_X_grid (PyGAM example_gam) (example_term Linear)
         (mkMatrix 1 [[0%Q]; [10%Q]]) (1 # 10) 5
       = Ok (GridArray (mkMatrix 1 (map (fun v => [v]) grid))) /\
     length grid = Z.to_nat 5 /\
     forall i, i < Z.to_nat 5 ->
       let offset := ((max_ - min_) * (1 # 10))%Q in
       (nth i grid 0 ==
        (min_ - offset) + inject_Z (Z.of_nat i)
                          * (((max_ + offset) - (min_ - offset)) / inject_Z (5 - 1)))%Q)
  /\ match generate_X_grid (PyGAM example_gam) (example_term Linear)
             (mkMatrix 1 [[0%Q]; [10%Q]]) (1 # 10) 5 with
     | Ok (GridArray M) =>
         map (map Qred) (rows M) = [[-1]; [2]; [5]; [8]; [11]]%Q
     | _ => False
     end.
Proof.
  split.
  - apply (generate_X_grid_linear_spline example_gam (example_term Linear)
             (mkMatrix 1 [[0%Q]; [10%Q]]) [0%Q; 10%Q] (1 # 10) 5).
    + reflexivity.
    + reflexivity.
    + left; reflexivity.
    + reflexivity.
    + discriminate.
    + unfold Qle; simpl; lia.
    + lia.
  - vm_compute. reflexivity.
Defined.

(** ** Grids of tensor terms *)

Lemma nth_flat_map_block {A B} (f : A -> list B) (m : nat) (l : list A)
    (i j : nat) (d : B) (d' : A) :
  (forall v, length (f v) = m) -> i < length l -> j < m ->
  nth (i * m + j) (flat_map f l) d = nth j (f (nth i l d')) d.
Proof.
  intros Hf. revert i. induction l as [|a l IH]; intros i Hi Hj; simpl in *; [lia|].
  destruct i as [|i].
  - simpl. rewrite app_nth1 by (rewrite Hf; exact Hj). reflexivity.
  - rewrite app_nth2 by (rewrite Hf; simpl; lia).
    rewrite Hf. replace (S i * m + j - m) with (i * m + j) by (simpl; lia).
    apply IH; [lia|exact Hj].
Qed.

Lemma length_flat_map_block {A B} (f : A -> list B) (m : nat) (l : list A) :
  (forall v, length (f v) = m) -> length (flat_map f l) = length l * m.
Proof.
  intros Hf. induction l as [|a l IH]; simpl; [reflexivity|].
  rewrite length_app, Hf, IH. reflexivity.
Qed.

Lemma indices_length (shp : list nat) : length (indices shp) = size_of shp.
Proof.
  induction shp as [|n rest IH]; simpl; [reflexivity|].
  rewrite (length_flat_map_block _ (size_of rest)), length_seq; [reflexivity|].
  intros v. rewrite length_map. exact IH.
Qed.

Lemma ravel_index_lt (shp idx : list nat) :
  Forall2 lt idx shp -> ravel_index shp idx < size_of shp.
Proof.
  intros Hv. induction Hv as [|i n idx shp Hi Hv IH]; simpl; [lia|].
  apply Nat.lt_le_trans with (i * size_of shp + size_of shp); [lia|].
  replace (i * size_of shp + size_of shp) with (S i * size_of shp) by (simpl; lia).
  apply Nat.mul_le_mono_r. lia.
Qed.

Lemma indices_nth (shp idx : list nat) :
  Forall2 lt idx shp -> nth (ravel_index shp idx) (indices shp) [] = idx.
Proof.
  intros Hv. induction Hv as [|i n idx shp Hi Hv IH]; simpl; [reflexivity|].
  rewrite (nth_flat_map_block _ (size_of shp) _ _ _ _ 0).
  - rewrite seq_nth by exact Hi. simpl.
    rewrite (nth_map_lt _ _ _ _ [])
      by (rewrite indices_length; apply ravel_index_lt; exact Hv).
    rewrite IH. reflexivity.
  - intros v. rewrite length_map. apply indices_length.
  - rewrite length_seq. exact Hi.
  - apply ravel_index_lt. exact Hv.
Qed.

Lemma flat_map_map {A B C} (f : A -> B) (g : B -> list C) (l : list A) :
  flat_map g (map f l) = flat_map (fun v => g (f v)) l.
Proof. induction l as [|a l IH]; simpl; [reflexivity|]. rewrite IH. reflexivity. Qed.

Lemma map_flat_map {A B C} (f : A -> list B) (g : B -> C) (l : list A) :
  map g (flat_map f l) = flat_map (fun v => map g (f v)) l.
Proof.
  induction l as [|a l IH]; simpl; [reflexivity|].
  rewrite map_app, IH. reflexivity.
Qed.

(** The rows of the cartesian product are the picks of the multi-indices,
    in row-major order. *)
Lemma cartesian_rows_indices (axes : list (list Q)) :
  cartesian_rows axes = map (pick axes) (indices (map (@length Q) axes)).
Proof.
  induction axes as [|a rest IH]; simpl; [reflexivity|].
  rewrite map_flat_map.
  transitivity (flat_map (fun v => map (cons v) (cartesian_rows rest))
                         (map (fun i => nth i a 0%Q) (seq 0 (length a)))).
  - f_equal. transitivity (map (fun v : Q => v) a); [symmetry; apply map_id|].
    exact (map_nth_seq (fun v : Q => v) 0%Q a).
  - rewrite flat_map_map. apply flat_map_ext. intros i.
    rewrite map_map, IH, map_map. reflexivity.
Qed.

Lemma cartesian_rows_length (axes : list (list Q)) :
  length (cartesian_rows axes) = size_of (map (@length Q) axes).
Proof. rewrite cartesian_rows_indices, length_map. apply indices_length. Qed.

Lemma cartesian_rows_nth (axes : list (list Q)) (idx : list nat) :
  Forall2 lt idx (map (@length Q) axes) ->
  nth (ravel_index (map (@length Q) axes) idx) (cartesian_rows axes) []
  = pick axes idx.
Proof.
  intros Hv. rewrite cartesian_rows_indices.
  rewrite (nth_map_lt _ _ _ _ [])
    by (rewrite indices_length; apply ravel_index_lt; exact Hv).
  rewrite indices_nth by exact Hv. reflexivity.
Qed.

Lemma size_of_repeat (n k : nat) : size_of (repeat n k) = n ^ k.
Proof. induction k as [|k IH]; simpl; [reflexivity|]. rewrite IH. reflexivity. Qed.

Lemma map_length_repeat (axes : list (list Q)) (n : nat) :
  Forall (fun a => length a = n) axes ->
  map (@length Q) axes = repeat n (length axes).
Proof.
  induction 1 as [|a axes Ha _ IH]; simpl; [reflexivity|].
  rewrite Ha, IH. reflexivity.
Qed.

Lemma ravel_reshape_column (a : list Q) : ravel (reshape_column a) = a.
Proof.
  unfold ravel, reshape_column; simpl.
  induction a as [|v a IH]; simpl; [reflexivity|]. rewrite IH. reflexivity.
Qed.

Lemma sequence_Forall2 {A B} (f : A -> result B) (P : A -> B -> Prop) (l : list A) :
  Forall (fun a => exists b, f a = Ok b /\ P a b) l ->
  exists bs, sequence (map f l) = Ok bs /\ Forall2 P l bs.
Proof.
  induction 1 as [|a l (b & Hb & HP) _ (bs & Hbs & HF)]; simpl.
  - exists []. split; [reflexivity|constructor].
  - exists (b :: bs). rewrite Hb. simpl. rewrite Hbs. simpl.
    split; [reflexivity|constructor; assumption].
Qed.

(** C7.  For a fitted [Tensor] term of a fitted model whose [k] sub-terms
    are fitted [Linear] or [Spline] terms with a non-empty feature column,
    grid generation derives, from one sequence [axes] of [k] axes of [num]
    values (the grids of the sub-terms), a cartesian grid and a meshgrid.
    The cartesian grid has [num ^ k] rows of [k] entries; the row at the
    row-major position of the multi-index [(i_0, ..., i_{k-1})] holds
    [axes[j][i_j]] in column [j], which is the lexicographic order with the
    last axis varying fastest.  The meshgrid has [k] arrays of shape
    [(num, ..., num)] ([k] axes), array [j] holding [axes[j][i_j]] at that
    multi-index. *)
Theorem generate_X_grid_tensor `{Collaborators} (g : GAM) (term : Term)
    (X : matrix) (extrapolation : Q) (num : Z) :
  gam_fitted g = true -> fitted term = true -> kind term = Tensor ->
  Forall (fun s => fitted s = true /\ (kind s = Linear \/ kind s = Spline) /\
                   exists col, _get_column s X = Ok col /\ col <> [])
         (splines term) ->
  (0 <= num)%Z ->
  let k := length (splines term) in
  let n := Z.to_nat num in
  exists axes,
    generate_X_grid (PyGAM g) term X extrapolation num
      = Ok (GridTensor (cartesian axes) (meshgrid_ij axes)) /\
    Forall2 (fun s a =>
               generate_X_grid (PyGAM g) s X extrapolation num
                 = Ok (GridArray (reshape_column a)) /\ length a = n)
            (splines term) axes /\
    nrows (cartesian axes) = n ^ k /\
    ncols (cartesian axes) = k /\
    (forall idx, Forall2 lt idx (repeat n k) ->
       nth (ravel_index (repeat n k) idx) (rows (cartesian axes)) []
       = pick axes idx) /\
    length (meshgrid_ij axes) = k /\
    Forall (fun a => shape a = repeat n k) (meshgrid_ij axes) /\
    (forall j idx, j < k -> Forall2 lt idx (repeat n k) ->
       nth (ravel_index (repeat n k) idx)
           (data (nth j (meshgrid_ij axes) (mkNdarray [] []))) 0%Q
       = nth (nth j idx 0) (nth j axes []) 0%Q).
Proof.
  intros Hgam Hfit Hkind Hsub Hnum k n.
  destruct (sequence_Forall2
              (fun s => let? grid := generate_X_grid (PyGAM g) s X extrapolation num in
                        grid_ravel grid)
              (fun s a => generate_X_grid (PyGAM g) s X extrapolation num
                          = Ok (GridArray (reshape_column a)) /\ length a = n)
              (splines term)) as (axes & Hseq & Haxes).
  { eapply List.Forall_impl; [|exact Hsub]. intros s (Hs & Hk & col & Hcol & Hne).
    destruct (linear_spline_grid g s X col extrapolation num Hgam Hs Hk Hcol Hne Hnum)
      as (_ & _ & grid & _ & _ & Egrid & Hlen & _).
    exists grid. rewrite Egrid. simpl. rewrite ravel_reshape_column. auto. }
  assert (Hk : length axes = k) by (symmetry; eapply Forall2_length; exact Haxes).
  assert (Hshape : map (@length Q) axes = repeat n k).
  { rewrite <- Hk. apply map_length_repeat.
    clear -Haxes. induction Haxes as [|s a ss aa [_ Ha] _ IH]; constructor; auto. }
  exists axes.
  split.
  { rewrite generate_X_grid_unfold. unfold check_is_fitted_gam, check_is_fitted.
    simpl. rewrite Hgam, Hfit, Hkind. simpl. rewrite Hseq. reflexivity. }
  split; [exact Haxes|].
  split.
  { unfold nrows, cartesian; simpl.
    rewrite cartesian_rows_length, Hshape. apply size_of_repeat. }
  split; [exact Hk|].
  split.
  { intros idx Hidx. unfold cartesian; simpl. rewrite <- Hshape.
    apply cartesian_rows_nth. rewrite Hshape. exact Hidx. }
  split.
  { unfold meshgrid_ij. rewrite length_map, length_seq. exact Hk. }
  split.
  { unfold meshgrid_ij. apply List.Forall_forall. intros a Ha.
    apply in_map_iff in Ha. destruct Ha as (j & <- & _). simpl. exact Hshape. }
  intros j idx Hj Hidx. unfold meshgrid_ij.
  rewrite (nth_map_lt _ _ _ _ 0) by (rewrite length_seq, Hk; exact Hj).
  rewrite seq_nth by (rewrite Hk; exact Hj). simpl.
  rewrite Hshape.
  rewrite (nth_map_lt _ _ _ _ [])
    by (rewrite indices_length; apply ravel_index_lt; exact Hidx).
  rewrite indices_nth by exact Hidx. reflexivity.
Qed.

Lemma generate_X_grid_tensor_witness :
  exists axes,
    generate_X_grid (PyGAM example_gam) example_tensor example_X2 (1 # 100) 3
      = Ok (GridTensor (cartesian axes) (meshgrid_ij axes)) /\
    nrows (cartesian axes) = 9 /\
    ncols (cartesian axes) = 2 /\
    length (meshgrid_ij axes) = 2 /\
    Forall (fun a => shape a = [3; 3]) (meshgrid_ij axes).
Proof.
  assert (Hsub : Forall (fun s => fitted s = true /\ (kind s = Linear \/ kind s = Spline) /\
                                 exists col, _get_column s example_X2 = Ok col /\ col <> [])
                        (splines example_tensor)).
  { constructor; [|constructor; [|constructor]].
    - split; [reflexivity|]. split; [right; reflexivity|].
      exists [1%Q; 2%Q; 3%Q]. split; [reflexivity|discriminate].
    - split; [reflexivity|]. split; [right; reflexivity|].
      exists [10%Q; 20%Q; 40%Q]. split; [reflexivity|discriminate]. }
  pose proof (generate_X_grid_tensor example_gam example_tensor example_X2 (1 # 100) 3
                eq_refl eq_refl eq_refl Hsub ltac:(lia)) as Hgrid.
  cbv zeta in Hgrid.
  destruct Hgrid as (axes & Hgrid & _ & Hrows & Hcols & _ & Hmesh & Hshape & _).
  exists axes. repeat split; assumption.
Defined.

(** ** Terms of an unsupported kind *)

Lemma generate_X_grid_other_kind `{Collaborators} (g : GAM) (term : Term)
    (X : matrix) (extrapolation : Q) (num : Z) :
  gam_fitted g = true -> fitted term = true -> kind term = OtherTerm ->
  generate_X_grid (PyGAM g) term X extrapolation num = Ok GridNone.
Proof.
  intros Hgam Hfit Hkind. rewrite generate_X_grid_unfold.
  unfold check_is_fitted_gam, check_is_fitted. simpl.
  rewrite Hgam, Hfit, Hkind. reflexivity.
Qed.

(** C5.  A fitted term of a further subclass of [Term], passed with a fitted
    model, passes every check of [generate_X_grid] and matches no branch:
    the function returns [None] and raises nothing. *)
Theorem generate_X_grid_other_term_returns_None :
  gam_fitted example_gam = true /\
  fitted (example_term OtherTerm) = true /\
  generate_X_grid_call (example_heap OtherTerm) (PyGAM example_gam) (PyTermRef 0)
      example_X (1 # 100) 100 = Ok GridNone.
Proof. repeat split; reflexivity. Qed.

(** ** The [edges] parameter *)

(** C10.  [edges] is never read: two calls that differ in [edges] only are
    the same computation, for [partial_effect] and for
    [PartialEffectDisplay.from_estimator]. *)
Theorem edges_is_ignored `{Collaborators} (gam term standard_deviations : pyobj)
    (edges1 edges2 : pyobj) (linear_scale : bool) (X : matrix) (y : list Q)
    (transformation : transformation_arg) (residuals : bool) (h : heap) :
  partial_effect gam term standard_deviations edges1 linear_scale h
  = partial_effect gam term standard_deviations edges2 linear_scale h
  /\ PartialEffectDisplay.from_estimator gam term X y standard_deviations edges1
       transformation residuals h
     = PartialEffectDisplay.from_estimator gam term X y standard_deviations edges2
         transformation residuals h.
Proof. split; reflexivity. Qed.

(** ** Validation of the arguments *)

Lemma isinstance_GAM_raises (gam : pyobj) (e : exn) :
  isinstance_GAM gam = Raise e -> invalid_argument e.
Proof. destruct gam; simpl; intros E; inversion E; exact I. Qed.

Lemma isinstance_Term_raises (h : heap) (term : pyobj) (e : exn) :
  isinstance_Term h term = Raise e -> invalid_argument e.
Proof.
  destruct term; simpl; intros E; try (inversion E; exact I).
  destruct (h !! l); inversion E; exact I.
Qed.

Lemma isinstance_Spline_or_Linear_raises `{Collaborators} (h : heap) (term : pyobj) (e : exn) :
  isinstance_Spline_or_Linear h term = Raise e -> invalid_argument e.
Proof.
  destruct term; simpl; intros E; try (inversion E; exact I).
  destruct (h !! l) as [t|]; [destruct (kind t)|]; inversion E; exact I.
Qed.

Lemma check_is_fitted_gam_raises (g : GAM) (e : exn) :
  check_is_fitted_gam g = Raise e -> invalid_argument e.
Proof. unfold check_is_fitted_gam. destruct (gam_fitted g); intros E; inversion E; exact I. Qed.

Lemma check_is_fitted_raises (t : Term) (e : exn) :
  check_is_fitted t = Raise e -> invalid_argument e.
Proof. unfold check_is_fitted. destruct (fitted t); intros E; inversion E; exact I. Qed.

Lemma check_membership_raises `{Collaborators} (h : heap) (l : loc) (t : Term) (g : GAM) (e : exn) :
  check_membership h l t g = Raise e -> invalid_argument e.
Proof.
  unfold check_membership. destruct (term_in_terms h l t (gam_terms g));
    intros E; inversion E; exact I.
Qed.

Lemma check_scalar_refused (sd : pyobj) :
  refused_scalar sd -> exists e, check_scalar sd 0 = Raise e /\ invalid_argument e.
Proof.
  unfold check_scalar. intros [E | (v & E & Hle)]; rewrite E.
  - eexists. split; [reflexivity|exact I].
  - rewrite Hle. eexists. split; [reflexivity|exact I].
Qed.

Lemma check_scalar_accepted (sd : pyobj) (v : npfloat) :
  check_scalar sd 0 = Ok v <-> is_real sd = Some v /\ fle v (Fin 0) = false.
Proof.
  unfold check_scalar. destruct (is_real sd) as [w|].
  - destruct (fle w (Fin 0)) eqn:E; split.
    + discriminate.
    + intros [[= ->] Hle]. congruence.
    + intros [= ->]. auto.
    + intros [[= ->] _]. reflexivity.
  - split; [discriminate|]. intros [E _]. discriminate.
Qed.

Lemma partial_effect_validation_refused `{Collaborators} (h : heap)
    (gam term sd : pyobj) :
  refused_scalar sd ->
  exists e, partial_effect_validation h gam term sd = Raise e /\ invalid_argument e.
Proof.
  intros Hsd. unfold partial_effect_validation.
  destruct (isinstance_GAM gam) as [g|e] eqn:E1; simpl;
    [|eauto using isinstance_GAM_raises].
  destruct (isinstance_Spline_or_Linear h term) as [lt|e] eqn:E2; simpl;
    [|eauto using isinstance_Spline_or_Linear_raises].
  destruct (check_is_fitted_gam g) as [[]|e] eqn:E3; simpl;
    [|eauto using check_is_fitted_gam_raises].
  destruct (check_is_fitted (snd lt)) as [[]|e] eqn:E4; simpl;
    [|eauto using check_is_fitted_raises].
  destruct (check_membership h (fst lt) (snd lt) g) as [[]|e] eqn:E5; simpl;
    [|eauto using check_membership_raises].
  destruct (check_scalar_refused sd Hsd) as (e & -> & He). simpl. eauto.
Qed.

Lemma from_estimator_validation_refused `{Collaborators} (h : heap)
    (gam term sd : pyobj) :
  refused_scalar sd ->
  exists e, PartialEffectDisplay.from_estimator_validation h gam term sd = Raise e
            /\ invalid_argument e.
Proof.
  intros Hsd. unfold PartialEffectDisplay.from_estimator_validation.
  destruct (isinstance_GAM gam) as [g|e] eqn:E1; simpl;
    [|eauto using isinstance_GAM_raises].
  destruct (isinstance_Term h term) as [lt|e] eqn:E2; simpl;
    [|eauto using isinstance_Term_raises].
  destruct (check_is_fitted_gam g) as [[]|e] eqn:E3; simpl;
    [|eauto using check_is_fitted_gam_raises].
  destruct (check_is_fitted (snd lt)) as [[]|e] eqn:E4; simpl;
    [|eauto using check_is_fitted_raises].
  destruct (check_membership h (fst lt) (snd lt) g) as [[]|e] eqn:E5; simpl;
    [|eauto using check_membership_raises].
  destruct (check_scalar_refused sd Hsd) as (e & -> & He). simpl. eauto.
Qed.

(** C6, as the code has it.  [standard_deviations] is rejected when it is
    not a real number or when it compares [<= 0], zero and [-1] included:
    both functions then raise an invalid-argument exception and leave the
    heap as it was, no copy of the term being made. *)
Theorem standard_deviations_refused `{Collaborators} (gam term sd edges : pyobj)
    (linear_scale : bool) (X : matrix) (y : list Q)
    (transformation : transformation_arg) (residuals : bool) (h : heap) :
  refused_scalar sd ->
  (exists e, partial_effect gam term sd edges linear_scale h = (Raise e, h)
             /\ invalid_argument e) /\
  (exists e, PartialEffectDisplay.from_estimator gam term X y sd edges
               transformation residuals h = (Raise e, h)
             /\ invalid_argument e).
Proof.
  intros Hsd. split.
  - destruct (partial_effect_validation_refused h gam term sd Hsd) as (e & E & He).
    exists e. split; [|exact He].
    unfold partial_effect, bind, read. rewrite E. reflexivity.
  - destruct (from_estimator_validation_refused h gam term sd Hsd) as (e & E & He).
    exists e. split; [|exact He].
    unfold PartialEffectDisplay.from_estimator, bind, read. rewrite E. reflexivity.
Qed.

Lemma standard_deviations_refused_witness :
  refused_scalar (PyInt 0) /\ refused_scalar (PyInt (-1)) /\
  (exists e, partial_effect (PyGAM example_gam) (PyTermRef 0) (PyInt 0) PyNone true
               (example_heap Linear) = (Raise e, example_heap Linear)
             /\ invalid_argument e) /\
  (exists e, partial_effect (PyGAM example_gam) (PyTermRef 0) (PyInt (-1)) PyNone true
               (example_heap Linear) = (Raise e, example_heap Linear)
             /\ invalid_argument e).
Proof.
  assert (H0 : refused_scalar (PyInt 0))
    by (right; exists (Fin (inject_Z 0)); split; reflexivity).
  assert (H1 : refused_scalar (PyInt (-1)))
    by (right; exists (Fin (inject_Z (-1))); split; reflexivity).
  split; [exact H0|]. split; [exact H1|]. split.
  - exact (proj1 (standard_deviations_refused (PyGAM example_gam) (PyTermRef 0)
                    (PyInt 0) PyNone true example_X [] TransformationNoneOrFalse
                    false (example_heap Linear) H0)).
  - exact (proj1 (standard_deviations_refused (PyGAM example_gam) (PyTermRef 0)
                    (PyInt (-1)) PyNone true example_X [] TransformationNoneOrFalse
                    false (example_heap Linear) H1)).
Defined.

(** The claim C6 fails on an infinite [standard_deviations]: it is no finite
    real, it passes the check, and [partial_effect] returns a bundle. *)
Lemma standard_deviations_inf_accepted :
  ~ strictly_positive_finite (PyFloat PosInf) /\
  exists b h', partial_effect (PyGAM example_gam) (PyTermRef 0) (PyFloat PosInf)
                 PyNone true (example_heap Linear) = (Ok b, h').
Proof.
  split.
  - intros (q & E & _). discriminate.
  - eexists. eexists. vm_compute. reflexivity.
Qed.

(** ** The kinds of term accepted *)

(** C4, as the code has it.  For a fitted term of a fitted model and a valid
    [standard_deviations]: [partial_effect] accepts the term when it is a
    [Spline] or a [Linear] term, the call then being the computation of lines
    126 to 181 on it, and rejects a term of any other kind, [Categorical] and
    [Tensor] included, with a type error and an unchanged heap;
    [PartialEffectDisplay.from_estimator] accepts the term whatever its
    kind. *)
Theorem accepted_term_kinds `{Collaborators} (h : heap) (g : GAM) (l : loc)
    (t : Term) (sd edges : pyobj) (v : npfloat) (linear_scale : bool)
    (X : matrix) (y : list Q) (transformation : transformation_arg)
    (residuals : bool) :
  h !! l = Some t -> gam_fitted g = true -> fitted t = true ->
  term_in_terms h l t (gam_terms g) = true -> check_scalar sd 0 = Ok v ->
  (kind t = Spline \/ kind t = Linear ->
     partial_effect (PyGAM g) (PyTermRef l) sd edges linear_scale h
     = partial_effect_logic (PyGAM g) g l v linear_scale h) /\
  (kind t <> Spline -> kind t <> Linear ->
     partial_effect (PyGAM g) (PyTermRef l) sd edges linear_scale h
     = (Raise (TypeError "Parameter `term` must be instance of Spline or Linear"), h)) /\
  PartialEffectDisplay.from_estimator (PyGAM g) (PyTermRef l) X y sd edges
      transformation residuals h
  = PartialEffectDisplay.from_estimator_logic (PyGAM g) g l X y v transformation
      residuals h.
Proof.
  intros Hl Hgam Hfit Hin Hsd. split; [|split].
  - intros Hkind.
    unfold partial_effect, bind, read, partial_effect_validation,
      isinstance_Spline_or_Linear, check_is_fitted_gam, check_is_fitted,
      check_membership.
    simpl. rewrite Hl.
    destruct Hkind as [-> | ->]; simpl; rewrite Hgam, Hfit; simpl;
      rewrite Hin; simpl; rewrite Hsd; reflexivity.
  - intros Hs Hlin.
    unfold partial_effect, bind, read, partial_effect_validation,
      isinstance_Spline_or_Linear.
    simpl. rewrite Hl.
    destruct (kind t); try congruence; reflexivity.
  - unfold PartialEffectDisplay.from_estimator, bind, read,
      PartialEffectDisplay.from_estimator_validation, isinstance_Term,
      check_is_fitted_gam, check_is_fitted, check_membership.
    simpl. rewrite Hl. simpl. rewrite Hgam, Hfit. simpl.
    rewrite Hin. simpl. rewrite Hsd. reflexivity.
Qed.

Lemma accepted_term_kinds_witness :
  (exists b h', partial_effect (PyGAM example_gam) (PyTermRef 0) (PyFloat (Fin 1))
                  PyNone true (example_heap Linear) = (Ok b, h')) /\
  partial_effect (PyGAM example_gam) (PyTermRef 0) (PyFloat (Fin 1)) PyNone true
      (example_heap Tensor)
  = (Raise (TypeError "Parameter `term` must be instance of Spline or Linear"),
     example_heap Tensor).
Proof.
  pose proof (accepted_term_kinds (example_heap Linear) example_gam 0
                (example_term Linear) (PyFloat (Fin 1)) PyNone (Fin 1) true
                example_X [] TransformationNoneOrFalse false
                eq_refl eq_refl eq_refl eq_refl eq_refl) as (Hlin & _ & _).
  pose proof (accepted_term_kinds (example_heap Tensor) example_gam 0
                (example_term Tensor) (PyFloat (Fin 1)) PyNone (Fin 1) true
                example_X [] TransformationNoneOrFalse false
                eq_refl eq_refl eq_refl eq_refl eq_refl) as (_ & Hten & _).
  split.
  - rewrite (Hlin (or_intror eq_refl)). eexists. eexists. vm_compute. reflexivity.
  - apply Hten; discriminate.
Defined.

(** The claim C4 fails on a categorical term: fitted, a member of the fitted
    model, and rejected by [partial_effect] with a type error. *)
Lemma partial_effect_rejects_categorical :
  fitted (example_term Categorical) = true /\
  gam_fitted example_gam = true /\
  term_in_terms (example_heap Categorical) 0 (example_term Categorical)
    (gam_terms example_gam) = true /\
  fst (partial_effect (PyGAM example_gam) (PyTermRef 0) (PyFloat (Fin 1)) PyNone true
         (example_heap Categorical))
  = Raise (TypeError "Parameter `term` must be instance of Spline or Linear").
Proof. repeat split; reflexivity. Qed.

(** ** Inversion of successful computations *)

Lemma bind_Ok {A B} (m : M A) (k : A -> M B) (h h' : heap) (b : B) :
  bind m k h = (Ok b, h') ->
  exists a h1, m h = (Ok a, h1) /\ k a h1 = (Ok b, h').
Proof.
  unfold bind. destruct (m h) as [[a|e] h1]; intros E; [eauto|discriminate].
Qed.

Lemma lift_Ok {A} (r : result A) (h h' : heap) (a : A) :
  lift r h = (Ok a, h') -> r = Ok a /\ h' = h.
Proof. unfold lift. intros [= -> ->]. auto. Qed.

Lemma ret_Ok {A} (a a' : A) (h h' : heap) :
  ret a h = (Ok a', h') -> a' = a /\ h' = h.
Proof. unfold ret. intros [= -> ->]. auto. Qed.

Lemma rbind_Ok {A B} (r : result A) (k : A -> result B) (b : B) :
  rbind r k = Ok b -> exists a, r = Ok a /\ k a = Ok b.
Proof. destruct r as [a|e]; simpl; intros E; [eauto|discriminate]. Qed.

(** ** The credible interval *)

Lemma matvec_length (A : matrix) (v : list Q) (r : list Q) :
  matvec A v = Ok r -> length r = nrows A.
Proof.
  unfold matvec. destruct (ncols A =? length v); [|discriminate].
  intros [= <-]. apply length_map.
Qed.

Lemma fast_variance_length (X V : matrix) (r : list Q) :
  fast_variance X V = Ok r -> length r = nrows X.
Proof.
  unfold fast_variance, matmul. destruct (ncols X =? nrows V); [|discriminate].
  simpl. intros [= <-]. unfold sum_axis1, hadamard, nrows; simpl.
  rewrite !length_map, length_combine, length_map. apply Nat.min_id.
Qed.

Lemma standard_errors_spec `{Collaborators} (X V : matrix) (s : list npfloat) :
  standard_errors X V = Ok s ->
  length s = nrows X /\ Forall (fun v => flt (Fin 0) v = true) s.
Proof.
  unfold standard_errors. intros E.
  apply rbind_Ok in E. destruct E as (variance & Evar & E).
  destruct (forallb (fun s => flt (Fin 0) s) (map np_sqrt variance)) eqn:Hpos;
    simpl in E; [|discriminate].
  apply rbind_Ok in E. destruct E as (explicit & _ & E).
  destruct (allclose _ _); simpl in E; [|discriminate].
  injection E as <-. split.
  - rewrite length_map. eapply fast_variance_length; exact Evar.
  - apply List.Forall_forall. intros v Hv.
    rewrite forallb_forall in Hpos. apply Hpos. exact Hv.
Qed.

Lemma positive_product (v s : npfloat) :
  flt (Fin 0) v = true -> flt (Fin 0) s = true ->
  (exists w, fmul v s = Fin w /\ (0 < w)%Q) \/ fmul v s = PosInf.
Proof.
  assert (Hsgn : forall q, negb (Qle_bool q 0) = true -> Qsgn q = 1%Z).
  { intros q Hq. apply negb_true_iff in Hq.
    assert (Hlt : (0 < q)%Q).
    { apply Qnot_le_lt. intros Hle. apply Qle_bool_iff in Hle. congruence. }
    unfold Qlt in Hlt. simpl in Hlt. unfold Qsgn.
    apply Z.sgn_pos. lia. }
  destruct v as [a| | |], s as [b| | |]; simpl; try discriminate; intros Hv Hs.
  - left. exists (a * b)%Q. split; [reflexivity|].
    apply negb_true_iff in Hv, Hs.
    apply Qmult_lt_0_compat; apply Qnot_le_lt; intros Hle;
      apply Qle_bool_iff in Hle; congruence.
  - right. rewrite (Hsgn a Hv). reflexivity.
  - right. rewrite (Hsgn b Hs). reflexivity.
  - right. reflexivity.
Qed.

Lemma interval_pointwise (p : Q) (v s : npfloat) :
  flt (Fin 0) v = true -> flt (Fin 0) s = true ->
  fle (fsub (Fin p) (fmul v s)) (Fin p) = true /\
  fle (Fin p) (fadd (Fin p) (fmul v s)) = true.
Proof.
  intros Hv Hs.
  destruct (positive_product v s Hv Hs) as [(w & -> & Hw) | ->]; simpl.
  - split; apply Qle_bool_iff; lra.
  - split; reflexivity.
Qed.

Lemma broadcast2_same_length (f : npfloat -> npfloat -> npfloat)
    (a b r : list npfloat) :
  length a = length b -> broadcast2 f a b = Ok r ->
  r = map (fun p => f (fst p) (snd p)) (combine a b).
Proof.
  intros Hlen. unfold broadcast2. rewrite Hlen, Nat.eqb_refl. intros [= <-].
  reflexivity.
Qed.

Lemma interval_ordered (lp : list Q) (sd : npfloat) (stdev low high : list npfloat) :
  flt (Fin 0) sd = true ->
  Forall (fun v => flt (Fin 0) v = true) stdev ->
  length stdev = length lp ->
  broadcast2 fsub (map Fin lp) (map (fmul sd) stdev) = Ok low ->
  broadcast2 fadd (map Fin lp) (map (fmul sd) stdev) = Ok high ->
  ordered_bounds low (map Fin lp) high.
Proof.
  intros Hsd Hpos Hlen Elow Ehigh.
  apply broadcast2_same_length in Elow; [|rewrite !length_map; lia].
  apply broadcast2_same_length in Ehigh; [|rewrite !length_map; lia].
  subst low high. revert lp Hlen.
  induction Hpos as [|s stdev Hs _ IH]; intros [|p lp] Hlen; simpl in Hlen;
    try discriminate.
  - split; constructor.
  - destruct (IH lp ltac:(lia)) as [IHl IHh].
    destruct (interval_pointwise p sd s Hsd Hs) as [Hl Hh].
    split; simpl; constructor; assumption.
Qed.

Lemma ordered_bounds_map (f : npfloat -> npfloat) (low mid high : list npfloat) :
  monotone f -> ordered_bounds low mid high ->
  ordered_bounds (map f low) (map f mid) (map f high).
Proof.
  intros Hf [Hl Hh]. split.
  - clear Hh. induction Hl; simpl; constructor; auto.
  - clear Hl. induction Hh; simpl; constructor; auto.
Qed.

Tactic Notation "inv_bind" hyp(H) ident(a) ident(h) ident(E) :=
  apply bind_Ok in H; destruct H as (a & h & E & H).

Ltac inv_lift E := apply lift_Ok in E; destruct E as [E ->].

Lemma validation_scalar `{Collaborators} (sd : pyobj) (v : npfloat) :
  strictly_positive sd -> check_scalar sd 0 = Ok v -> flt (Fin 0) v = true.
Proof.
  intros (w & Hw & Hpos) E. apply check_scalar_accepted in E.
  destruct E as [E _]. congruence.
Qed.

Lemma partial_effect_logic_bounds `{Collaborators} (gam : pyobj) (g : GAM)
    (l : loc) (sd : npfloat) (linear_scale : bool) (h h' : heap) (b : Bunch.t) :
  flt (Fin 0) sd = true ->
  linear_scale = true \/ monotone (inverse_link (gam_link g)) ->
  partial_effect_logic gam g l sd linear_scale h = (Ok b, h') ->
  ordered_bounds (Bunch.y_low b) (Bunch.y b) (Bunch.y_high b).
Proof.
  intros Hsd Hscale E. unfold partial_effect_logic in E.
  inv_bind E term h1 E1. inv_bind E t h2 E2. inv_bind E data h3 E3.
  inv_bind E Xot h4 E4. inv_bind E grid h5 E5. inv_bind E X h6 E6.
  inv_bind E t' h7 E7. inv_bind E lp h8 E8. inv_bind E V h9 E9.
  inv_bind E stdev h10 E10. inv_bind E eta h11 E11. inv_bind E resid h12 E12.
  inv_bind E low h13 E13. inv_bind E high h14 E14. inv_bind E own h15 E15.
  inv_bind E ypr h16 E16.
  inv_lift E8. inv_lift E10. inv_lift E13. inv_lift E14.
  destruct (standard_errors_spec X V stdev E10) as [Hlen Hpos].
  assert (Hord : ordered_bounds low (map Fin lp) high).
  { eapply interval_ordered; eauto.
    rewrite Hlen. symmetry. eapply matvec_length; exact E8. }
  destruct linear_scale; simpl in E.
  - apply ret_Ok in E. destruct E as [-> _]. simpl. exact Hord.
  - inv_bind E shifted h17 E17. apply ret_Ok in E. destruct E as [-> _]. simpl.
    destruct Hscale as [Hls|Hmono]; [discriminate|].
    apply ordered_bounds_map; assumption.
Qed.

Lemma from_estimator_logic_bounds `{Collaborators} (gam : pyobj) (g : GAM)
    (l : loc) (X : matrix) (y : list Q) (sd : npfloat)
    (transformation : transformation_arg) (residuals : bool) (h h' : heap)
    (d : PartialEffectDisplay.t) :
  flt (Fin 0) sd = true ->
  (exists f0, monotone f0 /\
              forall v, PartialEffectDisplay.select_transformation g transformation v
                        = map f0 v) ->
  PartialEffectDisplay.from_estimator_logic gam g l X y sd transformation residuals h
    = (Ok d, h') ->
  ordered_bounds (PartialEffectDisplay.y_low d) (PartialEffectDisplay.y d)
                 (PartialEffectDisplay.y_high d).
Proof.
  intros Hsd (f0 & Hmono & Hsel) E.
  unfold PartialEffectDisplay.from_estimator_logic in E.
  inv_bind E term h1 E1. inv_bind E Xt h2 E2. inv_bind E t h3 E3.
  inv_bind E xobs h4 E4. inv_bind E grid h5 E5. inv_bind E Xs h6 E6.
  inv_bind E Xs' h7 E7. inv_bind E t' h8 E8. inv_bind E lp h9 E9.
  inv_bind E V h10 E10. inv_bind E stdev h11 E11. inv_bind E predicted h12 E12.
  inv_bind E res h13 E13. inv_bind E own h14 E14. inv_bind E onlink h15 E15.
  inv_bind E low h16 E16. inv_bind E high h17 E17.
  inv_lift E9. inv_lift E11. inv_lift E16. inv_lift E17.
  destruct (standard_errors_spec Xs' V stdev E11) as [Hlen Hpos].
  assert (Hord : ordered_bounds low (map Fin lp) high).
  { eapply interval_ordered; eauto.
    rewrite Hlen. symmetry. eapply matvec_length; exact E9. }
  apply ret_Ok in E. destruct E as [-> _]. simpl. rewrite !Hsel.
  apply ordered_bounds_map; assumption.
Qed.

Lemma monotone_id : monotone (fun v => v).
Proof. intros a b Hab. exact Hab. Qed.

Lemma select_transformation_monotone `{Collaborators} (g : GAM)
    (transformation : transformation_arg) :
  order_preserving_transformation (PyGAM g) transformation ->
  exists f0, monotone f0 /\
             forall v, PartialEffectDisplay.select_transformation g transformation v
                       = map f0 v.
Proof.
  destruct transformation as [| |f]; simpl.
  - intros Hm. exists (inverse_link (gam_link g)). split; [apply Hm|]; reflexivity.
  - intros _. exists (fun v => v). split; [apply monotone_id|].
    intros v. symmetry. apply map_id.
  - intros (f0 & Hm & Hf). exists f0. auto.
Qed.

Lemma isinstance_GAM_Ok (gam : pyobj) (g : GAM) :
  isinstance_GAM gam = Ok g -> gam = PyGAM g.
Proof. destruct gam; simpl; intros E; inversion E; reflexivity. Qed.

Lemma isinstance_Term_Ok (h : heap) (term : pyobj) (l : loc) (t : Term) :
  isinstance_Term h term = Ok (l, t) -> term = PyTermRef l /\ h !! l = Some t.
Proof.
  destruct term as [| | | | |l0|]; simpl; intros E; try discriminate.
  destruct (h !! l0) as [t0|] eqn:Hl; inversion E; subst. auto.
Qed.

Lemma isinstance_Spline_or_Linear_Ok `{Collaborators} (h : heap) (term : pyobj)
    (l : loc) (t : Term) :
  isinstance_Spline_or_Linear h term = Ok (l, t) ->
  term = PyTermRef l /\ h !! l = Some t /\ (kind t = Spline \/ kind t = Linear).
Proof.
  destruct term as [| | | | |l0|]; simpl; intros E; try discriminate.
  destruct (h !! l0) as [t0|] eqn:Hl; [|discriminate].
  destruct (kind t0) eqn:Hk; inversion E; subst; auto.
Qed.

Lemma partial_effect_validation_Ok `{Collaborators} (h : heap)
    (gam term sd : pyobj) (g : GAM) (l : loc) (v : npfloat) :
  partial_effect_validation h gam term sd = Ok (g, l, v) ->
  gam = PyGAM g /\ term = PyTermRef l /\ check_scalar sd 0 = Ok v /\
  exists t, h !! l = Some t /\ (kind t = Spline \/ kind t = Linear).
Proof.
  unfold partial_effect_validation. intros E.
  apply rbind_Ok in E. destruct E as (g0 & Eg & E).
  apply rbind_Ok in E. destruct E as ([l0 t0] & Et & E).
  apply rbind_Ok in E. destruct E as (_ & _ & E).
  apply rbind_Ok in E. destruct E as (_ & _ & E).
  apply rbind_Ok in E. destruct E as (_ & _ & E).
  apply rbind_Ok in E. destruct E as (v0 & Ev & E).
  simpl in E. injection E as -> -> ->.
  apply isinstance_GAM_Ok in Eg.
  apply isinstance_Spline_or_Linear_Ok in Et. destruct Et as (-> & Hl & Hk).
  eauto 6.
Qed.

Lemma from_estimator_validation_Ok `{Collaborators} (h : heap)
    (gam term sd : pyobj) (g : GAM) (l : loc) (v : npfloat) :
  PartialEffectDisplay.from_estimator_validation h gam term sd = Ok (g, l, v) ->
  gam = PyGAM g /\ term = PyTermRef l /\ check_scalar sd 0 = Ok v /\
  exists t, h !! l = Some t.
Proof.
  unfold PartialEffectDisplay.from_estimator_validation. intros E.
  apply rbind_Ok in E. destruct E as (g0 & Eg & E).
  apply rbind_Ok in E. destruct E as ([l0 t0] & Et & E).
  apply rbind_Ok in E. destruct E as (_ & _ & E).
  apply rbind_Ok in E. destruct E as (_ & _ & E).
  apply rbind_Ok in E. destruct E as (_ & _ & E).
  apply rbind_Ok in E. destruct E as (v0 & Ev & E).
  simpl in E. injection E as -> -> ->.
  apply isinstance_GAM_Ok in Eg.
  apply isinstance_Term_Ok in Et. destruct Et as (-> & Hl).
  eauto 6.
Qed.

(** C8, as the code has it.  For a strictly positive [standard_deviations]
    and every result that is produced, [y_low <= y <= y_high] holds row by
    row when the results are on the linear scale, and more generally when
    the function applied to the three arrays keeps the order: the identity
    or a non-decreasing inverse link in [partial_effect]; the identity, a
    non-decreasing inverse link or a non-decreasing entrywise function of
    the caller in [PartialEffectDisplay.from_estimator]. *)
Theorem interval_bounds_ordered `{Collaborators} (gam term sd edges : pyobj)
    (linear_scale : bool) (X : matrix) (y : list Q)
    (transformation : transformation_arg) (residuals : bool) (h : heap) :
  strictly_positive sd ->
  (order_preserving_scale gam linear_scale ->
   forall b h',
     partial_effect gam term sd edges linear_scale h = (Ok b, h') ->
     ordered_bounds (Bunch.y_low b) (Bunch.y b) (Bunch.y_high b)) /\
  (order_preserving_transformation gam transformation ->
   forall d h',
     PartialEffectDisplay.from_estimator gam term X y sd edges transformation
       residuals h = (Ok d, h') ->
     ordered_bounds (PartialEffectDisplay.y_low d) (PartialEffectDisplay.y d)
                    (PartialEffectDisplay.y_high d)).
Proof.
  intros Hsd. split.
  - intros Hscale b h' E. unfold partial_effect in E.
    inv_bind E v h1 E0. unfold read in E0. injection E0 as E0 <-.
    destruct v as [[g l] sdv].
    apply partial_effect_validation_Ok in E0. destruct E0 as (-> & _ & Esd & _).
    eapply partial_effect_logic_bounds; [| |exact E].
    + eapply validation_scalar; eassumption.
    + destruct Hscale as [Hls|Hm]; [left; exact Hls|right; apply Hm; reflexivity].
  - intros Htr d h' E. unfold PartialEffectDisplay.from_estimator in E.
    inv_bind E v h1 E0. unfold read in E0. injection E0 as E0 <-.
    destruct v as [[g l] sdv].
    apply from_estimator_validation_Ok in E0. destruct E0 as (-> & _ & Esd & _).
    eapply from_estimator_logic_bounds; [| |exact E].
    + eapply validation_scalar; eassumption.
    + apply select_transformation_monotone. exact Htr.
Qed.

Lemma interval_bounds_ordered_witness :
  exists b h',
    partial_effect (PyGAM example_gam) (PyTermRef 0) (PyFloat (Fin 2)) PyNone true
      (example_heap Linear) = (Ok b, h') /\
    ordered_bounds (Bunch.y_low b) (Bunch.y b) (Bunch.y_high b).
Proof.
  assert (Hsd : strictly_positive (PyFloat (Fin 2)))
    by (exists (Fin 2); split; reflexivity).
  destruct (partial_effect (PyGAM example_gam) (PyTermRef 0) (PyFloat (Fin 2)) PyNone
              true (example_heap Linear)) as [[b|e] h'] eqn:E.
  - exists b, h'. split; [reflexivity|].
    exact (proj1 (interval_bounds_ordered (PyGAM example_gam) (PyTermRef 0)
                    (PyFloat (Fin 2)) PyNone true example_X []
                    TransformationNoneOrFalse false (example_heap Linear) Hsd)
                 (or_introl eq_refl) b h' E).
  - exfalso. vm_compute in E. discriminate.
Defined.

(** The claim C8 fails under a decreasing transformation:
    [from_estimator] with the transformation [lambda a: -a] of the caller
    returns, at the first grid row, [y_low = -1.47 > y = -1.96], and
    [y = -1.96 > y_high = -2.45]. *)
Lemma bounds_reversed_by_decreasing_transformation :
  strictly_positive (PyFloat (Fin 1)) /\
  exists d h',
    PartialEffectDisplay.from_estimator (PyGAM example_gam) (PyTermRef 0) example_X
      [2%Q; 4%Q; 7%Q] (PyFloat (Fin 1)) PyNone
      (TransformationCallable (map fneg)) false (example_heap Linear) = (Ok d, h') /\
    map fnorm (firstn 1 (PartialEffectDisplay.y_low d)) = [Fin (-147 # 100)] /\
    map fnorm (firstn 1 (PartialEffectDisplay.y d)) = [Fin (-49 # 25)] /\
    map fnorm (firstn 1 (PartialEffectDisplay.y_high d)) = [Fin (-49 # 20)] /\
    fle (nth 0 (PartialEffectDisplay.y_low d) NaN) (nth 0 (PartialEffectDisplay.y d) NaN)
      = false.
Proof.
  split.
  - exists (Fin 1). split; reflexivity.
  - eexists. eexists. split; [vm_compute; reflexivity|].
    vm_compute. repeat split; reflexivity.
Qed.

(** ** Partial residuals on the response scale *)

(** What line 179 stores: a tuple of one array, the sum of the response of
    the term alone and of the residuals on the response scale. *)
Lemma partial_effect_residuals_tuple `{Collaborators} (gam : pyobj)
    (g : GAM) (l : loc) (sd : npfloat) (h h' : heap) (b : Bunch.t) :
  partial_effect_logic gam g l sd false h = (Ok b, h') ->
  exists term h1 h2 X_original_transformed t own eta residuals shifted,
    call_transform term (GridArray (gam_X_ g)) h1 = (Ok X_original_transformed, h2) /\
    matvec X_original_transformed (coef_ t) = Ok own /\
    matvec (gam_model_matrix_ g) (gam_coef_ g) = Ok eta /\
    broadcast2 fsub (map Fin (gam_y_ g))
      (map (inverse_link (gam_link g)) (map Fin eta)) = Ok residuals /\
    broadcast2 fadd (map (inverse_link (gam_link g)) (map Fin own)) residuals
      = Ok shifted /\
    Bunch.y_partial_residuals b = ResidualTuple shifted.
Proof.
  intros E. unfold partial_effect_logic in E.
  inv_bind E term h1 E1. inv_bind E t h2 E2. inv_bind E dat h3 E3.
  inv_bind E Xot h4 E4. inv_bind E grid h5 E5. inv_bind E X h6 E6.
  inv_bind E t' h7 E7. inv_bind E lp h8 E8. inv_bind E V h9 E9.
  inv_bind E stdev h10 E10. inv_bind E eta h11 E11. inv_bind E resid h12 E12.
  inv_bind E low h13 E13. inv_bind E high h14 E14. inv_bind E own h15 E15.
  inv_bind E ypr h16 E16. simpl in E.
  inv_bind E shifted h17 E17. apply ret_Ok in E. destruct E as [-> _].
  inv_lift E11. inv_lift E12. inv_lift E15. inv_lift E17.
  exists term, h3, h4, Xot, t', own, eta, resid, shifted. simpl. auto 10.
Qed.

(** What line 336 computes: the transformation of the sum of the
    contribution of the term and of the residuals on the link scale, as a
    plain array. *)
Lemma from_estimator_partial_residuals `{Collaborators} (gam : pyobj) (g : GAM)
    (l : loc) (X : matrix) (y : list Q) (sd : npfloat)
    (transformation : transformation_arg) (h h' : heap)
    (d : PartialEffectDisplay.t) :
  PartialEffectDisplay.from_estimator_logic gam g l X y sd transformation true h
    = (Ok d, h') ->
  exists term h1 h2 X_transformed t own predicted res on_link_scale,
    call_transform term (GridArray X) h1 = (Ok X_transformed, h2) /\
    matvec X_transformed (coef_ t) = Ok own /\
    gam_predict g X = Ok predicted /\
    broadcast2 fsub
      (map (link (gam_link g)) (PartialEffectDisplay.clamp_to_domain g y))
      (map (link (gam_link g)) predicted) = Ok res /\
    broadcast2 fadd (map Fin own) res = Ok on_link_scale /\
    PartialEffectDisplay.y_partial_residuals d
    = Some (PartialEffectDisplay.select_transformation g transformation on_link_scale).
Proof.
  intros E. unfold PartialEffectDisplay.from_estimator_logic in E.
  inv_bind E term h1 E1. inv_bind E Xt h2 E2. inv_bind E t h3 E3.
  inv_bind E xobs h4 E4. inv_bind E grid h5 E5. inv_bind E Xs h6 E6.
  inv_bind E Xs' h7 E7. inv_bind E t' h8 E8. inv_bind E lp h9 E9.
  inv_bind E V h10 E10. inv_bind E stdev h11 E11. inv_bind E predicted h12 E12.
  inv_bind E res h13 E13. inv_bind E own h14 E14. inv_bind E onlink h15 E15.
  inv_bind E low h16 E16. inv_bind E high h17 E17.
  apply ret_Ok in E. destruct E as [-> _].
  inv_lift E12. inv_lift E13. inv_lift E14. inv_lift E15.
  exists term, h1, h2, Xt, t', own, predicted, res, onlink. simpl. auto 10.
Qed.

(** C2.  On a model of an intercept and a linear term with the reciprocal
    link, [partial_effect] with [linear_scale=False] returns the partial
    residuals as a tuple of one array, which holds
    [inverse_link(X @ coef_) + (y - inverse_link(model_matrix_ @ coef_))],
    here [2/3, 3/10, 25/168]; [PartialEffectDisplay.from_estimator] with
    [transformation=True] on the same data returns the plain array
    [inverse_link(X @ coef_ + link(y) - link(predict(X)))], here
    [1, 1/3, 1/7]. *)
Theorem response_scale_partial_residuals :
  exists b h' d h'',
    partial_effect (PyGAM example_gam2) (PyTermRef 0) (PyFloat (Fin 1)) PyNone false
      example_heap2 = (Ok b, h') /\
    (exists a, Bunch.y_partial_residuals b = ResidualTuple a /\
               map fnorm a = [Fin (2 # 3); Fin (3 # 10); Fin (25 # 168)]) /\
    PartialEffectDisplay.from_estimator (PyGAM example_gam2) (PyTermRef 0) example_X
      (gam_y_ example_gam2) (PyFloat (Fin 1)) PyNone TransformationTrue true
      example_heap2 = (Ok d, h'') /\
    (exists a, PartialEffectDisplay.y_partial_residuals d = Some a /\
               map fnorm a = [Fin 1; Fin (1 # 3); Fin (1 # 7)]).
Proof.
  eexists. eexists. eexists. eexists.
  split; [vm_compute; reflexivity|].
  split; [eexists; split; [reflexivity|vm_compute; reflexivity]|].
  split; [vm_compute; reflexivity|].
  eexists; split; [reflexivity|vm_compute; reflexivity].
Qed.

(** ** Computations on the private copy *)

Lemma local_ret {A} (a : A) : local (fun _ => ret a).
Proof. intros l1 l2 h1 h2 Hl. simpl. auto. Qed.

Lemma local_lift {A} (r : result A) : local (fun _ => lift r).
Proof. intros l1 l2 h1 h2 Hl. simpl. auto. Qed.

Lemma local_deref : local deref.
Proof.
  intros l1 l2 h1 h2 Hl. unfold deref. rewrite Hl.
  destruct (h2 !! l2) as [t|] eqn:E; simpl; rewrite ?Hl, ?E; auto.
Qed.

Lemma local_update (f : Term -> result unit * Term) :
  local (fun l h => match h !! l with
                    | Some t => (fst (f t), <[l := snd (f t)]> h)
                    | None => (Raise not_a_term, h)
                    end).
Proof.
  intros l1 l2 h1 h2 Hl. rewrite Hl.
  destruct (h2 !! l2) as [t|] eqn:E; simpl.
  - rewrite !lookup_insert_eq. split; [reflexivity|]. split; [reflexivity|].
    intros k Hk. apply lookup_insert_ne. congruence.
  - rewrite Hl, E. auto.
Qed.

Lemma local_set_params_feature (v : nat) : local (fun l => set_params_feature l v).
Proof.
  intros l1 l2 h1 h2 Hl.
  destruct (local_update (fun t => (Ok tt, set_feature t v)) l1 l2 h1 h2 Hl)
    as (H1 & H2 & H3).
  unfold set_params_feature. simpl in *.
  destruct (h1 !! l1), (h2 !! l2); simpl in *; auto.
Qed.

Lemma local_set_params_splines : local set_params_splines.
Proof.
  intros l1 l2 h1 h2 Hl.
  destruct (local_update (fun t => (Ok tt, relabel_splines t)) l1 l2 h1 h2 Hl)
    as (H1 & H2 & H3).
  unfold set_params_splines. simpl in *.
  destruct (h1 !! l1), (h2 !! l2); simpl in *; auto.
Qed.

Lemma local_call_transform `{Collaborators} (X : grid_value) :
  local (fun l => call_transform l X).
Proof.
  intros l1 l2 h1 h2 Hl. unfold call_transform. rewrite Hl.
  destruct (h2 !! l2) as [t|] eqn:E; simpl.
  - destruct (transform t X) as [r t']. simpl.
    rewrite !lookup_insert_eq. split; [reflexivity|]. split; [reflexivity|].
    intros k Hk. apply lookup_insert_ne. congruence.
  - rewrite Hl, E. auto.
Qed.

Lemma local_bind {A B} (m : loc -> M A) (k : loc -> A -> M B) :
  local m -> (forall a, local (fun l => k l a)) ->
  local (fun l => bind (m l) (k l)).
Proof.
  intros Hm Hk l1 l2 h1 h2 Hl.
  destruct (Hm l1 l2 h1 h2 Hl) as (Hfst & Hsnd & Hframe).
  unfold bind.
  destruct (m l1 h1) as [r1 h1'], (m l2 h2) as [r2 h2']. simpl in *. subst r2.
  destruct r1 as [a|e]; simpl.
  - destruct (Hk a l1 l2 h1' h2' Hsnd) as (Kfst & Ksnd & Kframe).
    split; [exact Kfst|]. split; [exact Ksnd|].
    intros j Hj. rewrite Kframe by exact Hj. apply Hframe. exact Hj.
  - auto.
Qed.

Ltac local_step :=
  first
    [ apply local_ret
    | apply local_lift
    | apply local_deref
    | apply local_set_params_splines
    | apply local_set_params_feature
    | apply local_call_transform
    | apply local_bind; [|intros ?] ].

Lemma local_smooth_grid `{Collaborators} (gam : pyobj) (g : GAM) (num : Z) :
  local (fun l => smooth_grid gam g l num).
Proof.
  unfold smooth_grid. apply local_bind; [apply local_deref|].
  intros t. destruct (kind t); repeat local_step.
Qed.

Lemma local_partial_effect_body `{Collaborators} (gam : pyobj) (g : GAM)
    (sd : npfloat) (linear_scale : bool) :
  exists body : loc -> M Bunch.t,
    local body /\
    forall l, partial_effect_logic gam g l sd linear_scale = bind (deepcopy l) body.
Proof.
  eexists. split; [|intros l; unfold partial_effect_logic; reflexivity].
  cbv zeta. destruct linear_scale; simpl;
    repeat first [apply local_smooth_grid | local_step].
Qed.

Lemma local_from_estimator_body `{Collaborators} (gam : pyobj) (g : GAM)
    (X : matrix) (y : list Q) (sd : npfloat) (transformation : transformation_arg)
    (residuals : bool) :
  exists body : loc -> M PartialEffectDisplay.t,
    local body /\
    forall l, PartialEffectDisplay.from_estimator_logic gam g l X y sd
                transformation residuals = bind (deepcopy l) body.
Proof.
  eexists. split;
    [|intros l; unfold PartialEffectDisplay.from_estimator_logic; reflexivity].
  cbv zeta. repeat first [apply local_smooth_grid | local_step].
Qed.

Lemma fresh_unallocated (h : heap) : h !! fresh (dom h) = None.
Proof. apply not_elem_of_dom. apply is_fresh. Qed.

Lemma copy_then_body_frame {A} (body : loc -> M A) (l : loc) (h : heap)
    (k : loc) (u : Term) :
  local body -> h !! k = Some u ->
  snd (bind (deepcopy l) body h) !! k = Some u.
Proof.
  intros Hbody Hk. unfold bind, deepcopy.
  destruct (h !! l) as [t|] eqn:Hl; simpl; [|exact Hk].
  set (l' := fresh (dom h)).
  assert (Hne : k <> l').
  { intros ->. unfold l' in Hk. rewrite fresh_unallocated in Hk. discriminate. }
  destruct (Hbody l' l' (<[l' := t]> h) (<[l' := t]> h) eq_refl) as (_ & _ & Hframe).
  destruct (body l' (<[l' := t]> h)) as [[a|e] h'] eqn:E; simpl in *;
    rewrite Hframe by exact Hne; rewrite lookup_insert_ne by congruence; exact Hk.
Qed.

Lemma copy_then_body_result {A} (body : loc -> M A) (l : loc) (h1 h2 : heap) :
  local body -> h1 !! l = h2 !! l ->
  fst (bind (deepcopy l) body h1) = fst (bind (deepcopy l) body h2).
Proof.
  intros Hbody Hl. unfold bind, deepcopy. rewrite Hl.
  destruct (h2 !! l) as [t|]; simpl; [|reflexivity].
  set (l1 := fresh (dom h1)). set (l2 := fresh (dom h2)).
  destruct (Hbody l1 l2 (<[l1 := t]> h1) (<[l2 := t]> h2)) as (Hfst & _ & _).
  { rewrite !lookup_insert_eq. reflexivity. }
  destruct (body l1 (<[l1 := t]> h1)) as [[a1|e1] h1'],
           (body l2 (<[l2 := t]> h2)) as [[a2|e2] h2']; simpl in *;
    congruence.
Qed.

(** Two heaps with the same objects at the locations of the first. *)
Lemma term_in_terms_agree `{Collaborators} (h h' : heap) (l : loc) (t : Term)
    (ls : list loc) :
  (forall k u, h !! k = Some u -> h' !! k = Some u) ->
  Forall (fun k => is_Some (h !! k)) ls ->
  term_in_terms h' l t ls = term_in_terms h l t ls.
Proof.
  intros Hext Hall. unfold term_in_terms.
  induction Hall as [|k ls [u Hk] _ IH]; simpl; [reflexivity|].
  rewrite IH, Hk, (Hext k u Hk). reflexivity.
Qed.

Lemma partial_effect_validation_agree `{Collaborators} (h h' : heap)
    (gam term sd : pyobj) (v : GAM * loc * npfloat) :
  (forall k u, h !! k = Some u -> h' !! k = Some u) ->
  terms_allocated h gam ->
  partial_effect_validation h gam term sd = Ok v ->
  partial_effect_validation h' gam term sd = Ok v.
Proof.
  intros Hext Halloc E. unfold partial_effect_validation in *.
  apply rbind_Ok in E. destruct E as (g & Eg & E). rewrite Eg. simpl.
  apply rbind_Ok in E. destruct E as ([l t] & Et & E).
  pose proof (isinstance_Spline_or_Linear_Ok h term l t Et) as (-> & Hl & Hk).
  assert (Et' : isinstance_Spline_or_Linear h' (PyTermRef l) = Ok (l, t)).
  { simpl. rewrite (Hext l t Hl). destruct Hk as [-> | ->]; reflexivity. }
  rewrite Et'. simpl in *.
  unfold check_membership in *.
  rewrite (term_in_terms_agree h h' l t (gam_terms g) Hext).
  - exact E.
  - apply Halloc. apply isinstance_GAM_Ok. exact Eg.
Qed.

Lemma from_estimator_validation_agree `{Collaborators} (h h' : heap)
    (gam term sd : pyobj) (v : GAM * loc * npfloat) :
  (forall k u, h !! k = Some u -> h' !! k = Some u) ->
  terms_allocated h gam ->
  PartialEffectDisplay.from_estimator_validation h gam term sd = Ok v ->
  PartialEffectDisplay.from_estimator_validation h' gam term sd = Ok v.
Proof.
  intros Hext Halloc E. unfold PartialEffectDisplay.from_estimator_validation in *.
  apply rbind_Ok in E. destruct E as (g & Eg & E). rewrite Eg. simpl.
  apply rbind_Ok in E. destruct E as ([l t] & Et & E).
  pose proof (isinstance_Term_Ok h term l t Et) as (-> & Hl).
  assert (Et' : isinstance_Term h' (PyTermRef l) = Ok (l, t)).
  { simpl. rewrite (Hext l t Hl). reflexivity. }
  rewrite Et'. simpl in *.
  unfold check_membership in *.
  rewrite (term_in_terms_agree h h' l t (gam_terms g) Hext).
  - exact E.
  - apply Halloc. apply isinstance_GAM_Ok. exact Eg.
Qed.

(** C9.  When the terms of the model are objects of the heap, a call of
    [partial_effect] or of [PartialEffectDisplay.from_estimator] leaves every
    object that existed before the call as it was, the term of the caller
    included: the relabelling and [transform] act on the copy.  A second call
    with the same arguments, made after the first, returns the same result
    or raises the same exception. *)
Theorem caller_term_untouched `{Collaborators} (gam term sd edges : pyobj)
    (linear_scale : bool) (X : matrix) (y : list Q)
    (transformation : transformation_arg) (residuals : bool) (h : heap) :
  terms_allocated h gam ->
  (let run := partial_effect gam term sd edges linear_scale h in
   (forall l t, h !! l = Some t -> snd run !! l = Some t) /\
   fst (partial_effect gam term sd edges linear_scale (snd run)) = fst run) /\
  (let run := PartialEffectDisplay.from_estimator gam term X y sd edges
                transformation residuals h in
   (forall l t, h !! l = Some t -> snd run !! l = Some t) /\
   fst (PartialEffectDisplay.from_estimator gam term X y sd edges transformation
          residuals (snd run)) = fst run).
Proof.
  intros Halloc. split; cbv zeta.
  - unfold partial_effect.
    assert (Hrun : forall h0,
              bind (read (fun h1 => partial_effect_validation h1 gam term sd))
                   (fun v => let '(g, caller_term, sd0) := v in
                             partial_effect_logic gam g caller_term sd0 linear_scale) h0
              = match partial_effect_validation h0 gam term sd with
                | Ok (g, l, v) => partial_effect_logic gam g l v linear_scale h0
                | Raise e => (Raise e, h0)
                end).
    { intros h0. unfold bind, read.
      destruct (partial_effect_validation h0 gam term sd) as [[[g l] v]|e];
        reflexivity. }
    rewrite !Hrun.
    destruct (partial_effect_validation h gam term sd) as [[[g l] v]|e] eqn:Ev.
    + destruct (local_partial_effect_body gam g v linear_scale) as (body & Hbody & Hlogic).
      rewrite !Hlogic.
      assert (Hframe : forall k u, h !! k = Some u ->
                snd (bind (deepcopy l) body h) !! k = Some u)
        by (intros k u; apply copy_then_body_frame; exact Hbody).
      split; [exact Hframe|].
      rewrite (partial_effect_validation_agree h _ gam term sd _ Hframe Halloc Ev).
      rewrite Hlogic. apply copy_then_body_result; [exact Hbody|].
      apply partial_effect_validation_Ok in Ev.
      destruct Ev as (_ & _ & _ & t & Hl & _).
      rewrite Hl. apply Hframe. exact Hl.
    + simpl. rewrite Ev. auto.
  - unfold PartialEffectDisplay.from_estimator.
    assert (Hrun : forall h0,
              bind (read (fun h1 => PartialEffectDisplay.from_estimator_validation
                                      h1 gam term sd))
                   (fun v => let '(g, caller_term, sd0) := v in
                             PartialEffectDisplay.from_estimator_logic gam g
                               caller_term X y sd0 transformation residuals) h0
              = match PartialEffectDisplay.from_estimator_validation h0 gam term sd with
                | Ok (g, l, v) =>
                    PartialEffectDisplay.from_estimator_logic gam g l X y v
                      transformation residuals h0
                | Raise e => (Raise e, h0)
                end).
    { intros h0. unfold bind, read.
      destruct (PartialEffectDisplay.from_estimator_validation h0 gam term sd)
        as [[[g l] v]|e]; reflexivity. }
    rewrite !Hrun.
    destruct (PartialEffectDisplay.from_estimator_validation h gam term sd)
      as [[[g l] v]|e] eqn:Ev.
    + destruct (local_from_estimator_body gam g X y v transformation residuals)
        as (body & Hbody & Hlogic).
      rewrite !Hlogic.
      assert (Hframe : forall k u, h !! k = Some u ->
                snd (bind (deepcopy l) body h) !! k = Some u)
        by (intros k u; apply copy_then_body_frame; exact Hbody).
      split; [exact Hframe|].
      rewrite (from_estimator_validation_agree h _ gam term sd _ Hframe Halloc Ev).
      rewrite Hlogic. apply copy_then_body_result; [exact Hbody|].
      apply from_estimator_validation_Ok in Ev.
      destruct Ev as (_ & _ & _ & t & Hl).
      rewrite Hl. apply Hframe. exact Hl.
    + simpl. rewrite Ev. auto.
Qed.

Lemma caller_term_untouched_witness :
  snd (partial_effect (PyGAM example_gam) (PyTermRef 0) (PyFloat (Fin 1)) PyNone true
         (example_heap Linear)) !! 0 = Some (example_term Linear) /\
  snd (partial_effect (PyGAM example_gam) (PyTermRef 0) (PyFloat (Fin 1)) PyNone true
         (example_heap Linear)) !! 1 = Some (note_feature (example_term Linear)) /\
  fst (partial_effect (PyGAM example_gam) (PyTermRef 0) (PyFloat (Fin 1)) PyNone true
         (snd (partial_effect (PyGAM example_gam) (PyTermRef 0) (PyFloat (Fin 1))
                 PyNone true (example_heap Linear))))
  = fst (partial_effect (PyGAM example_gam) (PyTermRef 0) (PyFloat (Fin 1)) PyNone
           true (example_heap Linear)).
Proof.
  assert (Halloc : terms_allocated (example_heap Linear) (PyGAM example_gam)).
  { intros g [= <-]. constructor; [|constructor]. eexists. reflexivity. }
  pose proof (caller_term_untouched (PyGAM example_gam) (PyTermRef 0)
                (PyFloat (Fin 1)) PyNone true example_X []
                TransformationNoneOrFalse false (example_heap Linear) Halloc)
    as [[Hframe Hagain] _].
  split; [apply Hframe; reflexivity|]. split; [vm_compute; reflexivity|].
  exact Hagain.
Defined.

(** * Further properties *)

(** ** The range of the grid of a linear or spline term *)

Lemma inject_Z_pos (z : Z) : (0 < z)%Z -> (0 < inject_Z z)%Q.
Proof. intros Hz. unfold Qlt, inject_Z; simpl. lia. Qed.

Lemma inject_Z_le (a b : Z) : (a <= b)%Z -> (inject_Z a <= inject_Z b)%Q.
Proof. intros Hab. unfold Qle, inject_Z; simpl. lia. Qed.

(** With at least two points and [start <= stop]: the first value is
    [start], the last one is [stop] itself, every value lies between them
    and the values do not decrease. *)
Lemma linspace_range (start stop : Q) (num : Z) (grid : list Q) :
  (2 <= num)%Z -> (start <= stop)%Q ->
  linspace start stop num = Ok grid ->
  (nth 0 grid 0 == start)%Q /\
  nth (Z.to_nat num - 1) grid 0%Q = stop /\
  (forall i, i < Z.to_nat num -> (start <= nth i grid 0 <= stop)%Q) /\
  (forall i, S i < Z.to_nat num -> (nth i grid 0 <= nth (S i) grid 0)%Q).
Proof.
  intros Hnum Hle E.
  destruct (linspace_spec start stop num) as (grid' & E' & Hlen & Hnth); [lia|].
  rewrite E in E'. injection E' as <-.
  set (d := inject_Z (num - 1)) in *.
  assert (Hd : (0 < d)%Q) by (apply inject_Z_pos; lia).
  set (s := ((stop - start) / d)%Q) in *.
  assert (Hs : (s * d == stop - start)%Q) by (unfold s; field; lra).
  assert (Hs0 : (0 <= s)%Q).
  { unfold s. apply Qle_shift_div_l; [exact Hd|]. lra. }
  assert (Hi : forall i, i < Z.to_nat num ->
             (0 <= inject_Z (Z.of_nat i))%Q /\ (inject_Z (Z.of_nat i) <= d)%Q).
  { intros i Hi. split.
    - change 0%Q with (inject_Z 0). apply inject_Z_le. lia.
    - apply inject_Z_le. lia. }
  split; [|split; [|split]].
  - rewrite Hnth by lia. simpl. ring.
  - unfold linspace in E.
    destruct (num <? 0)%Z eqn:Hneg; [apply Z.ltb_lt in Hneg; lia|].
    replace (1 <? num)%Z with true in E by (symmetry; apply Z.ltb_lt; lia).
    injection E as <-.
    rewrite set_last_nth.
    + match goal with |- (if ?c then _ else _) = _ => replace c with true end;
        [reflexivity|].
      symmetry. apply Nat.eqb_eq.
      rewrite !length_map.
      destruct (0 <? num - 1)%Z; [destruct (Qeq_bool _ 0)|];
        rewrite length_map, arange_length; lia.
    + rewrite !length_map.
      destruct (0 <? num - 1)%Z; [destruct (Qeq_bool _ 0)|];
        rewrite length_map, arange_length; lia.
  - intros i Hlt. rewrite Hnth by exact Hlt.
    destruct (Hi i Hlt) as [H0 H1]. split; nra.
  - intros i Hlt. rewrite !Hnth by lia.
    assert (Hstep : (inject_Z (Z.of_nat (S i)) == inject_Z (Z.of_nat i) + 1)%Q).
    { rewrite Nat2Z.inj_succ. unfold Z.succ. rewrite inject_Z_plus. reflexivity. }
    rewrite Hstep. nra.
Qed.

Lemma linear_spline_grid_linspace `{Collaborators} (g : GAM) (term : Term)
    (X : matrix) (col : list Q) (mn mx extrapolation : Q) (num : Z) :
  gam_fitted g = true -> fitted term = true ->
  kind term = Linear \/ kind term = Spline ->
  _get_column term X = Ok col -> np_min col = Ok mn -> np_max col = Ok mx ->
  generate_X_grid (PyGAM g) term X extrapolation num
  = (let? grid := linspace (mn - (mx - mn) * extrapolation)
                           (mx + (mx - mn) * extrapolation) num in
     Ok (GridArray (reshape_column grid))).
Proof.
  intros Hgam Hfit Hkind Hcol Emin Emax.
  rewrite generate_X_grid_unfold. unfold check_is_fitted_gam, check_is_fitted.
  simpl. rewrite Hgam, Hfit. simpl.
  destruct Hkind as [-> | ->]; rewrite Hcol; simpl; rewrite Emin; simpl;
    rewrite Emax; reflexivity.
Qed.

Lemma min_le_max (m M : Q) (col : list Q) :
  is_min m col -> is_max M col -> (m <= M)%Q.
Proof.
  intros [Hin _] [_ Hall]. rewrite List.Forall_forall in Hall. apply Hall, Hin.
Qed.

(** X1.  For a fitted [Linear] or [Spline] term, a non-empty feature column,
    [extrapolation >= 0] and [num >= 2], the grid is sorted, its first value
    is at most every observed value and its last value at least every
    observed value; the last value is [max_ + offset] itself.  With
    [extrapolation = 0] the grid starts at the minimum and ends at the
    maximum of the data. *)
Theorem grid_covers_data `{Collaborators} (g : GAM) (term : Term)
    (X : matrix) (col : list Q) (extrapolation : Q) (num : Z) :
  gam_fitted g = true -> fitted term = true ->
  kind term = Linear \/ kind term = Spline ->
  _get_column term X = Ok col -> col <> [] ->
  (0 <= extrapolation)%Q -> (2 <= num)%Z ->
  exists min_ max_ grid,
    is_min min_ col /\ is_max max_ col /\
    generate_X_grid (PyGAM g) term X extrapolation num
      = Ok (GridArray (reshape_column grid)) /\
    length grid = Z.to_nat num /\
    (forall i, S i < Z.to_nat num -> (nth i grid 0 <= nth (S i) grid 0)%Q) /\
    (forall v, In v col ->
       (nth 0 grid 0 <= v)%Q /\ (v <= nth (Z.to_nat num - 1) grid 0)%Q) /\
    nth (Z.to_nat num - 1) grid 0%Q = (max_ + (max_ - min_) * extrapolation)%Q /\
    (extrapolation == 0 ->
     nth 0 grid 0 == min_ /\ nth (Z.to_nat num - 1) grid 0 == max_)%Q.
Proof.
  intros Hgam Hfit Hkind Hcol Hne He Hnum.
  destruct (np_min_spec col Hne) as (mn & Emin & Hmin).
  destruct (np_max_spec col Hne) as (mx & Emax & Hmax).
  pose proof (min_le_max mn mx col Hmin Hmax) as Hmm.
  assert (Hoff : (0 <= (mx - mn) * extrapolation)%Q)
    by (apply Qmult_le_0_compat; lra).
  destruct (linspace_spec (mn - (mx - mn) * extrapolation)
              (mx + (mx - mn) * extrapolation) num) as (grid & Egrid & Hlen & _);
    [lia|].
  assert (Hends : (mn - (mx - mn) * extrapolation
                   <= mx + (mx - mn) * extrapolation)%Q) by lra.
  destruct (linspace_range _ _ num grid Hnum Hends Egrid)
    as (Hfirst & Hlast & Hrange & Hsorted).
  exists mn, mx, grid.
  split; [exact Hmin|]. split; [exact Hmax|].
  split.
  { rewrite (linear_spline_grid_linspace g term X col mn mx) by assumption.
    rewrite Egrid. reflexivity. }
  split; [exact Hlen|]. split; [exact Hsorted|].
  split.
  { intros v Hv. destruct Hmin as [_ Hlow], Hmax as [_ Hhigh].
    rewrite List.Forall_forall in Hlow, Hhigh.
    pose proof (Hlow v Hv). pose proof (Hhigh v Hv).
    rewrite Hfirst, Hlast. split; lra. }
  split; [exact Hlast|].
  intros He0. rewrite Hfirst, Hlast, He0. split; ring.
Qed.

Lemma grid_covers_data_witness :
  exists grid,
    generate_X_grid (PyGAM example_gam) (example_term Spline) example_X (1 # 100) 100
      = Ok (GridArray (reshape_column grid)) /\
    length grid = 100 /\
    (nth 0 grid 0 <= 1)%Q /\ (3 <= nth 99 grid 0)%Q /\
    nth 99 grid 0%Q = (3 + (3 - 1) * (1 # 100))%Q.
Proof.
  destruct (grid_covers_data example_gam (example_term Spline) example_X
              [1%Q; 2%Q; 3%Q] (1 # 100) 100)
    as (mn & mx & grid & Hmin & Hmax & Hgrid & Hlen & _ & Hcover & Hlast & _);
    try reflexivity.
  - right; reflexivity.
  - discriminate.
  - unfold Qle; simpl; lia.
  - lia.
  - exists grid. split; [exact Hgrid|]. split; [exact Hlen|].
    split; [apply (Hcover 1%Q); simpl; auto|].
    split; [apply (Hcover 3%Q); simpl; auto|].
    assert (Emx : mx = 3%Q).
    { destruct Hmax as [Hin Hall]. rewrite List.Forall_forall in Hall.
      assert (H3 := Hall 3%Q ltac:(simpl; auto)).
      destruct Hin as [<-|[<-|[<-|[]]]]; try reflexivity;
        unfold Qle in H3; simpl in H3; lia. }
    assert (Emn : mn = 1%Q).
    { destruct Hmin as [Hin Hall]. rewrite List.Forall_forall in Hall.
      assert (H1 := Hall 1%Q ltac:(simpl; auto)).
      destruct Hin as [<-|[<-|[<-|[]]]]; try reflexivity;
        unfold Qle in H1; simpl in H1; lia. }
    subst mx mn. exact Hlast.
Defined.

(** X2.  When every observed value of the feature equals [c], the [num] grid
    values all equal [c], whatever the extrapolation: the step of
    [np.linspace] is zero. *)
Theorem grid_of_constant_column `{Collaborators} (g : GAM) (term : Term)
    (X : matrix) (col : list Q) (c extrapolation : Q) (num : Z) :
  gam_fitted g = true -> fitted term = true ->
  kind term = Linear \/ kind term = Spline ->
  _get_column term X = Ok col -> col <> [] ->
  Forall (fun v => v == c)%Q col -> (0 <= num)%Z ->
  exists grid,
    generate_X_grid (PyGAM g) term X extrapolation num
      = Ok (GridArray (reshape_column grid)) /\
    length grid = Z.to_nat num /\
    Forall (fun v => v == c)%Q grid.
Proof.
  intros Hgam Hfit Hkind Hcol Hne Hconst Hnum.
  destruct (np_min_spec col Hne) as (mn & Emin & [Hmin _]).
  destruct (np_max_spec col Hne) as (mx & Emax & [Hmax _]).
  rewrite List.Forall_forall in Hconst.
  pose proof (Hconst mn Hmin) as Hmn. pose proof (Hconst mx Hmax) as Hmx.
  destruct (linspace_spec (mn - (mx - mn) * extrapolation)
              (mx + (mx - mn) * extrapolation) num) as (grid & Egrid & Hlen & Hnth);
    [lia|].
  exists grid. split; [|split; [exact Hlen|]].
  - rewrite (linear_spline_grid_linspace g term X col mn mx) by assumption.
    rewrite Egrid. reflexivity.
  - apply List.Forall_forall. intros v Hv.
    destruct (In_nth grid v 0%Q Hv) as (i & Hi & <-).
    rewrite Hnth by lia. rewrite Hmn, Hmx.
    unfold Qdiv. ring.
Qed.

Lemma grid_of_constant_column_witness :
  exists grid,
    generate_X_grid (PyGAM example_gam) (example_term Linear)
      (mkMatrix 1 [[5%Q]; [5%Q]]) (1 # 10) 4
      = Ok (GridArray (reshape_column grid)) /\
    length grid = 4 /\ Forall (fun v => v == 5)%Q grid.
Proof.
  apply (grid_of_constant_column example_gam (example_term Linear)
           (mkMatrix 1 [[5%Q]; [5%Q]]) [5%Q; 5%Q] 5 (1 # 10) 4);
    try reflexivity.
  - left; reflexivity.
  - discriminate.
  - repeat constructor.
  - lia.
Defined.

(** X3.  Edge cases of the grid of a fitted [Linear] or [Spline] term.  An
    empty feature column raises the [ValueError] of [np.min], whatever [num]
    is.  Otherwise a negative [num] raises the [ValueError] of
    [np.linspace], [num = 0] gives a grid without rows, and [num = 1] gives
    the single row [min_ - offset]: the upper end of the data is then not
    reached. *)
Theorem grid_edge_cases `{Collaborators} (g : GAM) (term : Term)
    (X : matrix) (col : list Q) (extrapolation : Q) (num : Z) :
  gam_fitted g = true -> fitted term = true ->
  kind term = Linear \/ kind term = Spline ->
  _get_column term X = Ok col ->
  (col = [] ->
   generate_X_grid (PyGAM g) term X extrapolation num
   = Raise (ValueError
              "zero-size array to reduction operation minimum which has no identity")) /\
  (col <> [] -> (num < 0)%Z ->
   generate_X_grid (PyGAM g) term X extrapolation num
   = Raise (ValueError "Number of samples must be non-negative")) /\
  (col <> [] -> num = 0%Z ->
   generate_X_grid (PyGAM g) term X extrapolation num
   = Ok (GridArray (mkMatrix 1 []))) /\
  (col <> [] -> num = 1%Z ->
   exists min_ max_ v,
     is_min min_ col /\ is_max max_ col /\
     generate_X_grid (PyGAM g) term X extrapolation num
     = Ok (GridArray (mkMatrix 1 [[v]])) /\
     (v == min_ - (max_ - min_) * extrapolation)%Q).
Proof.
  intros Hgam Hfit Hkind Hcol. split; [|split; [|split]].
  - intros ->. rewrite generate_X_grid_unfold.
    unfold check_is_fitted_gam, check_is_fitted. simpl. rewrite Hgam, Hfit. simpl.
    destruct Hkind as [-> | ->]; rewrite Hcol; reflexivity.
  - intros Hne Hneg.
    destruct (np_min_spec col Hne) as (mn & Emin & _).
    destruct (np_max_spec col Hne) as (mx & Emax & _).
    rewrite (linear_spline_grid_linspace g term X col mn mx) by assumption.
    unfold linspace. apply Z.ltb_lt in Hneg. rewrite Hneg. reflexivity.
  - intros Hne ->.
    destruct (np_min_spec col Hne) as (mn & Emin & _).
    destruct (np_max_spec col Hne) as (mx & Emax & _).
    rewrite (linear_spline_grid_linspace g term X col mn mx) by assumption.
    reflexivity.
  - intros Hne ->.
    destruct (np_min_spec col Hne) as (mn & Emin & Hmin).
    destruct (np_max_spec col Hne) as (mx & Emax & Hmax).
    exists mn, mx. eexists. split; [exact Hmin|]. split; [exact Hmax|]. split.
    + rewrite (linear_spline_grid_linspace g term X col mn mx) by assumption.
      reflexivity.
    + cbv beta. simpl inject_Z. ring.
Qed.

Lemma grid_edge_cases_witness :
  generate_X_grid (PyGAM example_gam) (example_term Linear) (mkMatrix 1 []) (1 # 100) 100
  = Raise (ValueError
             "zero-size array to reduction operation minimum which has no identity") /\
  generate_X_grid (PyGAM example_gam) (example_term Linear) example_X (1 # 100) (-1)
  = Raise (ValueError "Number of samples must be non-negative") /\
  generate_X_grid (PyGAM example_gam) (example_term Linear) example_X (1 # 100) 0
  = Ok (GridArray (mkMatrix 1 [])).
Proof.
  destruct (@grid_edge_cases example_collaborators example_gam (example_term Linear) (mkMatrix 1 []) []
              (1 # 100) 100 eq_refl eq_refl (or_introl eq_refl) eq_refl)
    as (Hempty & _).
  destruct (@grid_edge_cases example_collaborators example_gam (example_term Linear) example_X
              [1%Q; 2%Q; 3%Q] (1 # 100) (-1) eq_refl eq_refl (or_introl eq_refl)
              eq_refl) as (_ & Hneg & _).
  destruct (@grid_edge_cases example_collaborators example_gam (example_term Linear) example_X
              [1%Q; 2%Q; 3%Q] (1 # 100) 0 eq_refl eq_refl (or_introl eq_refl)
              eq_refl) as (_ & _ & Hzero & _).
  split; [apply Hempty; reflexivity|].
  split; [apply Hneg; [discriminate|lia]|].
  apply Hzero; [discriminate|reflexivity].
Defined.

(** ** Checks and dispatch of [generate_X_grid] *)

(** X4.  The checks of [generate_X_grid] come in the order of the source: an
    argument [gam] that is no [GAM] raises a [TypeError] whatever the other
    arguments are; then a [term] that is no [Term] raises a [TypeError]; then
    a model that is not fitted raises [NotFittedError], and only then a term
    that is not fitted does. *)
Theorem generate_X_grid_checks `{Collaborators} (h : heap) (gam term : pyobj)
    (X : matrix) (extrapolation : Q) (num : Z) :
  ((forall g, gam <> PyGAM g) ->
   generate_X_grid_call h gam term X extrapolation num
   = Raise (TypeError "Parameter `gam` must be instance of GAM")) /\
  (forall g, gam = PyGAM g ->
     ((forall l t, term = PyTermRef l -> h !! l <> Some t) ->
      generate_X_grid_call h gam term X extrapolation num
      = Raise (TypeError "Parameter `term` must be instance of Term")) /\
     (forall l t, term = PyTermRef l -> h !! l = Some t ->
        (gam_fitted g = false ->
         generate_X_grid_call h gam term X extrapolation num = Raise NotFittedError) /\
        (gam_fitted g = true -> fitted t = false ->
         generate_X_grid_call h gam term X extrapolation num = Raise NotFittedError))).
Proof.
  split.
  - intros Hgam. unfold generate_X_grid_call.
    destruct gam; try reflexivity. exfalso. eapply Hgam. reflexivity.
  - intros g ->. split.
    + intros Hterm. unfold generate_X_grid_call. simpl.
      destruct term as [| | | | |l|]; try reflexivity. simpl.
      destruct (h !! l) as [t|] eqn:Hl; [|reflexivity].
      exfalso. eapply Hterm; [reflexivity|exact Hl].
    + intros l t -> Hl. unfold generate_X_grid_call. simpl. rewrite Hl. simpl.
      rewrite generate_X_grid_unfold. unfold check_is_fitted_gam, check_is_fitted.
      simpl. split.
      * intros ->. reflexivity.
      * intros -> ->. reflexivity.
Qed.

(** ** Tensor terms with sub-terms of any kind *)

Lemma indices_lengths (shp idx : list nat) :
  In idx (indices shp) -> length idx = length shp.
Proof.
  revert idx. induction shp as [|n rest IH]; intros idx Hin; simpl in Hin.
  - destruct Hin as [<-|[]]. reflexivity.
  - apply in_flat_map in Hin. destruct Hin as (i & _ & Hin).
    apply in_map_iff in Hin. destruct Hin as (idx' & <- & Hin').
    simpl. rewrite (IH idx' Hin'). reflexivity.
Qed.

Lemma pick_length (axes : list (list Q)) (idx : list nat) :
  length idx = length axes -> length (pick axes idx) = length axes.
Proof.
  revert idx. induction axes as [|a axes IH]; intros [|i idx] Hlen;
    simpl in *; try discriminate; try reflexivity.
  rewrite IH by lia. reflexivity.
Qed.

Lemma pick_nth (axes : list (list Q)) (idx : list nat) (j : nat) :
  length idx = length axes -> j < length axes ->
  nth j (pick axes idx) 0%Q = nth (nth j idx 0) (nth j axes []) 0%Q.
Proof.
  revert idx j. induction axes as [|a axes IH]; intros [|i idx] j Hlen Hj;
    simpl in *; try lia.
  destruct j as [|j]; [reflexivity|]. apply IH; lia.
Qed.

(** Array [j] of the meshgrid, flattened, is column [j] of the cartesian
    grid. *)
Lemma meshgrid_is_cartesian_column (axes : list (list Q)) (j : nat) :
  j < length axes ->
  data (nth j (meshgrid_ij axes) (mkNdarray [] [])) = column (cartesian axes) j.
Proof.
  intros Hj. unfold meshgrid_ij, column, cartesian. simpl.
  rewrite (nth_map_lt _ _ _ _ 0) by (rewrite length_seq; exact Hj).
  rewrite seq_nth by exact Hj. simpl.
  rewrite cartesian_rows_indices, map_map.
  apply map_ext_in. intros idx Hidx.
  apply indices_lengths in Hidx. rewrite length_map in Hidx.
  symmetry. apply pick_nth; assumption.
Qed.

Lemma sequence_Ok_map {A B} (f : A -> result B) (l : list A) (bs : list B) :
  Forall2 (fun a b => f a = Ok b) l bs -> sequence (map f l) = Ok bs.
Proof.
  induction 1 as [|a b l bs Hab _ IH]; simpl; [reflexivity|].
  rewrite Hab. simpl. rewrite IH. reflexivity.
Qed.

Lemma sequence_first_failure {A B} (f : A -> result B) (pre post : list A)
    (bad : A) (e : exn) :
  Forall (fun a => exists b, f a = Ok b) pre -> f bad = Raise e ->
  sequence (map f (pre ++ bad :: post)) = Raise e.
Proof.
  intros Hpre Hbad. induction Hpre as [|a pre (b & Hb) _ IH]; simpl.
  - rewrite Hbad. reflexivity.
  - rewrite Hb. simpl. rewrite IH. reflexivity.
Qed.

(** X5.  A fitted [Tensor] term whose sub-terms all have an array for grid,
    of whatever kind and length: the cartesian grid has one row for each
    combination of axis values, as many as the product of the axis lengths,
    every row has one entry per sub-term, and the meshgrid has one array per
    sub-term which, read in row-major order, is the corresponding column of
    the cartesian grid. *)
Theorem tensor_grid_of_any_axes `{Collaborators} (g : GAM) (term : Term)
    (X : matrix) (extrapolation : Q) (num : Z) (grids : list matrix) :
  gam_fitted g = true -> fitted term = true -> kind term = Tensor ->
  Forall2 (fun s M => generate_X_grid (PyGAM g) s X extrapolation num
                      = Ok (GridArray M)) (splines term) grids ->
  let axes := map ravel grids in
  generate_X_grid (PyGAM g) term X extrapolation num
    = Ok (GridTensor (cartesian axes) (meshgrid_ij axes)) /\
  nrows (cartesian axes) = size_of (map (@length Q) axes) /\
  wf_matrix (cartesian axes) /\
  ncols (cartesian axes) = length (splines term) /\
  length (meshgrid_ij axes) = length (splines term) /\
  forall j, j < length (splines term) ->
    shape (nth j (meshgrid_ij axes) (mkNdarray [] [])) = map (@length Q) axes /\
    data (nth j (meshgrid_ij axes) (mkNdarray [] [])) = column (cartesian axes) j.
Proof.
  intros Hgam Hfit Hkind Hgrids axes.
  assert (Hk : length axes = length (splines term)).
  { unfold axes. rewrite length_map. symmetry. eapply Forall2_length. exact Hgrids. }
  split.
  { rewrite generate_X_grid_unfold. unfold check_is_fitted_gam, check_is_fitted.
    simpl. rewrite Hgam, Hfit, Hkind. simpl.
    rewrite (sequence_Ok_map _ (splines term) axes); [reflexivity|].
    unfold axes. clear Hk. induction Hgrids as [|s M ss Ms HsM _ IH]; simpl;
      constructor; [rewrite HsM; reflexivity|exact IH]. }
  split; [apply cartesian_rows_length|].
  split.
  { unfold wf_matrix, cartesian. simpl. apply List.Forall_forall. intros r Hr.
    rewrite cartesian_rows_indices in Hr. apply in_map_iff in Hr.
    destruct Hr as (idx & <- & Hidx). apply indices_lengths in Hidx.
    rewrite length_map in Hidx. apply pick_length. exact Hidx. }
  split; [exact Hk|].
  split; [unfold meshgrid_ij; rewrite length_map, length_seq; exact Hk|].
  intros j Hj. split.
  - unfold meshgrid_ij.
    rewrite (nth_map_lt _ _ _ _ 0) by (rewrite length_seq, Hk; exact Hj).
    reflexivity.
  - apply meshgrid_is_cartesian_column. rewrite Hk. exact Hj.
Qed.

Lemma tensor_grid_of_any_axes_witness :
  exists grid mesh,
    generate_X_grid (PyGAM example_gam) example_mixed_tensor example_X2 (1 # 100) 2
      = Ok (GridTensor grid mesh) /\
    nrows grid = 6 /\ ncols grid = 2 /\ length mesh = 2 /\
    data (nth 0 mesh (mkNdarray [] [])) = column grid 0 /\
    data (nth 1 mesh (mkNdarray [] [])) = column grid 1.
Proof.
  pose proof (fun grids =>
                @tensor_grid_of_any_axes example_collaborators example_gam
                  example_mixed_tensor example_X2 (1 # 100) 2 grids
                  eq_refl eq_refl eq_refl) as Hthm.
  edestruct Hthm as (Hgrid & Hrows & _ & Hcols & Hmesh & Hcolumns).
  { econstructor; [vm_compute; reflexivity|].
    econstructor; [vm_compute; reflexivity|]. constructor. }
  eexists. eexists. split; [exact Hgrid|].
  split; [rewrite Hrows; reflexivity|].
  split; [exact Hcols|]. split; [exact Hmesh|].
  split; [apply (Hcolumns 0); simpl; lia|apply (Hcolumns 1); simpl; lia].
Defined.

(** X6.  A [Tensor] term fails on its first sub-term without an array for
    grid: when the sub-terms before it have one, an exception raised for it
    is the exception of the whole call, and a sub-term whose grid is [None]
    or a pair (a [Tensor] inside the [Tensor]) raises [AttributeError], from
    the call of [ravel]. *)
Theorem tensor_grid_first_failure `{Collaborators} (g : GAM) (term : Term)
    (X : matrix) (extrapolation : Q) (num : Z) (pre post : list Term) (bad : Term) :
  gam_fitted g = true -> fitted term = true -> kind term = Tensor ->
  splines term = pre ++ bad :: post ->
  Forall (fun s => exists M, generate_X_grid (PyGAM g) s X extrapolation num
                             = Ok (GridArray M)) pre ->
  (forall e, generate_X_grid (PyGAM g) bad X extrapolation num = Raise e ->
             generate_X_grid (PyGAM g) term X extrapolation num = Raise e) /\
  (generate_X_grid (PyGAM g) bad X extrapolation num = Ok GridNone ->
   generate_X_grid (PyGAM g) term X extrapolation num = Raise AttributeError) /\
  (forall grid mesh,
     generate_X_grid (PyGAM g) bad X extrapolation num = Ok (GridTensor grid mesh) ->
     generate_X_grid (PyGAM g) term X extrapolation num = Raise AttributeError).
Proof.
  intros Hgam Hfit Hkind Hsplines Hpre.
  assert (Hfail : forall e,
            (let? grid := generate_X_grid (PyGAM g) bad X extrapolation num in
             grid_ravel grid) = Raise e ->
            generate_X_grid (PyGAM g) term X extrapolation num = Raise e).
  { intros e Hbad. rewrite generate_X_grid_unfold.
    unfold check_is_fitted_gam, check_is_fitted. simpl.
    rewrite Hgam, Hfit, Hkind, Hsplines. simpl.
    rewrite (sequence_first_failure _ pre post bad e); [reflexivity| |exact Hbad].
    eapply List.Forall_impl; [|exact Hpre]. intros s (M & HM).
    exists (ravel M). rewrite HM. reflexivity. }
  split; [|split].
  - intros e He. apply Hfail. rewrite He. reflexivity.
  - intros Hnone. apply Hfail. rewrite Hnone. reflexivity.
  - intros grid mesh Hpair. apply Hfail. rewrite Hpair. reflexivity.
Qed.

Lemma tensor_grid_first_failure_witness :
  generate_X_grid (PyGAM example_gam) example_nested_tensor example_X2 (1 # 100) 3
  = Raise AttributeError.
Proof.
  destruct (@tensor_grid_first_failure example_collaborators example_gam
              example_nested_tensor example_X2 (1 # 100) 3 [example_spline 0] []
              example_tensor eq_refl eq_refl eq_refl eq_refl) as (_ & _ & Hpair).
  - constructor; [|constructor]. eexists. vm_compute. reflexivity.
  - eapply Hpair. vm_compute. reflexivity.
Defined.

(** ** The interval of [partial_effect] on the linear scale *)





(** ** What [standard_deviations] and [residuals] change *)

Lemma bind_agree {A B} (P : B -> B -> Prop) (m : M A) (k1 k2 : A -> M B) (h : heap) :
  (forall a h1, m h = (Ok a, h1) -> outcomes_agree P (k1 a h1) (k2 a h1)) ->
  outcomes_agree P (bind m k1 h) (bind m k2 h).
Proof.
  intros Hk. unfold bind. destruct (m h) as [[a|e] h1].
  - apply Hk. reflexivity.
  - split; reflexivity.
Qed.

Lemma bind_lift_Ok {A B} (a : A) (k : A -> M B) (h : heap) :
  bind (lift (Ok a)) k h = k a h.
Proof. reflexivity. Qed.

Lemma broadcast2_Ok (f : npfloat -> npfloat -> npfloat) (a b : list npfloat) :
  length a = length b ->
  broadcast2 f a b = Ok (map (fun p => f (fst p) (snd p)) (combine a b)).
Proof. intros Hlen. unfold broadcast2. rewrite Hlen, Nat.eqb_refl. reflexivity. Qed.

Ltac agree_step a h E := apply bind_agree; intros a h E.

Lemma partial_effect_logic_agree `{Collaborators} (gam : pyobj) (g : GAM) (l : loc)
    (v1 v2 : npfloat) (linear_scale : bool) (h : heap) :
  outcomes_agree same_but_interval
    (partial_effect_logic gam g l v1 linear_scale h)
    (partial_effect_logic gam g l v2 linear_scale h).
Proof.
  unfold partial_effect_logic. cbv zeta.
  agree_step term' h1 E1. agree_step t h2 E2. agree_step dat h3 E3.
  agree_step Xot h4 E4. agree_step grid h5 E5. agree_step X h6 E6.
  agree_step t' h7 E7. agree_step lp h8 E8. agree_step V h9 E9.
  agree_step stdev h10 E10. agree_step eta h11 E11. agree_step resid h12 E12.
  inv_lift E8. inv_lift E10.
  destruct (standard_errors_spec X V stdev E10) as [Hlen _].
  assert (Hlens : forall v, length (map Fin lp) = length (map (fmul v) stdev)).
  { intros v. rewrite !length_map, Hlen. eapply matvec_length; exact E8. }
  rewrite !(broadcast2_Ok fsub) by apply Hlens.
  rewrite !bind_lift_Ok.
  rewrite !(broadcast2_Ok fadd) by apply Hlens.
  rewrite !bind_lift_Ok.
  agree_step own h15 E15. agree_step ypr h16 E16.
  destruct linear_scale; simpl.
  - split; [reflexivity|]. simpl. repeat split.
  - agree_step shifted h17 E17. split; [reflexivity|]. simpl. repeat split.
Qed.

Lemma from_estimator_logic_agree `{Collaborators} (gam : pyobj) (g : GAM) (l : loc)
    (X : matrix) (y : list Q) (v1 v2 : npfloat) (transformation : transformation_arg)
    (residuals : bool) (h : heap) :
  outcomes_agree same_display_but_interval
    (PartialEffectDisplay.from_estimator_logic gam g l X y v1 transformation
       residuals h)
    (PartialEffectDisplay.from_estimator_logic gam g l X y v2 transformation
       residuals h).
Proof.
  unfold PartialEffectDisplay.from_estimator_logic. cbv zeta.
  agree_step term' h1 E1. agree_step Xt h2 E2. agree_step t h3 E3.
  agree_step xobs h4 E4. agree_step grid h5 E5. agree_step Xs h6 E6.
  agree_step Xs' h7 E7. agree_step t' h8 E8. agree_step lp h9 E9.
  agree_step V h10 E10. agree_step stdev h11 E11. agree_step predicted h12 E12.
  agree_step res h13 E13. agree_step own h14 E14. agree_step onlink h15 E15.
  inv_lift E9. inv_lift E11.
  destruct (standard_errors_spec Xs' V stdev E11) as [Hlen _].
  assert (Hlens : forall v, length (map Fin lp) = length (map (fmul v) stdev)).
  { intros v. rewrite !length_map, Hlen. eapply matvec_length; exact E9. }
  rewrite !(broadcast2_Ok fsub) by apply Hlens.
  rewrite !bind_lift_Ok.
  rewrite !(broadcast2_Ok fadd) by apply Hlens.
  rewrite !bind_lift_Ok.
  split; [reflexivity|]. simpl. repeat split.
Qed.

(** X8.  Among the values of [standard_deviations] that pass the check, the
    value changes [y_low] and [y_high] only: two calls that differ in it end
    in the same heap and either raise the same exception or return results
    with the same [x], [y], [x_obs], partial residuals and meshgrid.  This
    holds for [partial_effect] and for
    [PartialEffectDisplay.from_estimator]. *)
Theorem standard_deviations_changes_interval_only `{Collaborators}
    (gam term sd1 sd2 edges : pyobj) (v1 v2 : npfloat) (linear_scale : bool)
    (X : matrix) (y : list Q) (transformation : transformation_arg)
    (residuals : bool) (h : heap) :
  check_scalar sd1 0 = Ok v1 -> check_scalar sd2 0 = Ok v2 ->
  outcomes_agree same_but_interval
    (partial_effect gam term sd1 edges linear_scale h)
    (partial_effect gam term sd2 edges linear_scale h) /\
  outcomes_agree same_display_but_interval
    (PartialEffectDisplay.from_estimator gam term X y sd1 edges transformation
       residuals h)
    (PartialEffectDisplay.from_estimator gam term X y sd2 edges transformation
       residuals h).
Proof.
  intros Hsd1 Hsd2. split.
  - unfold partial_effect, bind, read, partial_effect_validation.
    destruct (isinstance_GAM gam) as [g|e]; simpl; [|split; reflexivity].
    destruct (isinstance_Spline_or_Linear h term) as [[l t]|e]; simpl;
      [|split; reflexivity].
    destruct (check_is_fitted_gam g) as [[]|e]; simpl; [|split; reflexivity].
    destruct (check_is_fitted t) as [[]|e]; simpl; [|split; reflexivity].
    destruct (check_membership h l t g) as [[]|e]; simpl; [|split; reflexivity].
    rewrite Hsd1, Hsd2. simpl. apply partial_effect_logic_agree.
  - unfold PartialEffectDisplay.from_estimator, bind, read,
      PartialEffectDisplay.from_estimator_validation.
    destruct (isinstance_GAM gam) as [g|e]; simpl; [|split; reflexivity].
    destruct (isinstance_Term h term) as [[l t]|e]; simpl; [|split; reflexivity].
    destruct (check_is_fitted_gam g) as [[]|e]; simpl; [|split; reflexivity].
    destruct (check_is_fitted t) as [[]|e]; simpl; [|split; reflexivity].
    destruct (check_membership h l t g) as [[]|e]; simpl; [|split; reflexivity].
    rewrite Hsd1, Hsd2. simpl. apply from_estimator_logic_agree.
Qed.

Lemma standard_deviations_changes_interval_only_witness :
  outcomes_agree same_but_interval
    (partial_effect (PyGAM example_gam) (PyTermRef 0) (PyFloat (Fin 1)) PyNone true
       (example_heap Linear))
    (partial_effect (PyGAM example_gam) (PyTermRef 0) (PyInt 3) PyNone true
       (example_heap Linear)).
Proof.
  exact (proj1 (@standard_deviations_changes_interval_only example_collaborators
                  (PyGAM example_gam) (PyTermRef 0) (PyFloat (Fin 1)) (PyInt 3) PyNone
                  (Fin 1) (Fin (inject_Z 3)) true example_X []
                  TransformationNoneOrFalse false (example_heap Linear)
                  eq_refl eq_refl)).
Defined.


(** ** The evaluation grid of the two entry points *)

Lemma linspace_length (start stop : Q) (num : Z) (grid : list Q) :
  linspace start stop num = Ok grid -> length grid = Z.to_nat num.
Proof.
  intros E. destruct (Z.ltb_spec num 0) as [Hneg|Hpos].
  - unfold linspace in E. apply Z.ltb_lt in Hneg. rewrite Hneg in E. discriminate.
  - destruct (linspace_spec start stop num Hpos) as (grid' & E' & Hlen & _).
    congruence.
Qed.

Lemma generate_X_grid_linear_spline_Ok `{Collaborators} (gam : pyobj) (t : Term)
    (X : matrix) (extrapolation : Q) (num : Z) (gv : grid_value) :
  kind t = Linear \/ kind t = Spline ->
  generate_X_grid gam t X extrapolation num = Ok gv ->
  exists grid, gv = GridArray (reshape_column grid) /\ length grid = Z.to_nat num.
Proof.
  intros Hkind E. rewrite generate_X_grid_unfold in E.
  apply rbind_Ok in E. destruct E as (g & _ & E).
  apply rbind_Ok in E. destruct E as (_ & _ & E).
  apply rbind_Ok in E. destruct E as (_ & _ & E).
  assert (E' : (let? X_data := _get_column t X in
                let? min_ := np_min X_data in
                let? max_ := np_max X_data in
                let offset := ((max_ - min_) * extrapolation)%Q in
                let? grid := linspace (min_ - offset) (max_ + offset) num in
                Ok (GridArray (reshape_column grid))) = Ok gv)
    by (destruct Hkind as [Hk|Hk]; rewrite Hk in E; exact E).
  clear E. apply rbind_Ok in E'. destruct E' as (col & _ & E).
  apply rbind_Ok in E. destruct E as (mn & _ & E).
  apply rbind_Ok in E. destruct E as (mx & _ & E).
  cbv zeta in E. apply rbind_Ok in E. destruct E as (grid & Egrid & E).
  injection E as <-. exists grid. split; [reflexivity|].
  eapply linspace_length; exact Egrid.
Qed.

Lemma deepcopy_Ok (l l' : loc) (h h' : heap) :
  deepcopy l h = (Ok l', h') ->
  exists t, h !! l = Some t /\ h' !! l' = Some t.
Proof.
  unfold deepcopy. destruct (h !! l) as [t|]; [|discriminate].
  intros [= <- <-]. exists t. split; [reflexivity|]. apply lookup_insert_eq.
Qed.

Lemma deref_Ok (l : loc) (h h' : heap) (t : Term) :
  deref l h = (Ok t, h') -> h !! l = Some t /\ h' = h.
Proof.
  unfold deref. destruct (h !! l) as [t0|]; [|discriminate].
  intros [= -> ->]. auto.
Qed.

Lemma call_transform_Ok `{Collaborators} (l : loc) (X : grid_value) (h h' : heap)
    (M0 : matrix) :
  call_transform l X h = (Ok M0, h') ->
  exists t, h !! l = Some t /\ h' !! l = Some (snd (transform t X)).
Proof.
  unfold call_transform. destruct (h !! l) as [t|]; [|discriminate].
  destruct (transform t X) as [r t'] eqn:Et. intros [= -> <-].
  exists t. split; [reflexivity|]. rewrite Et. apply lookup_insert_eq.
Qed.

Lemma smooth_grid_linear_spline `{Collaborators} (gam : pyobj) (g : GAM) (l : loc)
    (num : Z) (h h' : heap) (t : Term) (p : grid_value * option (list ndarray)) :
  h !! l = Some t -> kind t = Linear \/ kind t = Spline ->
  smooth_grid gam g l num h = (Ok p, h') ->
  exists grid, p = (GridArray (reshape_column grid), None) /\
               length grid = Z.to_nat num /\
               h' !! l = Some (set_feature t 0).
Proof.
  intros Hl Hkind E. unfold smooth_grid in E.
  inv_bind E t0 h1 E1. apply deref_Ok in E1. destruct E1 as [E1 ->].
  assert (t0 = t) by congruence. subst t0.
  assert (E' : bind (lift (generate_X_grid gam t (gam_X_ g) (1 # 100) num))
                 (fun X_smooth => bind (set_params_feature l 0)
                                       (fun _ => ret (X_smooth, None))) h
               = (Ok p, h'))
    by (destruct Hkind as [Hk|Hk]; rewrite Hk in E; exact E).
  clear E. inv_bind E' gv h2 E2. inv_lift E2.
  inv_bind E' u h3 E3. apply ret_Ok in E'. destruct E' as [-> ->].
  destruct (generate_X_grid_linear_spline_Ok gam t _ _ num gv Hkind E2)
    as (grid & -> & Hlen).
  exists grid. split; [reflexivity|]. split; [exact Hlen|].
  unfold set_params_feature in E3. rewrite Hl in E3. injection E3 as _ <-.
  apply lookup_insert_eq.
Qed.

(** X10.  When [transform] keeps the class of a term, every bundle returned
    by [partial_effect] has a grid [x] of exactly [100] one-element rows and
    no meshgrid: the branch for [Tensor] terms of lines 132 to 135 is never
    taken, since line 106 admits [Spline] and [Linear] terms only. *)
Theorem partial_effect_grid_size `{Collaborators} (gam term sd edges : pyobj)
    (linear_scale : bool) (h h' : heap) (b : Bunch.t) :
  kind_preserving ->
  partial_effect gam term sd edges linear_scale h = (Ok b, h') ->
  exists grid,
    Bunch.x b = GridArray (reshape_column grid) /\ length grid = 100 /\
    Bunch.meshgrid b = None.
Proof.
  intros Hkp E. unfold partial_effect in E.
  inv_bind E v h0 E0. unfold read in E0. injection E0 as E0 <-.
  destruct v as [[g l] sdv].
  apply partial_effect_validation_Ok in E0.
  destruct E0 as (-> & -> & _ & t & Hl & Hkind).
  unfold partial_effect_logic in E.
  inv_bind E term' h1 E1. inv_bind E t1 h2 E2. inv_bind E dat h3 E3.
  inv_bind E Xot h4 E4. inv_bind E grid h5 E5.
  apply deepcopy_Ok in E1. destruct E1 as (t0 & Hl0 & Hcopy).
  assert (t0 = t) by congruence. subst t0.
  apply deref_Ok in E2. destruct E2 as [_ ->]. inv_lift E3.
  apply call_transform_Ok in E4. destruct E4 as (t2 & Ht2 & Hafter).
  assert (t2 = t) by congruence. subst t2.
  assert (Hkind' : kind (snd (transform t (GridArray (gam_X_ g)))) = Linear \/
                   kind (snd (transform t (GridArray (gam_X_ g)))) = Spline)
    by (rewrite Hkp; tauto).
  destruct (smooth_grid_linear_spline _ _ _ _ _ _ _ _ Hafter Hkind' E5)
    as (pts & -> & Hlen & _).
  cbv zeta in E. simpl fst in E. simpl snd in E.
  inv_bind E X h6 E6. inv_bind E t' h7 E7. inv_bind E lp h8 E8.
  inv_bind E V h9 E9. inv_bind E stdev h10 E10. inv_bind E eta h11 E11.
  inv_bind E resid h12 E12. inv_bind E low h13 E13. inv_bind E high h14 E14.
  inv_bind E own h15 E15. inv_bind E ypr h16 E16.
  exists pts. destruct linear_scale; simpl in E.
  - apply ret_Ok in E. destruct E as [-> _]. simpl. auto.
  - inv_bind E shifted h17 E17. apply ret_Ok in E. destruct E as [-> _].
    simpl. auto.
Qed.

Lemma example_transform_kind : @kind_preserving example_collaborators.
Proof.
  intros t X. simpl. unfold example_transform.
  destruct X as [M0| |]; [|reflexivity|reflexivity].
  destruct (feature t <? ncols M0); [|reflexivity].
  destruct (kind t) eqn:Hk; simpl; try exact Hk; reflexivity.
Qed.

Lemma partial_effect_grid_size_witness :
  exists b h' grid,
    partial_effect (PyGAM example_gam) (PyTermRef 0) (PyFloat (Fin 1)) PyNone false
      (example_heap Linear) = (Ok b, h') /\
    Bunch.x b = GridArray (reshape_column grid) /\ length grid = 100 /\
    Bunch.meshgrid b = None.
Proof.
  destruct (partial_effect (PyGAM example_gam) (PyTermRef 0) (PyFloat (Fin 1)) PyNone
              false (example_heap Linear)) as [[b|e] h'] eqn:E.
  - destruct (@partial_effect_grid_size example_collaborators _ _ _ _ _ _ _ _
                example_transform_kind E) as (grid & Hx & Hlen & Hmesh).
    exists b, h', grid. auto.
  - exfalso. vm_compute in E. discriminate.
Defined.

(** ** The relabelling of the active feature *)





(** ** The grid of a display, class by class *)







(** ** The first assertion on the standard errors *)

Lemma fold_left_Qplus_zero (l : list Q) (a : Q) :
  Forall (fun v => v == 0)%Q l -> (fold_left Qplus l a == a)%Q.
Proof.
  revert a. induction l as [|v l IH]; intros a Hl; simpl; [reflexivity|].
  inversion Hl as [|? ? Hv Hl']; subst. rewrite IH by exact Hl'.
  rewrite Hv. ring.
Qed.

Lemma products_with_zero (u r : list Q) :
  Forall (fun v => v == 0)%Q r ->
  Forall (fun v => v == 0)%Q (map (fun q => (fst q * snd q)%Q) (combine u r)).
Proof.
  intros Hr. revert u. induction Hr as [|v r Hv Hr IH]; intros [|a u]; simpl;
    try constructor.
  - rewrite Hv. ring.
  - apply IH.
Qed.

Lemma In_combine_map {A B} (f : A -> B) (l : list A) (a : A) :
  In a l -> In (f a, a) (combine (map f l) l).
Proof.
  induction l as [|b l IH]; simpl; [tauto|].
  intros [->|Hin]; [left; reflexivity|right; apply IH; exact Hin].
Qed.

(** X13.  The assertion [np.all(stdev_array > 0)] of lines 155 and 315: when
    the shapes fit and some row of the transformed grid holds zeros only,
    the variance of that row is zero, its square root is not positive, and
    the computation of the standard errors ends in an [AssertionError]. *)
Theorem zero_row_fails_assertion `{Collaborators} (X V : matrix) (r : list Q) :
  sqrt_not_positive ->
  ncols X = nrows V ->
  In r (rows X) -> Forall (fun v => v == 0)%Q r ->
  standard_errors X V = Raise AssertionError.
Proof.
  intros Hsqrt Hshape Hin Hzero.
  unfold standard_errors, fast_variance, matmul.
  rewrite Hshape, Nat.eqb_refl. cbv beta iota zeta delta [rbind].
  set (xv := fun r0 => map (fun j => dot r0 (column V j)) (seq 0 (ncols V))).
  set (stdev := map np_sqrt _).
  assert (Hneg : forallb (fun s => flt (Fin 0) s) stdev = false).
  { destruct (forallb (fun s => flt (Fin 0) s) stdev) eqn:Hall; [|reflexivity].
    rewrite forallb_forall in Hall.
    set (q := Qsum (map (fun q => (fst q * snd q)%Q) (combine (xv r) r))).
    assert (Hq : (q == 0)%Q).
    { unfold q, Qsum. rewrite fold_left_Qplus_zero; [reflexivity|].
      apply products_with_zero. exact Hzero. }
    assert (Hmem : In (np_sqrt q) stdev).
    { unfold stdev, sum_axis1, hadamard; simpl.
      apply in_map. unfold q.
      rewrite map_map.
      apply (in_map (fun p => Qsum (map (fun q0 => (fst q0 * snd q0)%Q)
                                        (combine (fst p) (snd p))))
                    _ (xv r, r)).
      apply In_combine_map. exact Hin. }
    apply Hall in Hmem. rewrite Hsqrt in Hmem; [discriminate|].
    rewrite Hq. apply Qle_refl. }
  rewrite Hneg. reflexivity.
Qed.

Lemma sqrt_approx_not_positive : @sqrt_not_positive example_collaborators.
Proof.
  intros q Hq. simpl. unfold sqrt_approx.
  destruct (Qle_bool 0 q) eqn:Hpos; [|reflexivity].
  apply Qle_bool_iff in Hpos.
  assert (Hnum : Qnum q = 0%Z).
  { unfold Qle in Hq, Hpos. simpl in Hq, Hpos. lia. }
  rewrite Hnum. reflexivity.
Qed.

Lemma zero_row_fails_assertion_witness :
  standard_errors (mkMatrix 1 [[1%Q]; [0%Q]]) (mkMatrix 1 [[1 # 4]])
  = Raise AssertionError.
Proof.
  apply (@zero_row_fails_assertion example_collaborators
           (mkMatrix 1 [[1%Q]; [0%Q]]) (mkMatrix 1 [[1 # 4]]) [0%Q]
           sqrt_approx_not_positive eq_refl).
  - simpl. right. left. reflexivity.
  - repeat constructor.
Defined.

(** ** The checks of the two entry points *)

Lemma not_in_model_spec `{Collaborators} (h : heap) (l : loc) (t : Term) (g : GAM) :
  not_in_model h l t g -> term_in_terms h l t (gam_terms g) = false.
Proof.
  unfold not_in_model, term_in_terms.
  induction 1 as [|l' ls [Hne Heq] _ IH]; simpl; [reflexivity|].
  rewrite IH, orb_false_r.
  apply orb_false_iff. split; [apply Nat.eqb_neq; exact Hne|].
  destruct (h !! l') as [t'|] eqn:Hl'; [apply Heq; reflexivity|reflexivity].
Qed.

(** X14.  The checks of [partial_effect] (lines 103 to 113) and of
    [PartialEffectDisplay.from_estimator] (lines 263 to 273) on a term
    object, in the order of the source and whatever [standard_deviations]
    is, which is checked last.  [partial_effect] first refuses a term that
    is neither [Spline] nor [Linear]; then both raise [NotFittedError] for a
    model that is not fitted, then for a term that is not fitted, and then a
    [ValueError] for a term that is neither a term of the model nor equal to
    one.  The heap is left as it was: no copy has been made. *)
Theorem entry_point_checks `{Collaborators} (h : heap) (g : GAM) (l : loc) (t : Term)
    (sd edges : pyobj) (linear_scale : bool) (X : matrix) (y : list Q)
    (transformation : transformation_arg) (residuals : bool) :
  h !! l = Some t ->
  let pe := partial_effect (PyGAM g) (PyTermRef l) sd edges linear_scale h in
  let fe := PartialEffectDisplay.from_estimator (PyGAM g) (PyTermRef l) X y sd edges
              transformation residuals h in
  let accepted_class := kind t = Spline \/ kind t = Linear in
  (~ accepted_class ->
   pe = (Raise (TypeError "Parameter `term` must be instance of Spline or Linear"), h)) /\
  (gam_fitted g = false ->
   (accepted_class -> pe = (Raise NotFittedError, h)) /\
   fe = (Raise NotFittedError, h)) /\
  (gam_fitted g = true -> fitted t = false ->
   (accepted_class -> pe = (Raise NotFittedError, h)) /\
   fe = (Raise NotFittedError, h)) /\
  (gam_fitted g = true -> fitted t = true -> not_in_model h l t g ->
   (accepted_class -> pe = (Raise (ValueError "Term not found in model"), h)) /\
   fe = (Raise (ValueError "Term not found in model"), h)).
Proof.
  intros Hl pe fe accepted_class. subst pe fe accepted_class.
  unfold partial_effect, PartialEffectDisplay.from_estimator, bind, read,
    partial_effect_validation, PartialEffectDisplay.from_estimator_validation,
    check_is_fitted_gam, check_is_fitted, check_membership.
  simpl. rewrite Hl. simpl.
  split; [|split; [|split]].
  - intros Hclass. destruct (kind t); try reflexivity; exfalso; apply Hclass; auto.
  - intros Hg. rewrite Hg. simpl. split; [|reflexivity].
    intros [Hk|Hk]; rewrite Hk; reflexivity.
  - intros Hg Hfit. rewrite Hg, Hfit. simpl. split; [|reflexivity].
    intros [Hk|Hk]; rewrite Hk; simpl; rewrite Hfit; reflexivity.
  - intros Hg Hfit Hnot. apply not_in_model_spec in Hnot.
    rewrite Hg, Hfit. simpl. rewrite Hnot. simpl.
    split; [|reflexivity].
    intros [Hk|Hk]; rewrite Hk; simpl; rewrite Hfit; simpl; rewrite Hnot;
      reflexivity.
Qed.

Lemma entry_point_checks_witness :
  partial_effect (PyGAM example_gam) (PyTermRef 1) (PyInt 0) PyNone true
    example_heap_outsider
  = (Raise (ValueError "Term not found in model"), example_heap_outsider) /\
  PartialEffectDisplay.from_estimator (PyGAM example_gam) (PyTermRef 1) example_X
    [2%Q; 4%Q; 7%Q] (PyInt 0) PyNone TransformationNoneOrFalse false
    example_heap_outsider
  = (Raise (ValueError "Term not found in model"), example_heap_outsider).
Proof.
  assert (Hl : example_heap_outsider !! 1 = Some (example_term Spline))
    by reflexivity.
  assert (Hnot : @not_in_model example_collaborators example_heap_outsider 1
                   (example_term Spline) example_gam).
  { constructor; [|constructor]. split; [discriminate|].
    intros t' Ht'. change (example_heap_outsider !! 0) with (Some (example_term Linear)) in Ht'.
    injection Ht' as <-. reflexivity. }
  pose proof (@entry_point_checks example_collaborators example_heap_outsider
                example_gam 1 (example_term Spline) (PyInt 0) PyNone true example_X
                [2%Q; 4%Q; 7%Q] TransformationNoneOrFalse false Hl) as Hc.
  cbv zeta in Hc. destruct Hc as (_ & _ & _ & Hmem).
  destruct (Hmem eq_refl eq_refl Hnot) as [Hpe Hfe].
  split; [apply Hpe; left; reflexivity|exact Hfe].
Defined.

(** ** Keeping the observations off the boundary of the domain *)

Lemma Qle_bool_false (a b : Q) : Qle_bool a b = false -> (b < a)%Q.
Proof.
  intros E. apply Qnot_le_lt. intros Hle. apply Qle_bool_iff in Hle. congruence.
Qed.

(** X15.  Line 333 of [PartialEffectDisplay.from_estimator], for a positive
    [epsilon].  On the domain [(-inf, inf)] the observations are kept as they
    are.  On a domain [(lo, inf)] every value becomes a number strictly above
    [lo], not below the observation, and an observation from [lo + epsilon]
    on is kept.  On a domain [(lo, hi)] with room for both margins every
    value becomes a number strictly between [lo] and [hi], and an observation
    between [lo + epsilon] and [hi - epsilon] is kept. *)
Theorem clamp_inside_domain `{Collaborators} (g : GAM) (y : list Q) (e : Q) :
  np_sqrt machine_eps = Fin e -> (0 < e)%Q ->
  (domain (gam_link g) = (NegInf, PosInf) ->
   PartialEffectDisplay.clamp_to_domain g y = map Fin y) /\
  (forall lo, domain (gam_link g) = (Fin lo, PosInf) ->
     Forall2 (fun v c => exists q, c = Fin q /\ (lo < q)%Q /\ (v <= q)%Q /\
                                   ((lo + e <= v)%Q -> (q == v)%Q))
             y (PartialEffectDisplay.clamp_to_domain g y)) /\
  (forall lo hi, domain (gam_link g) = (Fin lo, Fin hi) -> (lo + e <= hi - e)%Q ->
     Forall2 (fun v c => exists q, c = Fin q /\ (lo < q)%Q /\ (q < hi)%Q /\
                                   ((lo + e <= v)%Q -> (v <= hi - e)%Q -> (q == v)%Q))
             y (PartialEffectDisplay.clamp_to_domain g y)).
Proof.
  intros Heps Hpos. unfold PartialEffectDisplay.clamp_to_domain. rewrite Heps.
  split; [|split].
  - intros ->. simpl. apply map_ext. reflexivity.
  - intros lo ->. simpl. induction y as [|v y IH]; simpl; constructor; [|exact IH].
    destruct (Qle_bool v (lo + e)) eqn:Hle.
    + apply Qle_bool_iff in Hle. exists (lo + e)%Q.
      split; [reflexivity|]. split; [lra|]. split; [exact Hle|]. intros Hge. lra.
    + apply Qle_bool_false in Hle. exists v. split; [reflexivity|]. split; [lra|]. split; [lra|]. reflexivity.
  - intros lo hi -> Hroom. simpl.
    induction y as [|v y IH]; simpl; constructor; [|exact IH].
    destruct (Qle_bool v (lo + e)) eqn:Hle.
    + apply Qle_bool_iff in Hle. simpl.
      destruct (Qle_bool (lo + e) (hi + - e)) eqn:Hle2.
      * exists (lo + e)%Q. split; [reflexivity|]. split; [lra|]. split; [lra|]. intros Hge _. lra.
      * apply Qle_bool_false in Hle2. lra.
    + apply Qle_bool_false in Hle. simpl.
      destruct (Qle_bool v (hi + - e)) eqn:Hle2.
      * apply Qle_bool_iff in Hle2. exists v. split; [reflexivity|]. split; [lra|]. split; [lra|]. reflexivity.
      * apply Qle_bool_false in Hle2. exists (hi + - e)%Q.
        split; [reflexivity|]. split; [lra|]. split; [lra|]. intros _ Hv. lra.
Qed.

Lemma clamp_inside_domain_witness :
  Forall2 (fun v c => exists q, c = Fin q /\ (0 < q)%Q /\ (v <= q)%Q /\
                                ((0 + (2 ^ 52 # 2 ^ 78) <= v)%Q -> (q == v)%Q))
          [0%Q; 1 # 2]
          (PartialEffectDisplay.clamp_to_domain example_gam2 [0%Q; 1 # 2]).
Proof.
  assert (Heps : np_sqrt machine_eps = Fin (2 ^ 52 # 2 ^ 78))
    by (vm_compute; reflexivity).
  assert (Hpos : (0 < 2 ^ 52 # 2 ^ 78)%Q) by reflexivity.
  destruct (@clamp_inside_domain example_collaborators example_gam2 [0%Q; 1 # 2]
              (2 ^ 52 # 2 ^ 78) Heps Hpos) as (_ & Hhalf & _).
  exact (Hhalf 0%Q eq_refl).
Defined.

(** ** Drawing *)

Section DrawingFacts.
Import Drawing.
Context {matplotlib : Matplotlib}.

Lemma dict_has_get (d : kwargs) (k : string) :
  dict_has d k = false <-> dict_get d k = None.
Proof.
  unfold dict_has, dict_get. induction d as [|p d IH]; simpl; [tauto|].
  destruct (String.eqb (fst p) k); simpl; [split; discriminate|exact IH].
Qed.

Lemma dict_get_app (d : kwargs) (k k' : string) (v : kwval) :
  dict_has d k = false ->
  dict_get (d ++ [(k, v)]) k' = if String.eqb k k' then Some v else dict_get d k'.
Proof.
  unfold dict_has, dict_get. induction d as [|p d IH]; simpl.
  - intros _. destruct (String.eqb k k'); reflexivity.
  - destruct (String.eqb (fst p) k) eqn:Hp; simpl; [discriminate|].
    intros Hd. destruct (String.eqb (fst p) k') eqn:Hp'; simpl.
    + apply String.eqb_eq in Hp'. subst k'.
      rewrite String.eqb_sym, Hp. reflexivity.
    + apply IH. exact Hd.
Qed.

Lemma dict_get_replace (d : kwargs) (k k' : string) (v : kwval) :
  dict_has d k = true ->
  dict_get (map (fun p => if String.eqb (fst p) k then (k, v) else p) d) k'
  = if String.eqb k k' then Some v else dict_get d k'.
Proof.
  unfold dict_has, dict_get. induction d as [|p d IH]; simpl; [discriminate|].
  destruct (String.eqb (fst p) k) eqn:Hp; simpl.
  - intros _. apply String.eqb_eq in Hp.
    destruct (String.eqb k k') eqn:Hk; [reflexivity|].
    rewrite Hp, Hk.
    clear IH. induction d as [|q d IH]; simpl; [reflexivity|].
    destruct (String.eqb (fst q) k) eqn:Hq; simpl.
    + rewrite Hk. apply String.eqb_eq in Hq. rewrite Hq, Hk. exact IH.
    + destruct (String.eqb (fst q) k'); [reflexivity|exact IH].
  - intros Hd. specialize (IH Hd).
    destruct (String.eqb (fst p) k') eqn:Hp'.
    + destruct (String.eqb k k') eqn:Hk; [|reflexivity].
      apply String.eqb_eq in Hk, Hp'. subst. rewrite String.eqb_refl in Hp.
      discriminate.
    + exact IH.
Qed.

Lemma dict_get_set (d : kwargs) (k k' : string) (v : kwval) :
  dict_get (dict_set d k v) k' = if String.eqb k k' then Some v else dict_get d k'.
Proof.
  unfold dict_set. destruct (dict_has d k) eqn:Hd.
  - apply dict_get_replace. exact Hd.
  - apply dict_get_app. exact Hd.
Qed.

Lemma dict_get_cons (p : string * kwval) (d : kwargs) (k : string) :
  dict_get (p :: d) k = if String.eqb (fst p) k then Some (snd p) else dict_get d k.
Proof. unfold dict_get. simpl. destruct (String.eqb (fst p) k); reflexivity. Qed.

(** [{**a, **b}] for a dict [b]: the value of [b] where it has the key, the
    value of [a] elsewhere. *)
Lemma dict_get_merge (a b : kwargs) (k : string) :
  NoDup (map fst b) ->
  dict_get (dict_merge a b) k
  = match dict_get b k with Some v => Some v | None => dict_get a k end.
Proof.
  unfold dict_merge. revert a. induction b as [|p b IH]; intros a Hb; simpl.
  - reflexivity.
  - inversion Hb as [|? ? Hnotin Hb']; subst.
    rewrite IH by exact Hb'. rewrite dict_get_set, dict_get_cons.
    destruct (String.eqb (fst p) k) eqn:Hp.
    + apply String.eqb_eq in Hp. subst k.
      assert (Hnone : dict_get b (fst p) = None).
      { apply dict_has_get. unfold dict_has.
        destruct (existsb _ b) eqn:Hex; [|reflexivity].
        apply existsb_exists in Hex. destruct Hex as (q & Hq & Heq).
        apply String.eqb_eq in Heq. exfalso. apply Hnotin.
        rewrite <- Heq. apply list_elem_of_In, in_map. exact Hq. }
      rewrite Hnone. reflexivity.
    + reflexivity.
Qed.

Lemma call_kwargs_Ok (explicit star kw : kwargs) :
  call_kwargs explicit star = Ok kw ->
  existsb (fun p => dict_has star (fst p)) explicit = false /\ kw = explicit ++ star.
Proof.
  unfold call_kwargs. destruct (existsb _ explicit); [discriminate|].
  intros [= <-]. auto.
Qed.

Lemma dbind_Ok {A B} (m : Draw A) (k : A -> Draw B) (s s' : display * axes) (b : B) :
  dbind m k s = (Ok b, s') ->
  exists a s1, m s = (Ok a, s1) /\ k a s1 = (Ok b, s').
Proof.
  unfold dbind. destruct (m s) as [[a|e] s1]; [|discriminate].
  intros E. exists a, s1. auto.
Qed.

Lemma ax_call_Ok (c : call) (self self' : display) (ax ax' : axes) (a : artist) :
  ax_call c (self, ax) = (Ok a, (self', ax')) ->
  a = mkArtist (ax_id ax) (length (calls ax)) /\ self' = self /\ ax' = mkAxes (ax_id ax) (figure ax) (calls ax ++ [c]).
Proof.
  unfold ax_call. simpl. destruct (refuses ax c); [discriminate|].
  intros [= <- <- <-]. auto.
Qed.

Lemma ax_plot_first_Ok (c : call) (self self' : display) (ax ax' : axes) (a : artist) :
  ax_plot_first c (self, ax) = (Ok a, (self', ax')) ->
  a = mkArtist (ax_id ax) (length (calls ax)) /\ self' = self /\ ax' = mkAxes (ax_id ax) (figure ax) (calls ax ++ [c]).
Proof.
  unfold ax_plot_first. intros E. apply dbind_Ok in E.
  destruct E as ([a0 n] & [d1 ax1] & E1 & E2).
  destruct (ax_call c (self, ax)) as [[a1|e] [d2 ax2]] eqn:Ecall; [|discriminate].
  injection E1 as -> _ -> ->.
  apply ax_call_Ok in Ecall. destruct Ecall as (-> & -> & ->).
  simpl in E2. destruct n; [discriminate|].
  injection E2 as <- <- <-. auto.
Qed.

Lemma plot_trace (self : display) (ax : option axes) (line_kwargs : option kwargs)
    (rug : bool) (self' : display) (ax' : axes) :
  plot self ax line_kwargs rug = (Ok tt, (self', ax')) ->
  let ax0 := axes_used ax in
  let given := match line_kwargs with Some d => d | None => [] end in
  let kw := ("zorder"%string, KwInt 10) :: dict_merge default_line_kwargs given in
  let line := calls ax0 ++ [CallPlot (x self) (y self) kw] in
  let band := line ++ band_of self in
  let min_y := fst (get_ylim (mkAxes (ax_id ax0) (figure ax0) band)) in
  let rugs := band ++ rug_of self rug min_y in
  dict_has (dict_merge default_line_kwargs given) "zorder" = false /\
  calls ax' = rugs ++ points_of self /\
  ax_id ax' = ax_id ax0 /\ figure ax' = figure ax0 /\
  same_data self' self /\
  line_ self' = Some (mkArtist (ax_id ax0) (length (calls ax0))) /\
  fill_between_ self' = artist_of ax0 line (band_of self) (fill_between_ self) /\
  scatter_ self' = artist_of ax0 band (rug_of self rug min_y) (scatter_ self) /\
  y_partial_residuals_ self'
  = artist_of ax0 rugs (points_of self) (y_partial_residuals_ self) /\
  ax_ self' = Some (ax_id ax0) /\ figure_ self' = Some (figure ax0).
Proof.
  unfold plot. fold (axes_used ax). generalize (axes_used ax) as ax0.
  intros ax0 E. cbv zeta. unfold plot_on in E.
  set (given := match line_kwargs with Some d => d | None => [] end) in *.
  apply dbind_Ok in E. destruct E as (kw & [d0 a0] & E0 & E).
  unfold dlift in E0. injection E0 as E0 <- <-.
  apply call_kwargs_Ok in E0. destruct E0 as [Hfree ->].
  simpl in Hfree. rewrite orb_false_r in Hfree. split; [exact Hfree|].
  simpl app in E.
  set (kw := ("zorder"%string, KwInt 10) :: dict_merge default_line_kwargs given) in *.
  apply dbind_Ok in E. destruct E as (line & [d1 a1] & E1 & E).
  apply ax_plot_first_Ok in E1. destruct E1 as (-> & -> & ->).
  apply dbind_Ok in E. destruct E as ([] & [d2 a2] & E2 & E).
  unfold update in E2. injection E2 as <- <-.
  apply dbind_Ok in E. destruct E as ([] & [d3 a3] & E3 & E).
  apply dbind_Ok in E. destruct E as ([] & [d4 a4] & E4 & E).
  apply dbind_Ok in E. destruct E as ([] & [d5 a5] & E5 & E).
  unfold update in E. injection E as <- <-.
  simpl in E3, E4, E5.
  set (l1 := calls ax0 ++ [CallPlot (x self) (y self) kw]) in *.
  set (art := mkArtist (ax_id ax0) (length (calls ax0))) in *.
  assert (H3 : same_data d3 self /\ line_ d3 = Some art
               /\ fill_between_ d3 = artist_of ax0 l1 (band_of self) (fill_between_ self)
               /\ scatter_ d3 = scatter_ self
               /\ y_partial_residuals_ d3 = y_partial_residuals_ self
               /\ a3 = mkAxes (ax_id ax0) (figure ax0) (l1 ++ band_of self)).
  { unfold band_of, same_data.
    destruct (y_low self) as [low|] eqn:Hlow;
      [destruct (y_high self) as [high|] eqn:Hhigh|].
    - apply dbind_Ok in E3. destruct E3 as (a & [d a'] & Ec & Eu).
      apply ax_call_Ok in Ec. destruct Ec as (-> & -> & ->).
      unfold update in Eu. injection Eu as <- <-. simpl.
      rewrite Hlow, Hhigh. repeat split; reflexivity.
    - injection E3 as <- <-. simpl. rewrite Hlow, Hhigh, app_nil_r.
      repeat split; reflexivity.
    - injection E3 as <- <-. simpl. rewrite Hlow, app_nil_r.
      repeat split; reflexivity. }
  destruct H3 as (Hd3 & Hline3 & Hfill3 & Hsc3 & Hpr3 & ->).
  assert (Hx3 : x_obs d3 = x_obs self)
    by (destruct Hd3 as (_ & _ & _ & _ & Hx & _); exact Hx).
  set (l2 := l1 ++ band_of self) in *.
  set (min_y := fst (get_ylim (mkAxes (ax_id ax0) (figure ax0) l2))) in *.
  assert (H4 : same_data d4 self /\ line_ d4 = Some art
               /\ fill_between_ d4 = artist_of ax0 l1 (band_of self) (fill_between_ self)
               /\ scatter_ d4 = artist_of ax0 l2 (rug_of self rug min_y) (scatter_ self)
               /\ y_partial_residuals_ d4 = y_partial_residuals_ self
               /\ a4 = mkAxes (ax_id ax0) (figure ax0) (l2 ++ rug_of self rug min_y)).
  { unfold rug_of. destruct rug; simpl in E4.
    - apply dbind_Ok in E4. destruct E4 as (a & [d a'] & Ec & Eu).
      apply ax_call_Ok in Ec. destruct Ec as (-> & -> & ->).
      unfold update in Eu. injection Eu as <- <-. simpl.
      rewrite Hx3. fold min_y.
      unfold same_data in *. simpl. tauto.
    - unfold dret in E4. injection E4 as <- <-. rewrite app_nil_r. simpl. tauto. }
  destruct H4 as (Hd4 & Hline4 & Hfill4 & Hsc4 & Hpr4 & ->).
  assert (Hx4 : x_obs d4 = x_obs self)
    by (destruct Hd4 as (_ & _ & _ & _ & Hx & _); exact Hx).
  assert (Hr4 : y_partial_residuals d4 = y_partial_residuals self)
    by (destruct Hd4 as (_ & _ & _ & _ & _ & Hr); exact Hr).
  set (l3 := l2 ++ rug_of self rug min_y) in *.
  unfold points_of. rewrite Hr4 in E5.
  destruct (y_partial_residuals self) as [r|] eqn:Hres.
  - apply dbind_Ok in E5. destruct E5 as (a & [d a'] & Ec & Eu).
    apply ax_call_Ok in Ec. destruct Ec as (-> & -> & ->).
    unfold update in Eu. injection Eu as <- <-. simpl.
    rewrite Hx4. unfold same_data in *. simpl. tauto.
  - unfold dret in E5. injection E5 as <- <-. simpl.
    rewrite app_nil_r. unfold same_data in *. simpl. tauto.
Qed.

(** X16.  What a successful call of [plot] does (lines 205 to 244).  The
    calls already recorded on the axes are kept, and the new ones follow
    them in this order: the line; the band, when both [y_low] and [y_high]
    are given; the rug, when asked for; the residual points, when there are
    partial residuals.  The rug lies at the lower limit that the axes have
    once the line and the band are drawn, before the residual points are.
    The attributes given to [__init__] are not changed; [line_] is the
    artist of the first new call; [fill_between_], [scatter_] and
    [y_partial_residuals_] are the artists of their calls, and keep the
    value they had, from an earlier call of [plot] for example, when their
    call is not made; [ax_] and [figure_] are those of the axes drawn on. *)
Theorem plot_draws (self : display) (ax : option axes) (line_kwargs : option kwargs)
    (rug : bool) (self' : display) (ax' : axes) :
  plot self ax line_kwargs rug = (Ok tt, (self', ax')) ->
  let ax0 := axes_used ax in
  exists kw,
    let line := calls ax0 ++ [CallPlot (x self) (y self) kw] in
    let band := line ++ band_of self in
    let min_y := fst (get_ylim (mkAxes (ax_id ax0) (figure ax0) band)) in
    let rugs := band ++ rug_of self rug min_y in
    calls ax' = rugs ++ points_of self /\
    ax_id ax' = ax_id ax0 /\ figure ax' = figure ax0 /\
    same_data self' self /\
    line_ self' = Some (mkArtist (ax_id ax0) (length (calls ax0))) /\
    fill_between_ self' = artist_of ax0 line (band_of self) (fill_between_ self) /\
    scatter_ self' = artist_of ax0 band (rug_of self rug min_y) (scatter_ self) /\
    y_partial_residuals_ self'
    = artist_of ax0 rugs (points_of self) (y_partial_residuals_ self) /\
    ax_ self' = Some (ax_id ax0) /\ figure_ self' = Some (figure ax0).
Proof.
  intros E. pose proof (plot_trace _ _ _ _ _ _ E) as Ht. cbv zeta in *.
  destruct Ht as (_ & Ht). eexists. exact Ht.
Qed.

Lemma dict_has_spec (d : kwargs) (k : string) :
  dict_has d k = match dict_get d k with Some _ => true | None => false end.
Proof.
  destruct (dict_get d k) eqn:E.
  - destruct (dict_has d k) eqn:Hd; [reflexivity|].
    apply dict_has_get in Hd. congruence.
  - apply dict_has_get. exact E.
Qed.

Lemma dict_has_merge (a b : kwargs) (k : string) :
  dict_has (dict_merge a b) k = dict_has a k || dict_has b k.
Proof.
  unfold dict_merge. revert a. induction b as [|p b IH]; intros a; simpl.
  - rewrite orb_false_r. reflexivity.
  - rewrite IH. rewrite (dict_has_spec (dict_set _ _ _)), dict_get_set.
    unfold dict_has at 3. simpl. fold (dict_has b k).
    destruct (String.eqb (fst p) k); simpl.
    + rewrite orb_true_r. reflexivity.
    + rewrite <- dict_has_spec. reflexivity.
Qed.

(** X17.  The keyword arguments of the line (lines 211 to 220), for a
    [dict] [line_kwargs].  A key [zorder] makes the call of [ax.plot] a
    [TypeError], since [zorder=10] is passed as well: nothing is drawn and
    no attribute is set.  Otherwise, in every call that returns, the line is
    drawn with [zorder = 10], with the value of [line_kwargs] for each of its
    keys and with the default for the keys [color], [alpha] and [linestyle]
    that it does not have. *)
Theorem line_kwargs_override_defaults (self : display) (ax : option axes)
    (given : kwargs) (rug : bool) :
  NoDup (map fst given) ->
  (dict_has given "zorder" = true ->
   plot self ax (Some given) rug
   = (Raise (TypeError "got multiple values for keyword argument"),
      (self, axes_used ax))) /\
  (forall self' ax',
     plot self ax (Some given) rug = (Ok tt, (self', ax')) ->
     exists kw,
       nth_error (calls ax') (length (calls (axes_used ax)))
       = Some (CallPlot (x self) (y self) kw) /\
       dict_get kw "zorder" = Some (KwInt 10) /\
       forall k, k <> "zorder"%string ->
         dict_get kw k = match dict_get given k with
                         | Some v => Some v
                         | None => dict_get default_line_kwargs k
                         end).
Proof.
  intros Hdict. split.
  - intros Hz. unfold plot, plot_on. fold (axes_used ax).
    unfold dbind at 1. unfold dlift, call_kwargs. simpl existsb.
    rewrite dict_has_merge, Hz, orb_true_r. reflexivity.
  - intros self' ax' E. pose proof (plot_trace _ _ _ _ _ _ E) as Ht.
    cbv zeta in Ht. destruct Ht as (_ & Hcalls & _).
    eexists. split; [|split].
    + rewrite Hcalls, <- !app_assoc. rewrite nth_error_app2 by lia.
      rewrite Nat.sub_diag. reflexivity.
    + reflexivity.
    + intros k Hk. rewrite dict_get_cons. simpl fst.
      destruct (String.eqb "zorder" k) eqn:Ek;
        [apply String.eqb_eq in Ek; congruence|].
      apply dict_get_merge. exact Hdict.
Qed.

Lemma from_estimator_residuals_field `{Collaborators} (gam term sd edges : pyobj)
    (X : matrix) (y : list Q) (transformation : transformation_arg)
    (residuals : bool) (h h' : heap) (d : PartialEffectDisplay.t) :
  PartialEffectDisplay.from_estimator gam term X y sd edges transformation
    residuals h = (Ok d, h') ->
  exists r, PartialEffectDisplay.y_partial_residuals d
            = if residuals then Some r else None.
Proof.
  intros E. unfold PartialEffectDisplay.from_estimator in E.
  inv_bind E v h0 E0. destruct v as [[g l] sdv].
  unfold PartialEffectDisplay.from_estimator_logic in E.
  do 17 (apply bind_Ok in E; destruct E as (? & ? & _ & E)).
  apply ret_Ok in E. destruct E as [-> _]. simpl. eexists. reflexivity.
Qed.

(** X18.  What a call of [PartialEffectDisplay.from_estimator] that returns
    has drawn (lines 338 to 347).  After the calls that the axes held, it
    draws the line and the band, which is there in every case since both
    bounds are passed to the display, then the rug if [rug] is set, then
    the residual points if [residuals] is set, and nothing else.  The
    attributes [line_] and [fill_between_] of the display are the artists of
    the first two calls; [scatter_] is set exactly when [rug] is, and
    [y_partial_residuals_] exactly when [residuals] is.  The heap is the one
    left by the computation of the display. *)
Theorem from_estimator_draws `{Collaborators} (gam term : pyobj) (X : matrix)
    (y : list Q) (sd edges : pyobj) (transformation : transformation_arg)
    (rug residuals : bool) (ax : option axes) (line_kwargs : option kwargs)
    (h h' : heap) (viz : display) (ax' : option axes) :
  from_estimator_and_plot gam term X y sd edges transformation rug residuals ax
    line_kwargs h = (Ok viz, h', ax') ->
  exists d drawn_on,
    PartialEffectDisplay.from_estimator gam term X y sd edges transformation
      residuals h = (Ok d, h') /\
    ax' = Some drawn_on /\ same_data viz (of_estimator d) /\
    let ax0 := axes_used ax in
    let n := length (calls ax0) in
    let artist_at := fun i => Some (mkArtist (ax_id ax0) i) in
    length (calls drawn_on)
    = n + 2 + (if rug then 1 else 0) + (if residuals then 1 else 0) /\
    firstn n (calls drawn_on) = calls ax0 /\
    (exists kw, nth_error (calls drawn_on) n
                = Some (CallPlot (PartialEffectDisplay.x d)
                                 (PartialEffectDisplay.y d) kw)) /\
    nth_error (calls drawn_on) (n + 1)
    = Some (CallFillBetween (PartialEffectDisplay.x d)
                            (PartialEffectDisplay.y_low d)
                            (PartialEffectDisplay.y_high d) fill_between_kwargs) /\
    line_ viz = artist_at n /\
    fill_between_ viz = artist_at (n + 1) /\
    scatter_ viz = (if rug then artist_at (n + 2) else None) /\
    y_partial_residuals_ viz
    = (if residuals then artist_at (n + 2 + (if rug then 1 else 0)) else None).
Proof.
  unfold from_estimator_and_plot. intros E.
  destruct (PartialEffectDisplay.from_estimator gam term X y sd edges
              transformation residuals h) as [[d|e] h1] eqn:Efe; [|discriminate].
  destruct (plot (of_estimator d) ax line_kwargs rug) as [[[]|e] [viz1 ax1]] eqn:Eplot;
    [|discriminate].
  injection E as <- <- <-.
  exists d, ax1. split; [reflexivity|]. split; [reflexivity|].
  apply from_estimator_residuals_field in Efe. destruct Efe as (r & Hres).
  pose proof (plot_trace _ _ _ _ _ _ Eplot) as Ht. cbv zeta in Ht.
  destruct Ht as (_ & Hcalls & _ & _ & Hdata & Hline & Hfill & Hsc & Hpr & _).
  split; [exact Hdata|]. cbv zeta.
  unfold band_of, points_of in *. simpl in Hcalls, Hfill, Hsc, Hpr.
  rewrite Hres in Hcalls, Hpr. unfold rug_of in *.
  rewrite Hcalls, Hline, Hfill, Hsc, Hpr. clear Hcalls Hline Hfill Hsc Hpr.
  set (c0 := calls (axes_used ax)).
  repeat split.
  - destruct rug, residuals; simpl; rewrite ?length_app; simpl;
      rewrite ?length_app; simpl; rewrite ?length_app; simpl; lia.
  - rewrite <- !app_assoc. rewrite firstn_app, firstn_all, Nat.sub_diag. simpl.
    apply app_nil_r.
  - eexists. rewrite <- !app_assoc. rewrite nth_error_app2 by lia.
    rewrite Nat.sub_diag. reflexivity.
  - rewrite <- !app_assoc. rewrite nth_error_app2 by lia.
    replace (length c0 + 1 - length c0) with 1 by lia. reflexivity.
  - simpl. rewrite length_app. reflexivity.
  - destruct rug; simpl; [|reflexivity].
    rewrite !length_app. simpl. do 2 f_equal. lia.
  - destruct residuals; simpl; [|reflexivity].
    destruct rug; simpl; rewrite !length_app; simpl; do 2 f_equal; lia.
Qed.

End DrawingFacts.

Lemma plot_draws_witness :
  exists self' ax',
    Drawing.plot example_display None None true = (Ok tt, (self', ax')) /\
    length (Drawing.calls ax') = 3 /\
    Drawing.scatter_ self' = Some (Drawing.mkArtist 0 2) /\
    Drawing.y_partial_residuals_ self' = None.
Proof.
  destruct (Drawing.plot example_display None None true)
    as [[[]|e] [self' ax']] eqn:E; [|vm_compute in E; discriminate].
  destruct (@plot_draws example_matplotlib _ _ _ _ _ _ E)
    as (kw & Hcalls & _ & _ & _ & _ & _ & Hsc & Hpr & _).
  exists self', ax'. split; [reflexivity|].
  rewrite Hcalls, Hsc, Hpr. repeat split; reflexivity.
Defined.

Lemma line_kwargs_override_defaults_witness :
  Drawing.plot example_display None (Some [("zorder"%string, Drawing.KwInt 3)]) false
  = (Raise (TypeError "got multiple values for keyword argument"),
     (example_display, Drawing.plt_subplots)).
Proof.
  apply (proj1 (@line_kwargs_override_defaults example_matplotlib
                  example_display None [("zorder"%string, Drawing.KwInt 3)] false
                  (NoDup_singleton _))).
  reflexivity.
Defined.

Lemma from_estimator_draws_witness :
  exists viz h' drawn_on,
    Drawing.from_estimator_and_plot (PyGAM example_gam) (PyTermRef 0) example_X
      [2%Q; 4%Q; 7%Q] (PyFloat (Fin 1)) PyNone TransformationNoneOrFalse true true
      None None (example_heap Linear) = (Ok viz, h', Some drawn_on) /\
    length (Drawing.calls drawn_on) = 4 /\
    Drawing.fill_between_ viz = Some (Drawing.mkArtist 0 1) /\
    Drawing.y_partial_residuals_ viz = Some (Drawing.mkArtist 0 3).
Proof.
  destruct (Drawing.from_estimator_and_plot (PyGAM example_gam) (PyTermRef 0)
              example_X [2%Q; 4%Q; 7%Q] (PyFloat (Fin 1)) PyNone
              TransformationNoneOrFalse true true None None (example_heap Linear))
    as [[[viz|e] h'] ax'] eqn:E; [|vm_compute in E; discriminate].
  destruct (@from_estimator_draws example_matplotlib example_collaborators
              _ _ _ _ _ _ _ _ _ _ _ _ _ _ _ E)
    as (d & drawn_on & _ & -> & _ & Hlen & _ & _ & _ & _ & Hfill & _ & Hpr).
  exists viz, h', drawn_on. split; [reflexivity|].
  rewrite Hlen, Hfill, Hpr. repeat split; reflexivity.
Defined.

(** ** What [linear_scale] and the observations [y] change *)

Lemma broadcast2_same_shape (f g : npfloat -> npfloat -> npfloat)
    (a1 b1 a2 b2 : list npfloat) :
  length a1 = length a2 -> length b1 = length b2 ->
  match broadcast2 f a1 b1, broadcast2 g a2 b2 with
  | Ok r1, Ok r2 => length r1 = length r2
  | Raise e1, Raise e2 => e1 = e2
  | _, _ => False
  end.
Proof.
  intros Ha Hb. unfold broadcast2. rewrite Ha, Hb.
  destruct (length a2 =? length b2) eqn:E1.
  - rewrite !length_map, !length_combine. lia.
  - destruct (length a2 =? 1); [rewrite !length_map; lia|].
    destruct (length b2 =? 1); [rewrite !length_map; lia|reflexivity].
Qed.

(** X19.  The argument [linear_scale] of [partial_effect] changes values
    only (lines 174 to 179): with [linear_scale=False] the call raises
    exactly when it does with [linear_scale=True], with the same exception,
    ends in the same heap, and returns the same [x], [x_obs] and [meshgrid],
    with [y], [y_low] and [y_high] mapped through the inverse link. *)
Theorem linear_scale_changes_values_only `{Collaborators} (g : GAM)
    (term sd edges : pyobj) (h : heap) :
  outcomes_agree (on_response_scale (gam_link g))
    (partial_effect (PyGAM g) term sd edges true h)
    (partial_effect (PyGAM g) term sd edges false h).
Proof.
  unfold partial_effect.
  apply bind_agree. intros [[g0 l] v] h0 E0.
  unfold read in E0. injection E0 as E0 <-.
  apply partial_effect_validation_Ok in E0. destruct E0 as ([= <-] & _).
  unfold partial_effect_logic. cbv zeta.
  agree_step term' h1 E1. agree_step t h2 E2. agree_step dat h3 E3.
  agree_step Xot h4 E4. agree_step grid h5 E5. agree_step X h6 E6.
  agree_step t' h7 E7. agree_step lp h8 E8. agree_step V h9 E9.
  agree_step stdev h10 E10. agree_step eta h11 E11. agree_step resid h12 E12.
  agree_step low h13 E13. agree_step high h14 E14. agree_step own h15 E15.
  agree_step ypr h16 E16.
  inv_lift E16. simpl.
  assert (Hshape := broadcast2_same_shape fadd fadd (map Fin own) resid
                      (map (inverse_link (gam_link g)) (map Fin own)) resid).
  rewrite E16 in Hshape.
  destruct (broadcast2 fadd (map (inverse_link (gam_link g)) (map Fin own)) resid)
    as [shifted|e] eqn:Esh.
  - rewrite bind_lift_Ok. split; [reflexivity|]. simpl. repeat split.
  - exfalso. apply Hshape; [rewrite !length_map; reflexivity|reflexivity].
Qed.

Lemma bind_lift_Raise {A B} (e : exn) (k : A -> M B) (h : heap) :
  bind (lift (Raise e)) k h = (Raise e, h).
Proof. reflexivity. Qed.

Lemma clamp_to_domain_length `{Collaborators} (g : GAM) (y : list Q) :
  length (PartialEffectDisplay.clamp_to_domain g y) = length y.
Proof. unfold PartialEffectDisplay.clamp_to_domain. apply length_map. Qed.

Lemma from_estimator_observations `{Collaborators} (gam term sd edges : pyobj)
    (X : matrix) (y1 y2 : list Q) (transformation : transformation_arg)
    (residuals : bool) (h : heap) :
  length y1 = length y2 ->
  outcomes_agree same_display_but_residuals
    (PartialEffectDisplay.from_estimator gam term X y1 sd edges transformation
       residuals h)
    (PartialEffectDisplay.from_estimator gam term X y2 sd edges transformation
       residuals h).
Proof.
  intros Hlen. unfold PartialEffectDisplay.from_estimator.
  apply bind_agree. intros [[g l] v] h0 _.
  unfold PartialEffectDisplay.from_estimator_logic. cbv zeta.
  agree_step term' h1 E1. agree_step Xt h2 E2. agree_step t h3 E3.
  agree_step xobs h4 E4. agree_step grid h5 E5. agree_step Xs h6 E6.
  agree_step Xs' h7 E7. agree_step t' h8 E8. agree_step lp h9 E9.
  agree_step V h10 E10. agree_step stdev h11 E11. agree_step predicted h12 E12.
  pose proof (broadcast2_same_shape fsub fsub
                (map (link (gam_link g)) (PartialEffectDisplay.clamp_to_domain g y1))
                (map (link (gam_link g)) predicted)
                (map (link (gam_link g)) (PartialEffectDisplay.clamp_to_domain g y2))
                (map (link (gam_link g)) predicted)) as Hres.
  destruct (broadcast2 fsub
              (map (link (gam_link g)) (PartialEffectDisplay.clamp_to_domain g y1)) _)
    as [res1|e1];
    destruct (broadcast2 fsub
                (map (link (gam_link g)) (PartialEffectDisplay.clamp_to_domain g y2)) _)
      as [res2|e2];
    try (exfalso; apply Hres;
         [rewrite !length_map, !clamp_to_domain_length; exact Hlen|reflexivity]).
  - assert (Hlens : length res1 = length res2)
      by (apply Hres; [rewrite !length_map, !clamp_to_domain_length; exact Hlen
                      |reflexivity]).
    rewrite !bind_lift_Ok.
    agree_step own h14 E14.
    pose proof (broadcast2_same_shape fadd fadd (map Fin own) res1 (map Fin own) res2
                  eq_refl Hlens) as Hon.
    destruct (broadcast2 fadd (map Fin own) res1) as [on1|e1];
      destruct (broadcast2 fadd (map Fin own) res2) as [on2|e2];
      try contradiction.
    + rewrite !bind_lift_Ok.
      agree_step low h16 E16. agree_step high h17 E17.
      split; [reflexivity|]. simpl. repeat split.
    + rewrite !bind_lift_Raise. split; [reflexivity|exact Hon].
  - rewrite !bind_lift_Raise. split; [reflexivity|].
    apply Hres; [rewrite !length_map, !clamp_to_domain_length; exact Hlen|reflexivity].
Qed.

(** X20.  The observations [y] given to
    [PartialEffectDisplay.from_estimator] enter the partial residuals only
    (lines 331 to 336): for two arrays [y] of one length the two calls end
    in the same heap and raise the same exception or return displays with
    the same [x], [y], [y_low], [y_high] and [x_obs]; with
    [residuals=False] the two calls are the same, so that the observations
    have no effect on what is returned. *)
Theorem observations_change_residuals_only `{Collaborators}
    (gam term sd edges : pyobj) (X : matrix) (y1 y2 : list Q)
    (transformation : transformation_arg) (h : heap) :
  length y1 = length y2 ->
  (forall residuals,
     outcomes_agree same_display_but_residuals
       (PartialEffectDisplay.from_estimator gam term X y1 sd edges transformation
          residuals h)
       (PartialEffectDisplay.from_estimator gam term X y2 sd edges transformation
          residuals h)) /\
  PartialEffectDisplay.from_estimator gam term X y1 sd edges transformation false h
  = PartialEffectDisplay.from_estimator gam term X y2 sd edges transformation false h.
Proof.
  intros Hlen. split.
  - intros residuals. apply from_estimator_observations. exact Hlen.
  - pose proof (from_estimator_observations gam term sd edges X y1 y2
                  transformation false h Hlen) as [Hheap Hres].
    destruct (PartialEffectDisplay.from_estimator gam term X y1 sd edges
                transformation false h) as [[d1|e1] h1] eqn:E1;
      destruct (PartialEffectDisplay.from_estimator gam term X y2 sd edges
                  transformation false h) as [[d2|e2] h2] eqn:E2;
      simpl in Hheap, Hres; try contradiction; subst.
    + apply from_estimator_residuals_field in E1, E2.
      destruct E1 as (_ & Hr1), E2 as (_ & Hr2).
      destruct Hres as (Hx & Hy & Hlow & Hhigh & Hobs).
      destruct d1, d2; simpl in *. congruence.
    + reflexivity.
Qed.

Lemma observations_change_residuals_only_witness :
  PartialEffectDisplay.from_estimator (PyGAM example_gam) (PyTermRef 0) example_X
    [2%Q; 4%Q; 7%Q] (PyFloat (Fin 1)) PyNone TransformationNoneOrFalse false
    (example_heap Linear)
  = PartialEffectDisplay.from_estimator (PyGAM example_gam) (PyTermRef 0) example_X
      [0%Q; 0%Q; 1%Q] (PyFloat (Fin 1)) PyNone TransformationNoneOrFalse false
      (example_heap Linear).
Proof.
  exact (proj2 (@observations_change_residuals_only example_collaborators
                  (PyGAM example_gam) (PyTermRef 0) (PyFloat (Fin 1)) PyNone
                  example_X [2%Q; 4%Q; 7%Q] [0%Q; 0%Q; 1%Q]
                  TransformationNoneOrFalse (example_heap Linear) eq_refl)).
Defined.

(** ** A [standard_deviations] that is not a number *)

Lemma nan_interval (f : npfloat -> npfloat -> npfloat) (lp : list Q)
    (stdev r : list npfloat) :
  (forall p, f (Fin p) NaN = NaN) ->
  length stdev = length lp ->
  broadcast2 f (map Fin lp) (map (fmul NaN) stdev) = Ok r ->
  length r = length lp /\ Forall (fun v => v = NaN) r.
Proof.
  intros Hf Hlen E.
  apply broadcast2_same_length in E; [|rewrite !length_map; lia].
  subst r. revert stdev Hlen.
  induction lp as [|p lp IH]; intros [|s stdev] Hlen; simpl in Hlen;
    try discriminate.
  - split; [reflexivity|constructor].
  - destruct (IH stdev ltac:(lia)) as [IHlen IHnan].
    simpl. split; [f_equal; exact IHlen|].
    constructor; [|exact IHnan].
    destruct s; simpl; apply Hf.
Qed.

(** X21.  [standard_deviations = nan] passes the check of lines 115 to 121,
    since [nan <= 0] is false.  Every bundle that [partial_effect] then
    returns on the linear scale, and every display that
    [PartialEffectDisplay.from_estimator] then returns without
    transformation, has finite predictions [y], and bounds [y_low] and
    [y_high] of the length of [y] that hold [nan] in every row. *)
Theorem nan_standard_deviations `{Collaborators} (gam term edges : pyobj) (h : heap) :
  check_scalar (PyFloat NaN) 0 = Ok NaN /\
  (forall b h',
     partial_effect gam term (PyFloat NaN) edges true h = (Ok b, h') ->
     Forall finite (Bunch.y b) /\
     length (Bunch.y_low b) = length (Bunch.y b) /\
     length (Bunch.y_high b) = length (Bunch.y b) /\
     Forall (fun v => v = NaN) (Bunch.y_low b) /\
     Forall (fun v => v = NaN) (Bunch.y_high b)) /\
  (forall X y residuals d h',
     PartialEffectDisplay.from_estimator gam term X y (PyFloat NaN) edges
       TransformationNoneOrFalse residuals h = (Ok d, h') ->
     Forall finite (PartialEffectDisplay.y d) /\
     length (PartialEffectDisplay.y_low d) = length (PartialEffectDisplay.y d) /\
     length (PartialEffectDisplay.y_high d) = length (PartialEffectDisplay.y d) /\
     Forall (fun v => v = NaN) (PartialEffectDisplay.y_low d) /\
     Forall (fun v => v = NaN) (PartialEffectDisplay.y_high d)).
Proof.
  assert (Hfin : forall lp : list Q, Forall finite (map Fin lp)).
  { intros lp. apply List.Forall_forall. intros v Hv. apply in_map_iff in Hv.
    destruct Hv as (q & <- & _). exists q. reflexivity. }
  split; [reflexivity|]. split.
  - intros b h' E. unfold partial_effect in E.
    inv_bind E v h0 E0. unfold read in E0. injection E0 as E0 <-.
    destruct v as [[g l] sdv].
    apply partial_effect_validation_Ok in E0. destruct E0 as (-> & _ & Esd & _).
    injection Esd as <-.
    unfold partial_effect_logic in E.
    inv_bind E term' h1 E1. inv_bind E t h2 E2. inv_bind E dat h3 E3.
    inv_bind E Xot h4 E4. inv_bind E grid h5 E5. inv_bind E X h6 E6.
    inv_bind E t' h7 E7. inv_bind E lp h8 E8. inv_bind E V h9 E9.
    inv_bind E stdev h10 E10. inv_bind E eta h11 E11. inv_bind E resid h12 E12.
    inv_bind E low h13 E13. inv_bind E high h14 E14. inv_bind E own h15 E15.
    inv_bind E ypr h16 E16.
    inv_lift E8. inv_lift E10. inv_lift E13. inv_lift E14.
    destruct (standard_errors_spec X V stdev E10) as [Hlen _].
    simpl in E. apply ret_Ok in E. destruct E as [-> _]. simpl.
    assert (Hlens : length stdev = length lp)
      by (rewrite Hlen; symmetry; eapply matvec_length; exact E8).
    destruct (nan_interval fsub lp stdev low ltac:(reflexivity) Hlens E13)
      as [Hl1 Hl2].
    destruct (nan_interval fadd lp stdev high ltac:(reflexivity) Hlens E14)
      as [Hh1 Hh2].
    rewrite length_map. auto.
  - intros X y residuals d h' E. unfold PartialEffectDisplay.from_estimator in E.
    inv_bind E v h0 E0. unfold read in E0. injection E0 as E0 <-.
    destruct v as [[g l] sdv].
    apply from_estimator_validation_Ok in E0. destruct E0 as (-> & _ & Esd & _).
    injection Esd as <-.
    unfold PartialEffectDisplay.from_estimator_logic in E.
    inv_bind E term' h1 E1. inv_bind E Xt h2 E2. inv_bind E t h3 E3.
    inv_bind E xobs h4 E4. inv_bind E grid h5 E5. inv_bind E Xs h6 E6.
    inv_bind E Xs' h7 E7. inv_bind E t' h8 E8. inv_bind E lp h9 E9.
    inv_bind E V h10 E10. inv_bind E stdev h11 E11. inv_bind E predicted h12 E12.
    inv_bind E res h13 E13. inv_bind E own h14 E14. inv_bind E onlink h15 E15.
    inv_bind E low h16 E16. inv_bind E high h17 E17.
    inv_lift E9. inv_lift E11. inv_lift E16. inv_lift E17.
    destruct (standard_errors_spec Xs' V stdev E11) as [Hlen _].
    apply ret_Ok in E. destruct E as [-> _]. simpl.
    assert (Hlens : length stdev = length lp)
      by (rewrite Hlen; symmetry; eapply matvec_length; exact E9).
    destruct (nan_interval fsub lp stdev low ltac:(reflexivity) Hlens E16)
      as [Hl1 Hl2].
    destruct (nan_interval fadd lp stdev high ltac:(reflexivity) Hlens E17)
      as [Hh1 Hh2].
    rewrite length_map. auto.
Qed.

Lemma nan_standard_deviations_witness :
  exists b h',
    partial_effect (PyGAM example_gam) (PyTermRef 0) (PyFloat NaN) PyNone true
      (example_heap Linear) = (Ok b, h') /\
    length (Bunch.y_low b) = 100 /\
    Forall (fun v => v = NaN) (Bunch.y_low b) /\
    Forall (fun v => v = NaN) (Bunch.y_high b).
Proof.
  destruct (partial_effect (PyGAM example_gam) (PyTermRef 0) (PyFloat NaN) PyNone
              true (example_heap Linear)) as [[b|e] h'] eqn:E.
  - destruct (proj1 (proj2 (@nan_standard_deviations example_collaborators
                              (PyGAM example_gam) (PyTermRef 0) PyNone
                              (example_heap Linear))) b h' E)
      as (_ & _ & _ & Hlow & Hhigh).
    exists b, h'. split; [reflexivity|]. split; [|split; assumption].
    vm_compute in E. injection E as <- _. reflexivity.
  - exfalso. vm_compute in E. discriminate.
Defined.
